(** * The shared-array-buffer transport of the browser build of Csound

    A shallow embedding of the control host
    ([class SharedArrayBufferMainThread]) and of the synthesis worker
    ([sab.worker.js]), and the properties of the specification checked
    against them.

    The two threads communicate through [Int32Array]s accessed with
    [Atomics]; the host keeps a reference to "its" audio-state array that
    it can replace, so the arrays live in a store addressed by allocation
    order and every access names the array it goes through. *)

From stdpp Require Import base list strings gmap.
From Stdlib Require Import ZArith Floats Lia.

Open Scope Z_scope.

(** ** Numbers *)

(** The value an [Int32Array] keeps of a number written to it. *)
Definition ToInt32 (z : Z) : Z := (z + 2 ^ 31) `mod` 2 ^ 32 - 2 ^ 31.

Definition int32 (z : Z) : Prop := - 2 ^ 31 ≤ z < 2 ^ 31.

(** The numbers the code computes with are integers, except that the
    remainder by zero is [NaN]. *)
Inductive Number := NaN | Num (z : Z).

(** [a % b]: the remainder has the sign of the dividend. *)
Definition js_rem (a : Number) (b : Z) : Number :=
  match a with
  | NaN => NaN
  | Num x => if b =? 0 then NaN else Num (Z.rem x b)
  end.

Definition js_add (a : Number) (b : Z) : Number :=
  match a with NaN => NaN | Num x => Num (x + b) end.

Definition js_mul (a : Number) (b : Z) : Number :=
  match a with NaN => NaN | Num x => Num (x * b) end.

(** [a === 0] *)
Definition js_is_zero (a : Number) : bool :=
  match a with NaN => false | Num x => x =? 0 end.

(** The integer a [Number] stands for where an integer is required:
    [NaN] counts as 0. *)
Definition ToIntegerOrInfinity (a : Number) : Z :=
  match a with NaN => 0 | Num x => x end.

(** [x || 0] on a sample: 0, -0 and NaN are falsy. *)
Definition or_zero (x : float) : float :=
  if (PrimFloat.is_nan x || PrimFloat.is_zero x)%bool then 0%float else x.

(** ** The constants table ([@root/constants], [@root/utils]) *)

(** The index each name of [AUDIO_STATE] resolves to when it is used as
    the index argument of an [Atomics] call. A name the table does not
    define is [undefined], which [Atomics] reads as index 0. The host
    spells the doorbell both [ATOMIC_NOTIFY] and [ATOMIC_NOFITY]. *)
Record AUDIO_STATE_indices := {
  ATOMIC_NOTIFY : nat;
  ATOMIC_NOFITY : nat;
  IS_PERFORMING : nat;
  IS_PAUSED : nat;
  STOP : nat;
  NCHNLS : nat;
  NCHNLS_I : nat;
  SAMPLE_RATE : nat;
  HW_BUFFER_SIZE : nat;
  SW_BUFFER_SIZE : nat;
  AVAIL_IN_BUFS : nat;
  AVAIL_OUT_BUFS : nat;
  INPUT_READ_INDEX : nat;
  OUTPUT_WRITE_INDEX : nat;
  IS_REQUESTING_RTMIDI : nat;
  AVAIL_RTMIDI_EVENTS : nat;
  RTMIDI_INDEX : nat;
}.

(** The constants are not part of the two source files; the program is
    read with them as parameters. *)
Class Constants := {
  AUDIO_STATE : AUDIO_STATE_indices;
  MAX_CHANNELS : Z;
  MAX_HARDWARE_BUFFER_SIZE : Z;
  MIDI_BUFFER_SIZE : Z;
  MIDI_BUFFER_PAYLOAD_SIZE : Z;
  initialSharedState : list Z;
  stopableStates : gset string;
}.

(** The fields of the audio state the specification lists, in a fixed
    order. *)
Definition audio_state_fields (ix : AUDIO_STATE_indices) : list nat :=
  [ ix.(ATOMIC_NOTIFY); ix.(IS_PERFORMING); ix.(IS_PAUSED); ix.(STOP);
    ix.(NCHNLS); ix.(NCHNLS_I); ix.(SAMPLE_RATE); ix.(HW_BUFFER_SIZE);
    ix.(SW_BUFFER_SIZE); ix.(AVAIL_IN_BUFS); ix.(AVAIL_OUT_BUFS);
    ix.(INPUT_READ_INDEX); ix.(OUTPUT_WRITE_INDEX);
    ix.(IS_REQUESTING_RTMIDI); ix.(AVAIL_RTMIDI_EVENTS); ix.(RTMIDI_INDEX) ].

(** A table is well formed when its fields are distinct words of the
    template, the second spelling of the doorbell lies inside it too, and
    the template holds 32-bit words. *)
Definition constants_ok `{Constants} : Prop :=
  NoDup (audio_state_fields AUDIO_STATE)
  ∧ Forall (λ i, (i < length initialSharedState)%nat)
      (AUDIO_STATE.(ATOMIC_NOFITY) :: audio_state_fields AUDIO_STATE)
  ∧ Forall int32 initialSharedState.

(** ** The engine ([libraryCsound]) *)

(** The compiled engine is opaque: an instance has a state, queries read
    it and calls change it. The numbers it answers are integers (a sample
    rate with a fraction would lose it when stored into the audio state).
    [spout] is the block the engine last produced
    (the [Float64Array] at [csoundGetSpout], undefined outside it) and
    [spin_set] writes one sample of the block it will consume (the
    [Float64Array] at [csoundGetSpin]). *)
Class LibraryCsound := {
  Csound : Type;
  _isRequestingRtMidiInput : Csound → Z;
  csoundGetInputName : Csound → string;
  csoundGetNchnls : Csound → Z;
  csoundGetNchnlsInput : Csound → Z;
  csoundGetSr : Csound → Z;
  csoundGetKsmps : Csound → Z;
  csoundGet0dBFS : Csound → float;
  csoundStop : Csound → Csound;
  csoundReset : Csound → Z * Csound;
  csoundPerformKsmps : Csound → Z * Csound;
  csoundPushMidiMessage : Csound → Z → Z → Z → Csound;
  spout : Csound → list float;
  spin_set : Csound → nat → float → Csound;
}.

(** [String.prototype.includes] *)
Fixpoint includes (s sub : string) : bool :=
  String.prefix sub s ||
  match s with
  | EmptyString => false
  | String _ s' => includes s' sub
  end.

(** ** Code of the repository outside the two files *)

(** [handleSABCallbacks] ([@root/sab.worker.utils]) serves the pending
    callback requests: it is given the audio state, the callback request
    buffer and the engine, and may change all three. *)
Class SabWorkerUtils `{LibraryCsound} := {
  handleSABCallbacks : list Z → list Z → Csound → list Z * list Z * Csound;
}.

(** ** The machine *)

Definition addr := nat.
Definition Promise := nat.
Definition Callback := nat.

(** What leaves the two threads: wake-ups of waiting threads, messages
    and calls of the collaborators. *)
(** The [Int32Array]s the threads share: the view of an audio-state
    buffer and [midiBuffer]. *)
Inductive Int32Array := audioStateView (a : addr) | midiBufferView.

Inductive Event :=
  | notify (array : Int32Array) (i : nat)
  | broadcastPlayState (playStateChange : string)
  | trigger (event : string)
  | audioWorker_onPlayStateChange (newPlayState : string)
  | playStateChangeCallback (callback : Callback) (newPlayState : string).

(** The fields [prepareRealtimePerformance] stamps onto the audio
    backend. *)
Record AudioWorker := {
  isRequestingInput : bool;
  isRequestingMidi : Z;
  sampleRate : Z;
  inputCount : Z;
  outputsCount : Z;
  hardwareBufferSize : Z;
  softwareBufferSize : Z;
}.

(** The host object. [audioStatePointer] is the array [this.audioStateBuffer]
    / [this.audioStatePointer] currently refer to; [audioStateBuffer] and
    [csoundInstance] are the constants [initialize] binds for the
    operations it exports. *)
Record SharedArrayBufferMainThread := {
  audioStatePointer : addr;
  currentPlayState : option string;
  startPromiz : option Promise;
  stopPromiz : option Promise;
  csoundPlayStateChangeCallbacks : list Callback;
  audioWorker : AudioWorker;
  csoundInstance : option Z;
  audioStateBuffer : addr;
}.

Section Machine.
Context `{LibraryCsound}.

(** The store of audio-state arrays (by address, zero-filled when
    allocated), the other shared buffers, the host, the engine instance
    the worker owns, the promises created and settled, and the events
    emitted so far (latest last). *)
Record World := {
  sab : list (list Z);
  midiBuffer : list Z;
  callbackBuffer : list Z;
  audioStreamIn : list float;
  audioStreamOut : list float;
  main : SharedArrayBufferMainThread;
  csound : Csound;
  promises : nat;
  resolved : list Promise;
  trace : list Event;
}.

Definition set_sab (x : list (list Z)) (w : World) : World :=
  {| sab := x; midiBuffer := w.(midiBuffer); callbackBuffer := w.(callbackBuffer);
     audioStreamIn := w.(audioStreamIn); audioStreamOut := w.(audioStreamOut);
     main := w.(main); csound := w.(csound); promises := w.(promises);
     resolved := w.(resolved); trace := w.(trace) |}.

Definition set_midiBuffer (x : list Z) (w : World) : World :=
  {| sab := w.(sab); midiBuffer := x; callbackBuffer := w.(callbackBuffer);
     audioStreamIn := w.(audioStreamIn); audioStreamOut := w.(audioStreamOut);
     main := w.(main); csound := w.(csound); promises := w.(promises);
     resolved := w.(resolved); trace := w.(trace) |}.

Definition set_callbackBuffer (x : list Z) (w : World) : World :=
  {| sab := w.(sab); midiBuffer := w.(midiBuffer); callbackBuffer := x;
     audioStreamIn := w.(audioStreamIn); audioStreamOut := w.(audioStreamOut);
     main := w.(main); csound := w.(csound); promises := w.(promises);
     resolved := w.(resolved); trace := w.(trace) |}.

Definition set_audioStreamOut (x : list float) (w : World) : World :=
  {| sab := w.(sab); midiBuffer := w.(midiBuffer); callbackBuffer := w.(callbackBuffer);
     audioStreamIn := w.(audioStreamIn); audioStreamOut := x;
     main := w.(main); csound := w.(csound); promises := w.(promises);
     resolved := w.(resolved); trace := w.(trace) |}.

Definition set_main (x : SharedArrayBufferMainThread) (w : World) : World :=
  {| sab := w.(sab); midiBuffer := w.(midiBuffer); callbackBuffer := w.(callbackBuffer);
     audioStreamIn := w.(audioStreamIn); audioStreamOut := w.(audioStreamOut);
     main := x; csound := w.(csound); promises := w.(promises);
     resolved := w.(resolved); trace := w.(trace) |}.

Definition set_csound (x : Csound) (w : World) : World :=
  {| sab := w.(sab); midiBuffer := w.(midiBuffer); callbackBuffer := w.(callbackBuffer);
     audioStreamIn := w.(audioStreamIn); audioStreamOut := w.(audioStreamOut);
     main := w.(main); csound := x; promises := w.(promises);
     resolved := w.(resolved); trace := w.(trace) |}.

Definition set_promises (n : nat) (r : list Promise) (w : World) : World :=
  {| sab := w.(sab); midiBuffer := w.(midiBuffer); callbackBuffer := w.(callbackBuffer);
     audioStreamIn := w.(audioStreamIn); audioStreamOut := w.(audioStreamOut);
     main := w.(main); csound := w.(csound); promises := n;
     resolved := r; trace := w.(trace) |}.

Definition set_trace (x : list Event) (w : World) : World :=
  {| sab := w.(sab); midiBuffer := w.(midiBuffer); callbackBuffer := w.(callbackBuffer);
     audioStreamIn := w.(audioStreamIn); audioStreamOut := w.(audioStreamOut);
     main := w.(main); csound := w.(csound); promises := w.(promises);
     resolved := w.(resolved); trace := x |}.

(** *** Computations: a state over [World], failing on a [RangeError] *)

Definition M (A : Type) : Type := World → option (A * World).

#[export] Instance M_ret : MRet M := λ A a w, Some (a, w).

#[export] Instance M_bind : MBind M := λ A B f m w,
  match m w with
  | Some (a, w') => f a w'
  | None => None
  end.

Definition RangeError {A} : M A := λ _, None.

Definition gets {A} (f : World → A) : M A := λ w, Some (f w, w).

Definition modify (f : World → World) : M () := λ w, Some ((), f w).

Definition emit (e : Event) : M () := modify (λ w, set_trace (w.(trace) ++ [e]) w).

(** A loop that runs its body on each element in turn, threading [x]. *)
Fixpoint for_each {A X} (l : list A) (body : A → X → M X) (x : X) : M X :=
  match l with
  | [] => mret x
  | a :: l' => x' ← body a x; for_each l' body x'
  end.

(** *** [Int32Array]s and [Atomics] *)

Definition contents (r : Int32Array) (w : World) : option (list Z) :=
  match r with
  | audioStateView a => w.(sab) !! a
  | midiBufferView => Some w.(midiBuffer)
  end.

Definition set_contents (r : Int32Array) (l : list Z) (w : World) : World :=
  match r with
  | audioStateView a => set_sab (<[a := l]> w.(sab)) w
  | midiBufferView => set_midiBuffer l w
  end.

(** The index an [Atomics] call accesses: [NaN] counts as 0 and a
    negative index is a [RangeError] (as is one past the end, checked at
    the access). *)
Definition ToIndex (i : Number) : M nat :=
  let z := ToIntegerOrInfinity i in
  if z <? 0 then RangeError else mret (Z.to_nat z).

Definition Atomics_load (r : Int32Array) (i : nat) : M Z := λ w,
  l ← contents r w; v ← l !! i; Some (v, w).

Definition Atomics_store (r : Int32Array) (i : nat) (v : Z) : M () := λ w,
  l ← contents r w;
  if decide (i < length l)%nat
  then Some ((), set_contents r (<[i := ToInt32 v]> l) w)
  else None.

Definition Atomics_add (r : Int32Array) (i : nat) (v : Z) : M Z := λ w,
  l ← contents r w; old ← l !! i;
  Some (old, set_contents r (<[i := ToInt32 (old + v)]> l) w).

Definition Atomics_sub (r : Int32Array) (i : nat) (v : Z) : M Z := λ w,
  l ← contents r w; old ← l !! i;
  Some (old, set_contents r (<[i := ToInt32 (old - v)]> l) w).

(** [Atomics.notify] wakes the threads waiting on the word. *)
Definition Atomics_notify (r : Int32Array) (i : nat) : M () :=
  _ ← Atomics_load r i; emit (notify r i).

(** [Atomics.wait(array, i, value)] returns at once with "not-equal" when
    the word differs from [value]; otherwise the thread sleeps until the
    word is notified. *)
Inductive WaitResult := not_equal | sleeps.

Definition Atomics_wait (r : Int32Array) (i : nat) (value : Z) : M WaitResult :=
  v ← Atomics_load r i;
  mret (if v =? value then sleeps else not_equal).

End Machine.

(** Short-circuit [&&] and [||] of conditions that read the state. *)
Definition and_then `{LibraryCsound} (a b : M bool) : M bool :=
  x ← a; if x : bool then b else mret false.

Definition or_else `{LibraryCsound} (a b : M bool) : M bool :=
  x ← a; if x : bool then mret true else b.

Infix "&&&" := and_then (at level 40, left associativity).
Infix "|||" := or_else (at level 50, left associativity).

(** [stopableStates.has(state)]; the play state is [undefined] until the
    first change. *)
Definition has (s : gset string) (x : option string) : bool :=
  match x with
  | Some v => bool_decide (v ∈ s)
  | None => false
  end.

(** An [async] operation either returns at once or is suspended on a
    promise and returns when that promise is resolved. *)
Inductive Completion :=
  | returns (v : Z)
  | awaits (p : Promise) (v : Z).

(** ** The control host: [class SharedArrayBufferMainThread] *)

Module Main.
Section Main.
Context `{Constants} `{LibraryCsound}.

Definition this : M SharedArrayBufferMainThread := gets main.

Definition this_audioStatePointer : M Int32Array :=
  gets (λ w, audioStateView w.(main).(audioStatePointer)).

Definition set_audioStatePointer (a : addr) : M () :=
  modify (λ w, let h := w.(main) in set_main
    {| audioStatePointer := a; currentPlayState := h.(currentPlayState);
       startPromiz := h.(startPromiz); stopPromiz := h.(stopPromiz);
       csoundPlayStateChangeCallbacks := h.(csoundPlayStateChangeCallbacks);
       audioWorker := h.(audioWorker); csoundInstance := h.(csoundInstance);
       audioStateBuffer := h.(audioStateBuffer) |} w).

Definition set_currentPlayState (s : option string) : M () :=
  modify (λ w, let h := w.(main) in set_main
    {| audioStatePointer := h.(audioStatePointer); currentPlayState := s;
       startPromiz := h.(startPromiz); stopPromiz := h.(stopPromiz);
       csoundPlayStateChangeCallbacks := h.(csoundPlayStateChangeCallbacks);
       audioWorker := h.(audioWorker); csoundInstance := h.(csoundInstance);
       audioStateBuffer := h.(audioStateBuffer) |} w).

Definition set_startPromiz (p : option Promise) : M () :=
  modify (λ w, let h := w.(main) in set_main
    {| audioStatePointer := h.(audioStatePointer);
       currentPlayState := h.(currentPlayState);
       startPromiz := p; stopPromiz := h.(stopPromiz);
       csoundPlayStateChangeCallbacks := h.(csoundPlayStateChangeCallbacks);
       audioWorker := h.(audioWorker); csoundInstance := h.(csoundInstance);
       audioStateBuffer := h.(audioStateBuffer) |} w).

Definition set_stopPromiz (p : option Promise) : M () :=
  modify (λ w, let h := w.(main) in set_main
    {| audioStatePointer := h.(audioStatePointer);
       currentPlayState := h.(currentPlayState);
       startPromiz := h.(startPromiz); stopPromiz := p;
       csoundPlayStateChangeCallbacks := h.(csoundPlayStateChangeCallbacks);
       audioWorker := h.(audioWorker); csoundInstance := h.(csoundInstance);
       audioStateBuffer := h.(audioStateBuffer) |} w).

Definition set_audioWorker (a : AudioWorker) : M () :=
  modify (λ w, let h := w.(main) in set_main
    {| audioStatePointer := h.(audioStatePointer);
       currentPlayState := h.(currentPlayState);
       startPromiz := h.(startPromiz); stopPromiz := h.(stopPromiz);
       csoundPlayStateChangeCallbacks := h.(csoundPlayStateChangeCallbacks);
       audioWorker := a; csoundInstance := h.(csoundInstance);
       audioStateBuffer := h.(audioStateBuffer) |} w).

(** [new Promise((resolve) => ...)]: the promise is named by its
    number. *)
Definition new_Promise : M Promise := λ w,
  Some (w.(promises), set_promises (S w.(promises)) w.(resolved) w).

Definition resolve (p : Promise) : M () :=
  modify (λ w, set_promises w.(promises) (p :: w.(resolved)) w).

(** [new SharedArrayBuffer(initialSharedState.length * 4)] with an
    [Int32Array] over it: a fresh zero-filled array. *)
Definition new_audioState : M addr := λ w,
  Some (length w.(sab),
        set_sab (w.(sab) ++ [replicate (length initialSharedState) 0]) w).

(** The host as the constructor leaves it, and [initialize] as far as
    the operations below depend on it: the engine instance the worker
    created and the audio-state buffer are bound once, for all later
    calls. *)
Definition constructor (engine : Csound) : World :=
  {| sab := [replicate (length initialSharedState) 0];
     midiBuffer := replicate (Z.to_nat (MIDI_BUFFER_SIZE * MIDI_BUFFER_PAYLOAD_SIZE)) 0;
     callbackBuffer := replicate 1024 0;
     audioStreamIn :=
       replicate (Z.to_nat (MAX_CHANNELS * MAX_HARDWARE_BUFFER_SIZE)) 0%float;
     audioStreamOut :=
       replicate (Z.to_nat (MAX_CHANNELS * MAX_HARDWARE_BUFFER_SIZE)) 0%float;
     main := {| audioStatePointer := 0%nat; currentPlayState := None;
                startPromiz := None; stopPromiz := None;
                csoundPlayStateChangeCallbacks := [];
                audioWorker := {| isRequestingInput := false; isRequestingMidi := 0;
                                  sampleRate := 0; inputCount := 0; outputsCount := 0;
                                  hardwareBufferSize := 0; softwareBufferSize := 0 |};
                csoundInstance := None; audioStateBuffer := 0%nat |};
     csound := engine; promises := 0%nat; resolved := []; trace := [] |}.

Definition initialize (instance : Z) : M () :=
  modify (λ w, let h := w.(main) in set_main
    {| audioStatePointer := h.(audioStatePointer);
       currentPlayState := h.(currentPlayState);
       startPromiz := h.(startPromiz); stopPromiz := h.(stopPromiz);
       csoundPlayStateChangeCallbacks := h.(csoundPlayStateChangeCallbacks);
       audioWorker := h.(audioWorker); csoundInstance := Some instance;
       audioStateBuffer := h.(audioStatePointer) |} w).

Definition handleMidiInput (status data1 data2 : Z) : M () :=
  p ← this_audioStatePointer;
  currentQueueLength ← Atomics_load p AUDIO_STATE.(AVAIL_RTMIDI_EVENTS);
  rtmidiBufferIndex ← Atomics_load p AUDIO_STATE.(RTMIDI_INDEX);
  let nextIndex :=
    js_rem (Num (currentQueueLength * MIDI_BUFFER_PAYLOAD_SIZE + rtmidiBufferIndex))
           MIDI_BUFFER_SIZE in
  i ← ToIndex nextIndex; Atomics_store midiBufferView i status;;
  i ← ToIndex (js_add nextIndex 1); Atomics_store midiBufferView i data1;;
  i ← ToIndex (js_add nextIndex 2); Atomics_store midiBufferView i data2;;
  p ← this_audioStatePointer;
  _ ← Atomics_add p AUDIO_STATE.(AVAIL_RTMIDI_EVENTS) 1;
  mret ().

Definition prepareRealtimePerformance : M () :=
  p ← this_audioStatePointer;
  outputsCount ← Atomics_load p AUDIO_STATE.(NCHNLS);
  inputCount ← Atomics_load p AUDIO_STATE.(NCHNLS_I);
  isRequestingMidi ← Atomics_load p AUDIO_STATE.(IS_REQUESTING_RTMIDI);
  sampleRate ← Atomics_load p AUDIO_STATE.(SAMPLE_RATE);
  hardwareBufferSize ← Atomics_load p AUDIO_STATE.(HW_BUFFER_SIZE);
  softwareBufferSize ← Atomics_load p AUDIO_STATE.(SW_BUFFER_SIZE);
  set_audioWorker
    {| isRequestingInput := 0 <? inputCount; isRequestingMidi := isRequestingMidi;
       sampleRate := sampleRate; inputCount := inputCount;
       outputsCount := outputsCount; hardwareBufferSize := hardwareBufferSize;
       softwareBufferSize := softwareBufferSize |}.

(** [if (this.stopPromiz) { this.stopPromiz(); delete this.stopPromiz; }] *)
Definition settle_stopPromiz : M () :=
  h ← this;
  match h.(stopPromiz) with
  | Some p => resolve p;; set_stopPromiz None
  | None => mret ()
  end.

(** The handler runs to its end before anything else touches the state;
    the listeners of [events], the audio backend and the registered
    callbacks are collaborators, and their calls are recorded. (This is
    the handler with every [await] answered at once; see
    [onPlayStateChange_called] below for the handler as a caller that
    does not [await] it sees it.) *)
Definition onPlayStateChange (newPlayState : string) : M () :=
  set_currentPlayState (Some newPlayState);;
  (if decide (newPlayState = "realtimePerformanceStarted") then
     prepareRealtimePerformance;;
     emit (trigger "RealtimePerformanceStarted")
   else if decide (newPlayState = "realtimePerformanceEnded") then
     settle_stopPromiz;;
     emit (trigger "RealtimePerformanceEnded");;
     for_each (imap (λ index value, (index, value)) initialSharedState)
       (λ '(index, value) _,
          p ← this_audioStatePointer; Atomics_store p index value) ()
   else if decide (newPlayState = "realtimePerformancePaused") then
     emit (trigger "RealtimePerformancePaused")
   else if decide (newPlayState = "realtimePerformanceResumed") then
     emit (trigger "RealtimePerformanceResumed")
   else if decide (newPlayState = "renderStarted") then
     emit (trigger "RenderStarted")
   else if decide (newPlayState = "renderEnded") then
     settle_stopPromiz;;
     emit (trigger "RenderEnded")
   else mret ());;
  emit (audioWorker_onPlayStateChange newPlayState);;
  h ← this;
  match h.(startPromiz) with
  | Some p =>
      if decide (newPlayState = "realtimePerformanceStarted") then mret ()
      else resolve p;; set_startPromiz None
  | None => mret ()
  end;;
  h ← this;
  for_each h.(csoundPlayStateChangeCallbacks)
    (λ callback _, emit (playStateChangeCallback callback newPlayState)) ().

Definition csoundPause : M () :=
  p ← this_audioStatePointer;
  guard ←
    (v ← Atomics_load p AUDIO_STATE.(IS_PAUSED); mret (negb (v =? 1))) &&&
    (v ← Atomics_load p AUDIO_STATE.(STOP); mret (negb (v =? 1))) &&&
    (v ← Atomics_load p AUDIO_STATE.(IS_PERFORMING); mret (v =? 1));
  if guard : bool then
    Atomics_store p AUDIO_STATE.(IS_PAUSED) 1;;
    onPlayStateChange "realtimePerformancePaused"
  else mret ().

Definition csoundResume : M () :=
  p ← this_audioStatePointer;
  guard ←
    (v ← Atomics_load p AUDIO_STATE.(IS_PAUSED); mret (v =? 1)) &&&
    (v ← Atomics_load p AUDIO_STATE.(STOP); mret (negb (v =? 1))) &&&
    (v ← Atomics_load p AUDIO_STATE.(IS_PERFORMING); mret (v =? 1));
  if guard : bool then
    Atomics_store p AUDIO_STATE.(IS_PAUSED) 0;;
    Atomics_notify p AUDIO_STATE.(IS_PAUSED);;
    onPlayStateChange "realtimePerformanceResumed"
  else mret ().

(** *** The handler as its callers see it

    [onPlayStateChange] is [async], and [pause()] and [resume()] call it
    without [await] (lines 138 and 150): such a call runs the handler up
    to its first [await] and returns; the rest of the handler runs later,
    one part at every [await] that is answered, and each part runs to its
    end before anything else touches the state. For a play state other
    than [realtimePerformanceStarted] the first [await] is the one of
    line 208, reached when the [switch] is done and the audio backend has
    been called; for [realtimePerformanceStarted] it is the one of line
    163, reached when [prepareRealtimePerformance] has run. *)

(** Lines 213-226: the handler from the [await] of line 208 on. *)
Definition onPlayStateChange_answered (newPlayState : string) : M () :=
  h ← this;
  match h.(startPromiz) with
  | Some p =>
      if decide (newPlayState = "realtimePerformanceStarted") then mret ()
      else resolve p;; set_startPromiz None
  | None => mret ()
  end;;
  h ← this;
  for_each h.(csoundPlayStateChangeCallbacks)
    (λ callback _, emit (playStateChangeCallback callback newPlayState)) ().

(** The handler from its call to its first [await]; it hands back the
    parts of the handler that are still to run, each up to the next
    [await]. *)
Definition onPlayStateChange_called (newPlayState : string) : M (list (M ())) :=
  set_currentPlayState (Some newPlayState);;
  if decide (newPlayState = "realtimePerformanceStarted") then
    prepareRealtimePerformance;;
    mret [emit (trigger "RealtimePerformanceStarted");;
          emit (audioWorker_onPlayStateChange newPlayState);
          onPlayStateChange_answered newPlayState]
  else
    (if decide (newPlayState = "realtimePerformanceEnded") then
       settle_stopPromiz;;
       emit (trigger "RealtimePerformanceEnded");;
       for_each (imap (λ index value, (index, value)) initialSharedState)
         (λ '(index, value) _,
            p ← this_audioStatePointer; Atomics_store p index value) ()
     else if decide (newPlayState = "realtimePerformancePaused") then
       emit (trigger "RealtimePerformancePaused")
     else if decide (newPlayState = "realtimePerformanceResumed") then
       emit (trigger "RealtimePerformanceResumed")
     else if decide (newPlayState = "renderStarted") then
       emit (trigger "RenderStarted")
     else if decide (newPlayState = "renderEnded") then
       settle_stopPromiz;;
       emit (trigger "RenderEnded")
     else mret ());;
    emit (audioWorker_onPlayStateChange newPlayState);;
    mret [onPlayStateChange_answered newPlayState].

(** [pause()] and [resume()] with the un-awaited handler: the calls
    return when the handler is suspended, and hand back what the handler
    still has to run. *)
Definition csoundPause_called : M (list (M ())) :=
  p ← this_audioStatePointer;
  guard ←
    (v ← Atomics_load p AUDIO_STATE.(IS_PAUSED); mret (negb (v =? 1))) &&&
    (v ← Atomics_load p AUDIO_STATE.(STOP); mret (negb (v =? 1))) &&&
    (v ← Atomics_load p AUDIO_STATE.(IS_PERFORMING); mret (v =? 1));
  if guard : bool then
    Atomics_store p AUDIO_STATE.(IS_PAUSED) 1;;
    onPlayStateChange_called "realtimePerformancePaused"
  else mret [].

Definition csoundResume_called : M (list (M ())) :=
  p ← this_audioStatePointer;
  guard ←
    (v ← Atomics_load p AUDIO_STATE.(IS_PAUSED); mret (v =? 1)) &&&
    (v ← Atomics_load p AUDIO_STATE.(STOP); mret (negb (v =? 1))) &&&
    (v ← Atomics_load p AUDIO_STATE.(IS_PERFORMING); mret (v =? 1));
  if guard : bool then
    Atomics_store p AUDIO_STATE.(IS_PAUSED) 0;;
    Atomics_notify p AUDIO_STATE.(IS_PAUSED);;
    onPlayStateChange_called "realtimePerformanceResumed"
  else mret [].

(** What [csoundStart] hands to the worker. The stream, MIDI and callback
    buffers are the ones the constructor allocated; the audio-state
    buffer is the constant [initialize] bound. *)
Record StartArguments := {
  args_audioStateBuffer : addr;
  args_csound : Z;
}.

(** [csoundStart] up to its first [await]: either -1, or the message for
    the worker and the promise the call then waits for. *)
Definition csoundStart : M (Z + StartArguments * Promise) :=
  h ← this;
  match h.(csoundInstance) with
  | Some instance =>
      if instance =? 0 then mret (inl (-1))
      else
        startPromise ← new_Promise;
        set_startPromiz (Some startPromise);;
        mret (inr ({| args_audioStateBuffer := h.(audioStateBuffer);
                      args_csound := instance |}, startPromise))
  | None => mret (inl (-1))
  end.

Definition csoundStop : M Completion :=
  h ← this;
  if has stopableStates h.(currentPlayState) then
    stopPromise ← new_Promise;
    set_stopPromiz (Some stopPromise);;
    p ← this_audioStatePointer;
    Atomics_store p AUDIO_STATE.(STOP) 1;;
    Atomics_store p AUDIO_STATE.(IS_PERFORMING) 0;;
    (if decide (h.(currentPlayState) = Some "realtimePerformancePaused") then
       Atomics_store p AUDIO_STATE.(IS_PAUSED) 0;;
       Atomics_notify p AUDIO_STATE.(IS_PAUSED)
     else mret ());;
    (if decide (h.(currentPlayState) = Some "renderStarted") then mret ()
     else
       Atomics_store p AUDIO_STATE.(ATOMIC_NOFITY) 1;;
       Atomics_notify p AUDIO_STATE.(ATOMIC_NOTIFY));;
    mret (awaits stopPromise 0)
  else mret (returns (-1)).

(** Modelled from the spec: [proxyCallback] for [csoundReset]
    ([makeProxyCallback] of [@root/utils] and the worker's dispatch),
    which "forwards reset to engine" and hands back its result. *)
Definition proxyCallback_csoundReset : M Z := λ w,
  let '(resetResult, engine) := csoundReset w.(csound) in
  Some (resetResult, set_csound engine w).

(** [csoundReset] after [await this.exportApi.stop()], or from its
    beginning when the state is not stopable. *)
Definition csoundReset_resume : M Z :=
  resetResult ← proxyCallback_csoundReset;
  a ← new_audioState;
  set_audioStatePointer a;;
  mret resetResult.

(** [csoundReset]: suspended on the [stop()] it called, or done. *)
Definition csoundReset : M (Completion + Z) :=
  h ← this;
  if has stopableStates h.(currentPlayState) then
    stop ← csoundStop; mret (inl stop)
  else
    resetResult ← csoundReset_resume; mret (inr resetResult).

(** *** The operations on the registered callbacks and the API calls
    that go to the engine *)

(** What a caller passes where a callback is expected: a function, or a
    value whose [typeof] is something else. *)
Inductive Value :=
  | function (callback : Callback)
  | not_a_function.

Definition set_csoundPlayStateChangeCallbacks (callbacks : list Callback) : M () :=
  modify (λ w, let h := w.(main) in set_main
    {| audioStatePointer := h.(audioStatePointer);
       currentPlayState := h.(currentPlayState);
       startPromiz := h.(startPromiz); stopPromiz := h.(stopPromiz);
       csoundPlayStateChangeCallbacks := callbacks;
       audioWorker := h.(audioWorker); csoundInstance := h.(csoundInstance);
       audioStateBuffer := h.(audioStateBuffer) |} w).

(** The message [console.error] prints for a value that is not a
    function is not recorded. *)
Definition setCsoundPlayStateChangeCallback (callback : Value) : M () :=
  match callback with
  | not_a_function => mret ()
  | function f => set_csoundPlayStateChangeCallbacks [f]
  end.

Definition addCsoundPlayStateChangeCallback (callback : Value) : M () :=
  match callback with
  | not_a_function => mret ()
  | function f =>
      h ← this;
      set_csoundPlayStateChangeCallbacks (h.(csoundPlayStateChangeCallbacks) ++ [f])
  end.

(** The two ways an API call other than [start], [stop] and [reset]
    reaches the engine: [perfCallback] writes a request into the callback
    buffer for the running thread to serve, [proxyCallback] posts a
    message to the worker. *)
Inductive Route := perfCallback | proxyCallback.

(** The choice [bufferWrappedCallback] makes. *)
Definition bufferWrappedCallback : M Route :=
  h ← this;
  mret (if bool_decide (h.(currentPlayState) = Some "realtimePerformanceStarted")
           || bool_decide (h.(currentPlayState) = Some "renderStarted")
        then perfCallback else proxyCallback).

End Main.
End Main.

(** ** The synthesis worker: [sab.worker.js] *)

Module Worker.
Section Worker.
Context `{Constants} `{LibraryCsound} `{!SabWorkerUtils}.

(** A [Float64Array] over one of the two audio streams. *)
Record Float64Array := {
  byteOffset : Z;
  size : Z;
}.

(** [new Float64Array(buffer, byteOffset, length)] on a buffer of
    [elements] doubles. *)
Definition new_Float64Array (elements : nat) (byteOffset length : Z) : M Float64Array :=
  if (byteOffset <? 0) || negb (byteOffset `mod` 8 =? 0) || (length <? 0)
     || (8 * Z.of_nat elements <? byteOffset + 8 * length)
  then RangeError
  else mret {| byteOffset := byteOffset; size := length |}.

(** The element of the underlying buffer [view[i]] names, if any. *)
Definition element (view : Float64Array) (i : Number) : option nat :=
  match i with
  | Num z =>
      if (0 <=? z) && (z <? view.(size))
      then Some (Z.to_nat (view.(byteOffset) `div` 8 + z))
      else None
  | NaN => None
  end.

(** [channel[i]] on a view of [audioStreamIn]; [None] is [undefined]. *)
Definition channelsInput_get (channel : Float64Array) (i : Number) : M (option float) :=
  gets (λ w, n ← element channel i; w.(audioStreamIn) !! n).

(** [channel[i] = x] on a view of [audioStreamOut]. *)
Definition channelsOutput_set (channel : Float64Array) (i : Number) (x : float) : M () :=
  match element channel i with
  | Some n => modify (λ w, set_audioStreamOut (<[n := x]> w.(audioStreamOut)) w)
  | None => mret ()
  end.

(** [csoundOutputBuffer[i]], a view of [length] doubles at
    [csoundGetSpout]. *)
Definition csoundOutputBuffer_get (length : Z) (i : Number) : M (option float) :=
  gets (λ w,
    match i with
    | Num z => if (0 <=? z) && (z <? length) then spout w.(csound) !! Z.to_nat z else None
    | NaN => None
    end).

(** [csoundInputBuffer[i] = x], a view of [length] doubles at
    [csoundGetSpin]. *)
Definition csoundInputBuffer_set (length : Z) (i : Number) (x : float) : M () :=
  match i with
  | Num z =>
      if (0 <=? z) && (z <? length)
      then modify (λ w, set_csound (spin_set w.(csound) (Z.to_nat z) x) w)
      else mret ()
  | NaN => mret ()
  end.

(** [(x || 0)] where [x] may be [undefined]. *)
Definition or_zero' (x : option float) : float :=
  match x with
  | Some v => or_zero v
  | None => 0%float
  end.

Definition libraryCsound_get {A} (f : Csound → A) : M A := gets (λ w, f w.(csound)).

Definition libraryCsound_call {A} (f : Csound → A * Csound) : M A := λ w,
  let '(a, engine) := f w.(csound) in Some (a, set_csound engine w).

(** The variables of one call of the thread function. *)
Record Thread := {
  audioStatePointer : Int32Array;
  isRequestingRtMidiInput : Z;
  nchnls : Z;
  nchnlsInput : Z;
  ksmps : Z;
  zeroDecibelFullScale : float;
  _B : Z;
  _b : Z;
  channelsOutput : list Float64Array;
  channelsInput : list Float64Array;
  lastReturn : Z;
  performanceEnded : bool;
  firstRound : bool;
}.

Definition set_lastReturn (x : Z) (t : Thread) : Thread :=
  {| audioStatePointer := t.(audioStatePointer);
     isRequestingRtMidiInput := t.(isRequestingRtMidiInput);
     nchnls := t.(nchnls); nchnlsInput := t.(nchnlsInput); ksmps := t.(ksmps);
     zeroDecibelFullScale := t.(zeroDecibelFullScale); _B := t.(_B); _b := t.(_b);
     channelsOutput := t.(channelsOutput); channelsInput := t.(channelsInput);
     lastReturn := x; performanceEnded := t.(performanceEnded);
     firstRound := t.(firstRound) |}.

Definition set_performanceEnded (x : bool) (t : Thread) : Thread :=
  {| audioStatePointer := t.(audioStatePointer);
     isRequestingRtMidiInput := t.(isRequestingRtMidiInput);
     nchnls := t.(nchnls); nchnlsInput := t.(nchnlsInput); ksmps := t.(ksmps);
     zeroDecibelFullScale := t.(zeroDecibelFullScale); _B := t.(_B); _b := t.(_b);
     channelsOutput := t.(channelsOutput); channelsInput := t.(channelsInput);
     lastReturn := t.(lastReturn); performanceEnded := x;
     firstRound := t.(firstRound) |}.

Definition set_firstRound (x : bool) (t : Thread) : Thread :=
  {| audioStatePointer := t.(audioStatePointer);
     isRequestingRtMidiInput := t.(isRequestingRtMidiInput);
     nchnls := t.(nchnls); nchnlsInput := t.(nchnlsInput); ksmps := t.(ksmps);
     zeroDecibelFullScale := t.(zeroDecibelFullScale); _B := t.(_B); _b := t.(_b);
     channelsOutput := t.(channelsOutput); channelsInput := t.(channelsInput);
     lastReturn := t.(lastReturn); performanceEnded := t.(performanceEnded);
     firstRound := x |}.

(** [sabCreateRealtimeAudioThread] from its entry to the broadcast of
    [realtimePerformanceStarted]: the variables the loop then runs on. *)
Definition sabCreateRealtimeAudioThread (args : Main.StartArguments) : M Thread :=
  let audioStatePointer := audioStateView args.(Main.args_audioStateBuffer) in
  for_each (imap (λ index value, (index, value)) initialSharedState)
    (λ '(index, value) _, Atomics_store audioStatePointer index value) ();;
  isRequestingRtMidiInput ← libraryCsound_get _isRequestingRtMidiInput;
  isExpectingInput ← libraryCsound_get (λ c, includes (csoundGetInputName c) "adc");
  nchnls ← libraryCsound_get csoundGetNchnls;
  nchnlsInput ←
    (if isExpectingInput : bool then libraryCsound_get csoundGetNchnlsInput else mret 0);
  sampleRate ← libraryCsound_get csoundGetSr;
  Atomics_store audioStatePointer AUDIO_STATE.(NCHNLS) nchnls;;
  Atomics_store audioStatePointer AUDIO_STATE.(NCHNLS_I) nchnlsInput;;
  Atomics_store audioStatePointer AUDIO_STATE.(SAMPLE_RATE) sampleRate;;
  Atomics_store audioStatePointer AUDIO_STATE.(IS_REQUESTING_RTMIDI)
    isRequestingRtMidiInput;;
  ksmps ← libraryCsound_get csoundGetKsmps;
  zeroDecibelFullScale ← libraryCsound_get csoundGet0dBFS;
  _B ← Atomics_load audioStatePointer AUDIO_STATE.(HW_BUFFER_SIZE);
  _b ← Atomics_load audioStatePointer AUDIO_STATE.(SW_BUFFER_SIZE);
  channelsOutput ←
    for_each (seqZ 0 nchnls)
      (λ channelIndex channelsOutput,
         elements ← gets (λ w, length w.(audioStreamOut));
         channel ← new_Float64Array elements
                     (MAX_HARDWARE_BUFFER_SIZE * channelIndex) MAX_HARDWARE_BUFFER_SIZE;
         mret (channelsOutput ++ [channel])) [];
  channelsInput ←
    for_each (seqZ 0 nchnlsInput)
      (λ channelIndex channelsInput,
         elements ← gets (λ w, length w.(audioStreamIn));
         channel ← new_Float64Array elements
                     (MAX_HARDWARE_BUFFER_SIZE * channelIndex) MAX_HARDWARE_BUFFER_SIZE;
         mret (channelsInput ++ [channel])) [];
  Atomics_store audioStatePointer AUDIO_STATE.(IS_PERFORMING) 1;;
  emit (broadcastPlayState "realtimePerformanceStarted");;
  mret {| audioStatePointer := audioStatePointer;
          isRequestingRtMidiInput := isRequestingRtMidiInput;
          nchnls := nchnls; nchnlsInput := nchnlsInput; ksmps := ksmps;
          zeroDecibelFullScale := zeroDecibelFullScale; _B := _B; _b := _b;
          channelsOutput := channelsOutput; channelsInput := channelsInput;
          lastReturn := 0; performanceEnded := false; firstRound := true |}.

(** How one pass through the body of the [while] loop ends: the thread
    function returns, the thread is asleep in the [Atomics.wait] on
    [IS_PAUSED], or the body is done and the loop is back at its
    [Atomics.wait] on [ATOMIC_NOTIFY]. *)
Inductive Wake :=
  | thread_returns
  | thread_sleeps (t : Thread)
  | thread_loops (t : Thread).

(** Lines 154-171: the pending MIDI events go to the engine. *)
Definition rtmidi (t : Thread) : M () :=
  let audioStatePointer := t.(audioStatePointer) in
  if negb (t.(isRequestingRtMidiInput) =? 0) then
    availableMidiEvents ← Atomics_load audioStatePointer AUDIO_STATE.(AVAIL_RTMIDI_EVENTS);
    if 0 <? availableMidiEvents then
      rtmidiBufferIndex ← Atomics_load audioStatePointer AUDIO_STATE.(RTMIDI_INDEX);
      absIdx ←
        for_each (seqZ 0 availableMidiEvents)
          (λ idx _,
             let absIdx :=
               js_rem (Num (rtmidiBufferIndex + MIDI_BUFFER_PAYLOAD_SIZE * idx))
                      MIDI_BUFFER_SIZE in
             i ← ToIndex absIdx; status ← Atomics_load midiBufferView i;
             i ← ToIndex (js_add absIdx 1); data1 ← Atomics_load midiBufferView i;
             i ← ToIndex (js_add absIdx 2); data2 ← Atomics_load midiBufferView i;
             modify (λ w, set_csound
                            (csoundPushMidiMessage w.(csound) status data1 data2) w);;
             mret absIdx)
          (Num rtmidiBufferIndex);
      Atomics_store audioStatePointer AUDIO_STATE.(RTMIDI_INDEX)
        (ToIntegerOrInfinity (js_rem (js_add absIdx 1) MIDI_BUFFER_SIZE));;
      _ ← Atomics_sub audioStatePointer AUDIO_STATE.(AVAIL_RTMIDI_EVENTS)
            availableMidiEvents;
      mret ()
    else mret ()
  else mret ().

(** Line 173: the audio state, the callback buffer and the engine as
    [handleSABCallbacks] leaves them. *)
Definition serve_callbacks (t : Thread) : M () := λ w,
  l ← contents t.(audioStatePointer) w;
  let '(l', requests, engine) := handleSABCallbacks l w.(callbackBuffer) w.(csound) in
  Some ((), set_csound engine
              (set_callbackBuffer requests (set_contents t.(audioStatePointer) l' w))).

(** Lines 204-243: the body of the [for] loop over the frames. *)
Definition frame (hasInput : bool) (inputReadIndex outputWriteIndex : Z)
    (i : Z) (t : Thread) : M Thread :=
  let audioStatePointer := t.(audioStatePointer) in
  let currentInputReadIndex := js_rem (Num (inputReadIndex + i)) t.(_B) in
  let currentOutputWriteIndex := js_rem (Num (outputWriteIndex + i)) t.(_B) in
  let currentCsoundInputBufferPos := js_rem currentInputReadIndex t.(ksmps) in
  let currentCsoundOutputBufferPos := js_rem currentOutputWriteIndex t.(ksmps) in
  t ←
    (if js_is_zero currentCsoundOutputBufferPos && negb t.(performanceEnded) then
       if t.(lastReturn) =? 0 then
         lastReturn ← libraryCsound_call csoundPerformKsmps;
         mret (set_lastReturn lastReturn t)
       else mret (set_performanceEnded true t)
     else mret t);
  for_each (imap (λ channelIndex channel, (channelIndex, channel)) t.(channelsOutput))
    (λ '(channelIndex, channel) _,
       x ← csoundOutputBuffer_get (t.(ksmps) * t.(nchnls))
             (js_add (js_mul currentCsoundOutputBufferPos t.(nchnls))
                     (Z.of_nat channelIndex));
       channelsOutput_set channel currentOutputWriteIndex
         (PrimFloat.div (or_zero' x) t.(zeroDecibelFullScale))) ();;
  (if hasInput then
     for_each (imap (λ channelIndex channel, (channelIndex, channel)) t.(channelsInput))
       (λ '(channelIndex, channel) _,
          x ← channelsInput_get channel currentInputReadIndex;
          csoundInputBuffer_set (t.(ksmps) * t.(nchnlsInput))
            (js_add (js_mul currentCsoundInputBufferPos t.(nchnlsInput))
                    (Z.of_nat channelIndex))
            (PrimFloat.mul (or_zero' x) t.(zeroDecibelFullScale))) ();;
     _ ← Atomics_add audioStatePointer AUDIO_STATE.(INPUT_READ_INDEX) 1;
     v ← Atomics_load audioStatePointer AUDIO_STATE.(INPUT_READ_INDEX);
     if t.(_B) <=? v
     then Atomics_store audioStatePointer AUDIO_STATE.(INPUT_READ_INDEX) 0
     else mret ()
   else mret ());;
  _ ← Atomics_add audioStatePointer AUDIO_STATE.(OUTPUT_WRITE_INDEX) 1;
  v ← Atomics_load audioStatePointer AUDIO_STATE.(OUTPUT_WRITE_INDEX);
  (if t.(_B) <=? v
   then Atomics_store audioStatePointer AUDIO_STATE.(OUTPUT_WRITE_INDEX) 0
   else mret ());;
  mret t.

(** Lines 154-251: the body from the MIDI events on, which is also where
    a thread woken from its sleep on [IS_PAUSED] continues. *)
Definition perform (t : Thread) : M Wake :=
  let audioStatePointer := t.(audioStatePointer) in
  rtmidi t;;
  serve_callbacks t;;
  let framesRequested := t.(_b) in
  availableInputFrames ← Atomics_load audioStatePointer AUDIO_STATE.(AVAIL_IN_BUFS);
  let hasInput := framesRequested <=? availableInputFrames in
  (if hasInput && (t.(ksmps) * t.(nchnlsInput) <? 0) then RangeError else mret ());;
  (if t.(ksmps) * t.(nchnls) <? 0 then RangeError else mret ());;
  inputReadIndex ←
    (if hasInput then Atomics_load audioStatePointer AUDIO_STATE.(INPUT_READ_INDEX)
     else mret 0);
  outputWriteIndex ← Atomics_load audioStatePointer AUDIO_STATE.(OUTPUT_WRITE_INDEX);
  t ← for_each (seqZ 0 framesRequested)
        (frame hasInput inputReadIndex outputWriteIndex) t;
  (if hasInput
   then _ ← Atomics_sub audioStatePointer AUDIO_STATE.(AVAIL_IN_BUFS) framesRequested;
        mret ()
   else mret ());;
  _ ← Atomics_add audioStatePointer AUDIO_STATE.(AVAIL_OUT_BUFS) framesRequested;
  Atomics_store audioStatePointer AUDIO_STATE.(ATOMIC_NOTIFY) 0;;
  mret (thread_loops t).

(** One pass through the body of the [while] loop, entered when the
    [Atomics.wait] on [ATOMIC_NOTIFY] returns. The broadcast of
    [realtimePerformanceEnded] is the one the timer posts. *)
Definition wake (t : Thread) : M Wake :=
  let audioStatePointer := t.(audioStatePointer) in
  let t := if t.(firstRound) then set_firstRound false t else t in
  ending ←
    (v ← Atomics_load audioStatePointer AUDIO_STATE.(STOP); mret (v =? 1)) |||
    (v ← Atomics_load audioStatePointer AUDIO_STATE.(IS_PERFORMING); mret (negb (v =? 1))) |||
    mret t.(performanceEnded);
  if ending : bool then
    (if (t.(lastReturn) =? 0) && negb t.(performanceEnded) then
       modify (λ w, set_csound (csoundStop w.(csound)) w);;
       _ ← libraryCsound_call csoundPerformKsmps; mret ()
     else mret ());;
    emit (broadcastPlayState "realtimePerformanceEnded");;
    mret thread_returns
  else
    paused ← Atomics_load audioStatePointer AUDIO_STATE.(IS_PAUSED);
    wait ← (if paused =? 1
            then Atomics_wait audioStatePointer AUDIO_STATE.(IS_PAUSED) 0
            else mret not_equal);
    match wait with
    | sleeps => mret (thread_sleeps t)
    | not_equal => perform t
    end.

(** *** [renderFn]: rendering without an audio backend *)

(** Lines 282-289: [handleSABCallbacks] on the array of the render. *)
Definition render_callbacks (audioStatePointer : Int32Array) : M () := λ w,
  l ← contents audioStatePointer w;
  let '(l', requests, engine) := handleSABCallbacks l w.(callbackBuffer) w.(csound) in
  Some ((), set_csound engine
              (set_callbackBuffer requests (set_contents audioStatePointer l' w))).

(** How [renderFn] is found: it has returned, it is asleep in its
    [Atomics.wait] on [IS_PAUSED], or it is at the head of its [while]
    loop, about to test the condition once more. *)
Inductive Render :=
  | render_returns
  | render_sleeps
  | render_loops.

(** Lines 274-291: the [while] loop, for at most [rounds] tests of its
    condition, and the store after it. *)
Fixpoint render_loop (rounds : nat) (audioStatePointer : Int32Array) : M Render :=
  match rounds with
  | O => mret render_loops
  | S rounds =>
      continue ←
        (v ← Atomics_load audioStatePointer AUDIO_STATE.(STOP); mret (negb (v =? 1))) &&&
        (result ← libraryCsound_call csoundPerformKsmps; mret (result =? 0));
      if continue : bool then
        paused ← Atomics_load audioStatePointer AUDIO_STATE.(IS_PAUSED);
        wait ← (if paused =? 1
                then Atomics_wait audioStatePointer AUDIO_STATE.(IS_PAUSED) 0
                else mret not_equal);
        match wait with
        | sleeps => mret render_sleeps
        | not_equal =>
            render_callbacks audioStatePointer;;
            render_loop rounds audioStatePointer
        end
      else
        Atomics_store audioStatePointer AUDIO_STATE.(IS_PERFORMING) 0;;
        mret render_returns
  end.

Definition renderFn (rounds : nat) (args : Main.StartArguments) : M Render :=
  let audioStatePointer := audioStateView args.(Main.args_audioStateBuffer) in
  Atomics_store audioStatePointer AUDIO_STATE.(IS_PERFORMING) 1;;
  render_loop rounds audioStatePointer.

End Worker.
End Worker.

(** ** A concrete machine *)

(** The general statements below hold for every constants table and
    every engine; the examples run the program on this machine. *)
Module Scenario.

(** Modelled from the spec: the constants table ([@root/constants] and
    [stopableStates] of [@root/utils], neither among the source files).
    The audio-state fields are laid out in the order of the table of the
    specification's data model, both spellings of the doorbell name the
    same word ("treat both as the same field"), an event of the MIDI ring
    has three words, the software buffer is the 128 frames of the
    scenarios, everything else of the template is 0 before a start, and
    the stopable states are the four the specification lists. The sizes
    the specification leaves open are fixed here: a MIDI ring of 1024
    words, a hardware buffer of 512 frames out of at most 1024, two
    channels at most. *)
Definition table : Constants :=
  {| AUDIO_STATE :=
       {| IS_PERFORMING := 0; IS_PAUSED := 1; STOP := 2; ATOMIC_NOTIFY := 3;
          ATOMIC_NOFITY := 3; NCHNLS := 4; NCHNLS_I := 5; SAMPLE_RATE := 6;
          HW_BUFFER_SIZE := 7; SW_BUFFER_SIZE := 8; AVAIL_IN_BUFS := 9;
          AVAIL_OUT_BUFS := 10; INPUT_READ_INDEX := 11; OUTPUT_WRITE_INDEX := 12;
          IS_REQUESTING_RTMIDI := 13; AVAIL_RTMIDI_EVENTS := 14;
          RTMIDI_INDEX := 15 |};
     MAX_CHANNELS := 2;
     MAX_HARDWARE_BUFFER_SIZE := 1024;
     MIDI_BUFFER_SIZE := 1024;
     MIDI_BUFFER_PAYLOAD_SIZE := 3;
     initialSharedState := [0; 0; 0; 0; 0; 0; 0; 512; 128; 0; 0; 0; 0; 0; 0; 0];
     stopableStates :=
       {[ "realtimePerformanceStarted"; "renderStarted";
          "realtimePerformancePaused"; "realtimePerformanceResumed" ]} |}.

(** An engine that produces silence and keeps a record of what it was
    asked: one output and one input channel at 44100 Hz, real-time MIDI
    requested, blocks of [blockSize] frames. *)
Record Recorder := {
  blockSize : Z;
  midiMessages : list (Z * Z * Z);
  blocks : nat;
  stops : nat;
  resets : nat;
}.

Definition engine : LibraryCsound :=
  {| Csound := Recorder;
     _isRequestingRtMidiInput := λ _, 1;
     csoundGetInputName := λ _, "adc";
     csoundGetNchnls := λ _, 1;
     csoundGetNchnlsInput := λ _, 1;
     csoundGetSr := λ _, 44100;
     csoundGetKsmps := blockSize;
     csoundGet0dBFS := λ _, 32768%float;
     csoundStop := λ c,
       {| blockSize := c.(blockSize); midiMessages := c.(midiMessages);
          blocks := c.(blocks); stops := S c.(stops); resets := c.(resets) |};
     csoundReset := λ c,
       (0, {| blockSize := c.(blockSize); midiMessages := []; blocks := 0;
              stops := 0; resets := S c.(resets) |});
     csoundPerformKsmps := λ c,
       (0, {| blockSize := c.(blockSize); midiMessages := c.(midiMessages);
              blocks := S c.(blocks); stops := c.(stops); resets := c.(resets) |});
     csoundPushMidiMessage := λ c status data1 data2,
       {| blockSize := c.(blockSize);
          midiMessages := c.(midiMessages) ++ [(status, data1, data2)];
          blocks := c.(blocks); stops := c.(stops); resets := c.(resets) |};
     spout := λ c, replicate (Z.to_nat c.(blockSize)) 0%float;
     spin_set := λ c _ _, c |}.

Definition created (ksmps : Z) : Recorder :=
  {| blockSize := ksmps; midiMessages := []; blocks := 0; stops := 0; resets := 0 |}.

(** No callback request is pending. *)
Definition no_requests : @SabWorkerUtils engine :=
  {| handleSABCallbacks := λ audioState requests c, (audioState, requests, c) |}.

(** An engine with two output channels and no input device, which does
    not request MIDI. *)
Definition stereo : LibraryCsound :=
  {| Csound := Recorder;
     _isRequestingRtMidiInput := λ _, 0;
     csoundGetInputName := λ _, "null";
     csoundGetNchnls := λ _, 2;
     csoundGetNchnlsInput := λ _, 2;
     csoundGetSr := λ _, 48000;
     csoundGetKsmps := blockSize;
     csoundGet0dBFS := λ _, 1%float;
     csoundStop := λ c,
       {| blockSize := c.(blockSize); midiMessages := c.(midiMessages);
          blocks := c.(blocks); stops := S c.(stops); resets := c.(resets) |};
     csoundReset := λ c,
       (0, {| blockSize := c.(blockSize); midiMessages := []; blocks := 0;
              stops := 0; resets := S c.(resets) |});
     csoundPerformKsmps := λ c,
       (0, {| blockSize := c.(blockSize); midiMessages := c.(midiMessages);
              blocks := S c.(blocks); stops := c.(stops); resets := c.(resets) |});
     csoundPushMidiMessage := λ c status data1 data2,
       {| blockSize := c.(blockSize);
          midiMessages := c.(midiMessages) ++ [(status, data1, data2)];
          blocks := c.(blocks); stops := c.(stops); resets := c.(resets) |};
     spout := λ c, replicate (Z.to_nat (2 * c.(blockSize))) 0.5%float;
     spin_set := λ c _ _, c |}.

Definition no_requests_stereo : @SabWorkerUtils stereo :=
  {| handleSABCallbacks := λ audioState requests c, (audioState, requests, c) |}.

End Scenario.

(** ** Observations *)

Section Observations.
Context `{LibraryCsound}.

(** A word of a shared array. *)
Definition word (r : Int32Array) (i : nat) (w : World) : option Z :=
  l ← contents r w; l !! i.

(** The array the host currently reads and writes. *)
Definition host_view (w : World) : Int32Array :=
  audioStateView w.(main).(audioStatePointer).

(** The world a computation leaves (the one it started in if it
    throws). *)
Definition after {A} (m : M A) (w : World) : World :=
  match m w with
  | Some (_, w') => w'
  | None => w
  end.

(** [m] leaves the words of [r] selected by [P] as they are. *)
Definition frames {A} (r : Int32Array) (P : nat → Prop) (m : M A) : Prop :=
  ∀ w a w', m w = Some (a, w') → ∀ j, P j → word r j w' = word r j w.

(** [m] only reads the world. *)
Definition reads {A} (m : M A) : Prop :=
  ∀ w a w', m w = Some (a, w') → w' = w.

(** Whatever [m] returns satisfies [Q]. *)
Definition yields {A} (Q : A → Prop) (m : M A) : Prop :=
  ∀ w a w', m w = Some (a, w') → Q a.

(** [m] always completes, and leaves the shared arrays, the engine and
    the host's reference to its audio-state array as they are; a promise
    that was resolved stays resolved. *)
Definition quiet {A} (m : M A) : Prop :=
  ∀ w, ∃ a w', m w = Some (a, w')
    ∧ w'.(sab) = w.(sab) ∧ w'.(midiBuffer) = w.(midiBuffer)
    ∧ w'.(csound) = w.(csound)
    ∧ w'.(main).(audioStatePointer) = w.(main).(audioStatePointer)
    ∧ resolved w ⊆ resolved w'.

(** [m] leaves what [f] observes of the world as it is. *)
Definition keeps {A B} (f : World → B) (m : M A) : Prop :=
  ∀ w a w', m w = Some (a, w') → f w' = f w.

(** [m] completes from [w], in a world and with a result that satisfy
    [Q]. *)
Definition runs {A} (m : M A) (Q : A → World → Prop) (w : World) : Prop :=
  ∃ a w', m w = Some (a, w') ∧ Q a w'.

(** [v'] has the MIDI buffer, the engine, the host's reference to its
    audio-state array and the registered callbacks of [v]. *)
Definition same_host (v v' : World) : Prop :=
  v'.(midiBuffer) = v.(midiBuffer) ∧ v'.(csound) = v.(csound)
  ∧ v'.(main).(audioStatePointer) = v.(main).(audioStatePointer)
  ∧ v'.(main).(csoundPlayStateChangeCallbacks) = v.(main).(csoundPlayStateChangeCallbacks).

End Observations.

(** [handleSABCallbacks] leaves the words [fields] of the audio state as
    they are. *)
Definition callbacks_keep `{LibraryCsound} `{!SabWorkerUtils} (fields : list nat) : Prop :=
  ∀ (l requests : list Z) (c : Csound) (j : nat),
    j ∈ fields → (handleSABCallbacks l requests c).1.1 !! j = l !! j.

(** ** Runs of the concrete machine *)

Module Run.

#[local] Existing Instance Scenario.table.
#[local] Existing Instance Scenario.engine.
#[local] Existing Instance Scenario.no_requests.

(** The variables of a thread that was never started. *)
Definition idle : Worker.Thread :=
  {| Worker.audioStatePointer := audioStateView 0%nat;
     Worker.isRequestingRtMidiInput := 0;
     Worker.nchnls := 0; Worker.nchnlsInput := 0; Worker.ksmps := 0;
     Worker.zeroDecibelFullScale := 0%float; Worker._B := 0; Worker._b := 0;
     Worker.channelsOutput := []; Worker.channelsInput := [];
     Worker.lastReturn := 0; Worker.performanceEnded := false;
     Worker.firstRound := true |}.

(** [start()]: the call on the host and, in the worker, the thread
    function up to its broadcast. The host has not yet seen the
    broadcast. *)
Definition start (w : World) : Worker.Thread * World :=
  match Main.csoundStart w with
  | Some (inr (args, _), w') =>
      default (idle, w') (Worker.sabCreateRealtimeAudioThread args w')
  | _ => (idle, w)
  end.

(** One pass of the thread through its loop. *)
Definition wake (s : Worker.Thread * World) : Worker.Thread * World :=
  match Worker.wake s.1 s.2 with
  | Some (Worker.thread_loops t, w) => (t, w)
  | Some (_, w) => (s.1, w)
  | None => s
  end.

(** The host alone. *)
Definition host {A} (m : M A) (s : Worker.Thread * World) : Worker.Thread * World :=
  (s.1, after m s.2).

(** The host constructed over an engine of [ksmps]-frame blocks, then
    [initialize()]. *)
Definition initialized (ksmps : Z) : World :=
  after (Main.initialize 1) (Main.constructor (Scenario.created ksmps)).

(** The first [start()] after [initialize()]. *)
Definition started : Worker.Thread * World := start (initialized 32).

(** The host has processed the broadcast of the start. *)
Definition performing : Worker.Thread * World :=
  host (Main.onPlayStateChange "realtimePerformanceStarted") started.

(** [pause()] during the performance. *)
Definition paused : Worker.Thread * World := host Main.csoundPause performing.

(** [pause()] called before the host has processed the broadcast of the
    start, which it then processes. *)
Definition paused_early : Worker.Thread * World :=
  host (Main.onPlayStateChange "realtimePerformanceStarted")
    (host Main.csoundPause started).

(** Three MIDI messages arrive before the thread wakes. *)
Definition three_messages : Worker.Thread * World :=
  host (Main.handleMidiInput 176 7 64)
    (host (Main.handleMidiInput 128 60 0)
       (host (Main.handleMidiInput 144 60 100) performing)).

(** [n] messages arrive and none is consumed. *)
Definition flooded (n : nat) : Worker.Thread * World :=
  Nat.iter n (host (Main.handleMidiInput 144 60 100)) performing.

(** A performance with one MIDI message and one wake, from a world in
    which the host is initialized. *)
Definition performance (w : World) : Worker.Thread * World :=
  wake (host (Main.handleMidiInput 144 60 100)
          (host (Main.onPlayStateChange "realtimePerformanceStarted") (start w))).

(** The audio backend has put [n] frames of input into the ring. *)
Definition supplied (n : Z) : Worker.Thread * World :=
  host (Atomics_add performing.1.(Worker.audioStatePointer)
          AUDIO_STATE.(AVAIL_IN_BUFS) n) performing.

(** [stop()] during the pause. *)
Definition stopping : Worker.Thread * World := host Main.csoundStop paused.

(** [reset()] right after [initialize()]. *)
Definition reset : World := after Main.csoundReset (initialized 32).

(** The host has processed the broadcast of the start of a render. *)
Definition rendering : World :=
  after (Main.onPlayStateChange "renderStarted") (initialized 32).

(** A callback is registered during the performance. *)
Definition listening : World :=
  after (Main.setCsoundPlayStateChangeCallback (Main.function 7%nat)) performing.2.

End Run.

(** ** Runs of the machine with the stereo engine *)

Module Stereo.

#[local] Existing Instance Scenario.table.
#[local] Existing Instance Scenario.stereo.
#[local] Existing Instance Scenario.no_requests_stereo.

Definition initialized : World :=
  after (Main.initialize 1) (Main.constructor (Scenario.created 32)).

(** The first [start()] after [initialize()], up to the broadcast of the
    worker. *)
Definition started : option (Worker.Thread * World) :=
  Worker.sabCreateRealtimeAudioThread
    {| Main.args_audioStateBuffer := 0%nat; Main.args_csound := 1 |}
    (after Main.csoundStart initialized).

End Stereo.

(** ** Facts about the machine *)

Lemma ToInt32_int32 z : int32 (ToInt32 z).
Proof. unfold int32, ToInt32. pose proof (Z.mod_pos_bound (z + 2 ^ 31) (2 ^ 32)). lia. Qed.

Lemma ToInt32_id z : int32 z → ToInt32 z = z.
Proof. unfold int32, ToInt32. intros ?. rewrite Z.mod_small; lia. Qed.

Lemma fmap_ToInt32_id (l : list Z) : Forall int32 l → ToInt32 <$> l = l.
Proof.
  induction 1 as [|v l Hv _ IH]; [done|].
  rewrite fmap_cons. by rewrite ToInt32_id, IH.
Qed.

Section Facts.
Context `{LibraryCsound}.

Lemma bind_Some {A B} (m : M A) (k : A → M B) w b w' :
  (m ≫= k) w = Some (b, w') ↔ ∃ a w1, m w = Some (a, w1) ∧ k a w1 = Some (b, w').
Proof.
  unfold mbind, M_bind. split.
  - destruct (m w) as [[a w1]|]; [eauto | discriminate].
  - intros (a & w1 & -> & ?). done.
Qed.

Lemma bind_run {A B} (m : M A) (k : A → M B) w a w1 :
  m w = Some (a, w1) → (m ≫= k) w = k a w1.
Proof. unfold mbind, M_bind. by intros ->. Qed.

Lemma ret_Some {A} (a b : A) (w w' : World) :
  (mret a : M A) w = Some (b, w') ↔ b = a ∧ w' = w.
Proof. unfold mret, M_ret. split; [by intros [= -> ->] | by intros [-> ->]]. Qed.

Lemma contents_set_contents r l w :
  is_Some (contents r w) → contents r (set_contents r l w) = Some l.
Proof.
  destruct r as [a|]; simpl; [|done].
  intros [l0 Hl0]. apply list_lookup_insert_eq. by eapply lookup_lt_Some.
Qed.

Lemma word_set_contents r l w j :
  is_Some (contents r w) → word r j (set_contents r l w) = l !! j.
Proof. intros ?. unfold word. by rewrite contents_set_contents. Qed.

Lemma Atomics_load_Some r i w v w' :
  Atomics_load r i w = Some (v, w') ↔ w' = w ∧ word r i w = Some v.
Proof.
  unfold Atomics_load, word. destruct (contents r w) as [l|]; simpl.
  - destruct (l !! i); simpl; split; try (intros [= -> ->]; done);
      intros [-> [=]]; by subst.
  - split; [done | by intros [_ ?]].
Qed.

Lemma Atomics_store_Some r i v w u w' :
  Atomics_store r i v w = Some (u, w') ↔
  ∃ l, contents r w = Some l ∧ (i < length l)%nat
       ∧ w' = set_contents r (<[i := ToInt32 v]> l) w.
Proof.
  unfold Atomics_store. destruct (contents r w) as [l|]; simpl.
  - destruct (decide (i < length l)%nat); split.
    + intros [= <-]. eauto.
    + intros (? & [= <-] & _ & ->). by destruct u.
    + done.
    + intros (? & [= <-] & ? & _). lia.
  - split; [done | by intros (? & ? & _)].
Qed.

Lemma Atomics_add_Some r i v w old w' :
  Atomics_add r i v w = Some (old, w') ↔
  ∃ l, contents r w = Some l ∧ l !! i = Some old
       ∧ w' = set_contents r (<[i := ToInt32 (old + v)]> l) w.
Proof.
  unfold Atomics_add. destruct (contents r w) as [l|]; simpl.
  - destruct (l !! i) as [x|] eqn:Hx; simpl; split.
    + intros [= -> <-]. eauto.
    + intros (? & [= <-] & Hold & ->). by simplify_eq.
    + done.
    + intros (? & [= <-] & ? & _). congruence.
  - split; [done | by intros (? & ? & _)].
Qed.

Lemma Atomics_sub_Some r i v w old w' :
  Atomics_sub r i v w = Some (old, w') ↔
  ∃ l, contents r w = Some l ∧ l !! i = Some old
       ∧ w' = set_contents r (<[i := ToInt32 (old - v)]> l) w.
Proof.
  unfold Atomics_sub. destruct (contents r w) as [l|]; simpl.
  - destruct (l !! i) as [x|] eqn:Hx; simpl; split.
    + intros [= -> <-]. eauto.
    + intros (? & [= <-] & Hold & ->). by simplify_eq.
    + done.
    + intros (? & [= <-] & ? & _). congruence.
  - split; [done | by intros (? & ? & _)].
Qed.

End Facts.

Section StoreTemplate.
Context `{LibraryCsound}.

Lemma set_contents_twice r l1 l2 (w : World) :
  set_contents r l2 (set_contents r l1 w) = set_contents r l2 w.
Proof.
  destruct r as [a|]; unfold set_contents, set_sab, set_midiBuffer; simpl; [|done].
  by rewrite list_insert_insert_eq.
Qed.

Lemma set_contents_same r l (w : World) :
  contents r w = Some l → set_contents r l w = w.
Proof.
  destruct r as [a|]; unfold set_contents, set_sab, set_midiBuffer; simpl.
  - intros Hl. rewrite list_insert_id by done. by destruct w.
  - intros [= <-]. by destruct w.
Qed.

Lemma main_set_contents r l (w : World) : (set_contents r l w).(main) = w.(main).
Proof. by destruct r. Qed.

Lemma host_view_set_contents r l (w : World) :
  host_view (set_contents r l w) = host_view w.
Proof. by destruct r. Qed.

(** Storing a list of values at consecutive indices from [k] on, as the
    [forEach] over [initialSharedState] does from 0. *)
Lemma store_values_run (view : World → Int32Array) (values : list Z) :
  (∀ r l w, view (set_contents r l w) = view w) →
  ∀ (k : nat) (l : list Z) (w : World),
    contents (view w) w = Some l →
    (k + length values ≤ length l)%nat →
    for_each (imap (λ index value, ((k + index)%nat, value)) values)
      (λ '(index, value) _, p ← gets view; Atomics_store p index value) () w
    = Some ((), set_contents (view w)
                  (take k l ++ (ToInt32 <$> values) ++ drop (k + length values) l) w).
Proof.
  intros Hview. induction values as [|v values IH]; intros k l w Hl Hlen.
  - simpl. rewrite Nat.add_0_r, take_drop. by rewrite set_contents_same.
  - rewrite imap_cons. simpl in *.
    rewrite (bind_run _ _ w () (set_contents (view w) (<[k := ToInt32 v]> l) w)).
    2:{ rewrite (bind_run (gets view) _ w (view w) w eq_refl).
        apply Atomics_store_Some. exists l. rewrite Nat.add_0_r. repeat split; [done|lia]. }
    rewrite (imap_ext _ (λ index value, ((S k + index)%nat, value))).
    2:{ intros i x _. simpl. f_equal. lia. }
    rewrite (IH (S k) (<[k := ToInt32 v]> l)).
    + rewrite Hview, set_contents_twice. do 2 f_equal. f_equal.
      rewrite (take_S_r _ _ (ToInt32 v)) by (apply list_lookup_insert_eq; lia).
      rewrite take_insert_ge by lia. rewrite <- app_assoc. simpl.
      do 3 f_equal. rewrite drop_insert_lt by lia. f_equal. lia.
    + rewrite Hview. apply contents_set_contents. by rewrite Hl.
    + rewrite length_insert. lia.
Qed.

Lemma for_each_emit_run {A} (l : list A) (f : A → Event) (w : World) :
  for_each l (λ a _, emit (f a)) () w = Some ((), set_trace (w.(trace) ++ (f <$> l)) w).
Proof.
  revert w. induction l as [|a l IH]; intros w; simpl.
  - rewrite app_nil_r. by destruct w.
  - rewrite (bind_run _ _ w () (set_trace (w.(trace) ++ [f a]) w) eq_refl).
    rewrite IH. simpl. unfold set_trace; simpl. by rewrite <- app_assoc.
Qed.

End StoreTemplate.


Section HostFacts.
Context `{Constants} `{LibraryCsound}.

Lemma Atomics_load_run r i w v :
  word r i w = Some v → Atomics_load r i w = Some (v, w).
Proof. intros ?. by apply Atomics_load_Some. Qed.

(** C2. A call of [stop()] made while the current play state is not in
    the stopable set returns -1 at once and changes nothing: not a word
    of the audio state (so not [STOP], [IS_PAUSED] or [IS_PERFORMING]),
    and nothing else of the machine either. *)
Theorem csoundStop_not_stopable (w : World) :
  has stopableStates w.(main).(currentPlayState) = false →
  Main.csoundStop w = Some (returns (-1), w).
Proof.
  intros Hstate. unfold Main.csoundStop.
  rewrite (bind_run Main.this _ w w.(main) w eq_refl).
  by rewrite Hstate.
Qed.

(** C10. When the guard of [csoundPause] fails ([IS_PAUSED] is 1, or
    [STOP] is 1, or [IS_PERFORMING] is not 1) the call completes with
    [undefined] and the machine is as before: no word of the audio state
    is written and no play-state change goes out. The same holds for
    [csoundResume] when its guard fails ([IS_PAUSED] is 0, or [STOP] is 1,
    or [IS_PERFORMING] is not 1). *)
Theorem csoundPause_csoundResume_guard_fails (w : World) (paused stop performing : Z) :
  word (host_view w) AUDIO_STATE.(IS_PAUSED) w = Some paused →
  word (host_view w) AUDIO_STATE.(STOP) w = Some stop →
  word (host_view w) AUDIO_STATE.(IS_PERFORMING) w = Some performing →
  (paused = 1 ∨ stop = 1 ∨ performing ≠ 1 → Main.csoundPause w = Some ((), w))
  ∧ (paused = 0 ∨ stop = 1 ∨ performing ≠ 1 → Main.csoundResume w = Some ((), w)).
Proof.
  intros Hp Hs Hf.
  apply Atomics_load_run in Hp, Hs, Hf.
  split; intros Hguard.
  - unfold Main.csoundPause, and_then.
    rewrite (bind_run Main.this_audioStatePointer _ w (host_view w) w eq_refl).
    unfold mbind, M_bind, mret, M_ret. rewrite Hp.
    destruct (paused =? 1) eqn:E1; simpl; [done|].
    rewrite Hs. destruct (stop =? 1) eqn:E2; simpl; [done|].
    rewrite Hf. destruct (performing =? 1) eqn:E3; simpl; [lia|done].
  - unfold Main.csoundResume, and_then.
    rewrite (bind_run Main.this_audioStatePointer _ w (host_view w) w eq_refl).
    unfold mbind, M_bind, mret, M_ret. rewrite Hp.
    destruct (paused =? 1) eqn:E1; simpl; [|done].
    rewrite Hs. destruct (stop =? 1) eqn:E2; simpl; [done|].
    rewrite Hf. destruct (performing =? 1) eqn:E3; simpl; [lia|done].
Qed.

End HostFacts.

Section Quiet.
Context `{Constants} `{LibraryCsound}.

Lemma quiet_ret {A} (a : A) : quiet (mret a).
Proof. intros w. by exists a, w. Qed.

Lemma quiet_bind {A B} (m : M A) (k : A → M B) :
  quiet m → (∀ a, quiet (k a)) → quiet (m ≫= k).
Proof.
  intros Hm Hk w. destruct (Hm w) as (a & w1 & Hrun & ? & ? & ? & ? & ?).
  destruct (Hk a w1) as (b & w2 & Hrun2 & ? & ? & ? & ? & ?).
  exists b, w2. rewrite (bind_run _ _ _ _ _ Hrun).
  repeat split; try congruence. set_solver.
Qed.

Lemma quiet_gets {A} (f : World → A) : quiet (gets f).
Proof. intros w. by exists (f w), w. Qed.

Lemma quiet_emit e : quiet (emit e).
Proof. intros w. by eexists _, _. Qed.

Lemma quiet_resolve p : quiet (Main.resolve p).
Proof. intros w. eexists _, _. repeat split; try done. simpl. set_solver. Qed.

Lemma quiet_set_currentPlayState s : quiet (Main.set_currentPlayState s).
Proof. intros w. by eexists _, _. Qed.

Lemma quiet_set_startPromiz p : quiet (Main.set_startPromiz p).
Proof. intros w. by eexists _, _. Qed.

Lemma quiet_set_stopPromiz p : quiet (Main.set_stopPromiz p).
Proof. intros w. by eexists _, _. Qed.

Lemma quiet_for_each {A} (l : list A) (body : A → () → M ()) :
  (∀ a, quiet (body a ())) → quiet (for_each l body ()).
Proof.
  intros Hbody. induction l as [|a l IH]; simpl; [apply quiet_ret|].
  apply quiet_bind; [done | by intros []].
Qed.

Lemma quiet_settle_stopPromiz : quiet Main.settle_stopPromiz.
Proof.
  apply quiet_bind; [apply quiet_gets | intros h].
  destruct (stopPromiz h); [|apply quiet_ret].
  apply quiet_bind; [apply quiet_resolve | intros; apply quiet_set_stopPromiz].
Qed.

(** What [onPlayStateChange] does after its [switch]. *)
Lemma quiet_forwarding (newPlayState : string) :
  quiet (emit (audioWorker_onPlayStateChange newPlayState);;
         h ← Main.this;
         match h.(startPromiz) with
         | Some p =>
             if decide (newPlayState = "realtimePerformanceStarted") then mret ()
             else Main.resolve p;; Main.set_startPromiz None
         | None => mret ()
         end;;
         h ← Main.this;
         for_each h.(csoundPlayStateChangeCallbacks)
           (λ callback _, emit (playStateChangeCallback callback newPlayState)) ()).
Proof.
  apply quiet_bind; [apply quiet_emit | intros _].
  apply quiet_bind; [apply quiet_gets | intros h].
  apply quiet_bind.
  - destruct (startPromiz h); [|apply quiet_ret].
    case_decide; [apply quiet_ret|].
    apply quiet_bind; [apply quiet_resolve | intros; apply quiet_set_startPromiz].
  - intros _. apply quiet_bind; [apply quiet_gets | intros h'].
    apply quiet_for_each. intros ?. apply quiet_emit.
Qed.

Lemma settle_stopPromiz_resolves (w : World) :
  ∃ w', Main.settle_stopPromiz w = Some ((), w')
    ∧ w'.(sab) = w.(sab)
    ∧ w'.(main).(audioStatePointer) = w.(main).(audioStatePointer)
    ∧ (∀ p, w.(main).(stopPromiz) = Some p → p ∈ resolved w').
Proof.
  destruct (quiet_settle_stopPromiz w) as ([] & w' & Hrun & ? & _ & _ & ? & _).
  exists w'. repeat split; try done.
  intros p Hp. revert Hrun. unfold Main.settle_stopPromiz.
  rewrite (bind_run Main.this _ w w.(main) w eq_refl), Hp.
  intros [= <-]. simpl. set_solver.
Qed.


(** The host processing [renderEnded]: the pending [stop()] is
    resolved. *)
Lemma onPlayStateChange_renderEnded (w : World) :
  ∃ w', Main.onPlayStateChange "renderEnded" w = Some ((), w')
    ∧ (∀ p, w.(main).(stopPromiz) = Some p → p ∈ resolved w').
Proof.
  unfold Main.onPlayStateChange.
  destruct (quiet_set_currentPlayState (Some "renderEnded") w)
    as ([] & w1 & Hrun1 & Hsab1 & _ & _ & Hptr1 & _).
  assert (Hstop1 : w1.(main).(stopPromiz) = w.(main).(stopPromiz)).
  { revert Hrun1. by intros [= <-]. }
  rewrite (bind_run _ _ _ _ _ Hrun1).
  do 5 (case_decide; [done|]). case_decide; [|done].
  destruct (settle_stopPromiz_resolves w1) as (w2 & Hrun2 & Hsab2 & Hptr2 & Hres2).
  destruct (quiet_emit (trigger "RenderEnded") w2)
    as ([] & w3 & Hrun3 & Hsab3 & _ & _ & Hptr3 & Hres3).
  destruct (quiet_forwarding "renderEnded" w3)
    as ([] & w5 & Hrun5 & Hsab5 & _ & _ & Hptr5 & Hres5).
  exists w5. split.
  - rewrite (bind_run _ _ w1 () w3); [exact Hrun5|].
    by rewrite (bind_run _ _ _ _ _ Hrun2).
  - intros p Hp. apply Hres5, Hres3, Hres2. congruence.
Qed.


End Quiet.

(** ** The table of indices *)

Lemma nodup_ne {A} (l : list A) (i j : nat) (a b : A) :
  NoDup l → l !! i = Some a → l !! j = Some b → i ≠ j → a ≠ b.
Proof. intros Hnd Hi Hj Hij ->. apply Hij. by eapply NoDup_lookup. Qed.

Lemma Forall_at {A} (P : A → Prop) (l : list A) (i : nat) (a : A) :
  Forall P l → l !! i = Some a → P a.
Proof. intros HP Hi. by eapply Forall_lookup_1. Qed.

(** [distinct i j]: the fields at positions [i] and [j] of
    [audio_state_fields] are different words. *)
Ltac distinct i j :=
  match goal with
  | Hnd : NoDup (audio_state_fields _) |- _ =>
      apply (nodup_ne _ i j _ _ Hnd); [reflexivity | reflexivity | lia]
  end.

(** [in_table n]: the field at position [n] of the range hypothesis lies
    inside the template. *)
Ltac in_table n :=
  match goal with
  | Hin : Forall _ (_ :: audio_state_fields _) |- _ =>
      apply (Forall_at _ _ n _ Hin); reflexivity
  end.

Section Stop.
Context `{Constants} `{LibraryCsound}.

Lemma Atomics_store_run r i v (w : World) l :
  contents r w = Some l → (i < length l)%nat →
  Atomics_store r i v w = Some ((), set_contents r (<[i := ToInt32 v]> l) w).
Proof. intros. apply Atomics_store_Some. eauto. Qed.

Lemma Atomics_notify_run r i (w : World) v :
  word r i w = Some v →
  Atomics_notify r i w = Some ((), set_trace (w.(trace) ++ [notify r i]) w).
Proof.
  intros Hw. unfold Atomics_notify.
  by rewrite (bind_run _ _ _ _ _ (Atomics_load_run r i w v Hw)).
Qed.

Lemma store_notify_run view i j v (w : World) l :
  contents view w = Some l → (i < length l)%nat → (j < length l)%nat →
  (Atomics_store view i v;; Atomics_notify view j) w
  = Some ((), set_trace (w.(trace) ++ [notify view j])
                (set_contents view (<[i := ToInt32 v]> l) w)).
Proof.
  intros Hl Hi Hj.
  rewrite (bind_run _ _ _ _ _ (Atomics_store_run view i v w l Hl Hi)).
  destruct (lookup_lt_is_Some_2 (<[i := ToInt32 v]> l) j) as [x Hx];
    [by rewrite length_insert|].
  rewrite (Atomics_notify_run view j _ x).
  - f_equal. f_equal. by destruct view.
  - by rewrite word_set_contents by (by rewrite Hl).
Qed.

Lemma word_set_trace view j t (w : World) : word view j (set_trace t w) = word view j w.
Proof. by destruct view. Qed.

(** X10. [reset()] gives the host a fresh audio-state array, and the
    [start()] that follows still hands the worker the array bound at
    [initialize()]: from then on the two do not share their audio
    state. *)
Lemma csoundReset_then_csoundStart (w : World) (instance : Z) :
  has stopableStates w.(main).(currentPlayState) = false →
  w.(main).(csoundInstance) = Some instance →
  instance ≠ 0 →
  (w.(main).(audioStateBuffer) < length w.(sab))%nat →
  ∃ resetResult w1 startPromise w2,
    Main.csoundReset w = Some (inr resetResult, w1)
    ∧ Main.csoundStart w1
      = Some (inr ({| Main.args_audioStateBuffer := w.(main).(audioStateBuffer);
                      Main.args_csound := instance |}, startPromise), w2)
    ∧ w2.(main).(audioStatePointer) = length w.(sab)
    ∧ w2.(main).(audioStatePointer) ≠ w.(main).(audioStateBuffer).
Proof.
  intros Hstate Hinstance Hne Hbound.
  destruct (csoundReset w.(csound)) as [resetResult engine] eqn:Hreset.
  assert (Hproxy : Main.proxyCallback_csoundReset w
                   = Some (resetResult, set_csound engine w)).
  { unfold Main.proxyCallback_csoundReset. by rewrite Hreset. }
  exists resetResult.
  eexists. eexists. eexists. split; [|split].
  - unfold Main.csoundReset, Main.csoundReset_resume.
    rewrite (bind_run Main.this _ w w.(main) w eq_refl), Hstate.
    rewrite (bind_run _ _ w _ _
               (bind_run _ _ w _ _ Hproxy)).
    reflexivity.
  - unfold Main.csoundStart.
    match goal with
    | |- (Main.this ≫= ?k) ?w1 = _ =>
        rewrite (bind_run Main.this k w1 w1.(main) w1 eq_refl)
    end.
    simpl. rewrite Hinstance.
    destruct (Z.eqb_spec instance 0); [done|]. reflexivity.
  - simpl. split; [done | lia].
Qed.

End Stop.

(** ** What a computation leaves alone *)

Section Frames.
Context `{LibraryCsound}.
Variables (r : Int32Array) (P : nat → Prop).

Lemma frames_ret {A} (a : A) : frames r P (mret a).
Proof. intros w b w' [-> ->]%ret_Some. done. Qed.

Lemma frames_bind {A B} (m : M A) (k : A → M B) :
  frames r P m → (∀ a, frames r P (k a)) → frames r P (m ≫= k).
Proof.
  intros Hm Hk w b w' (a & w1 & H1 & H2)%bind_Some j Hj.
  rewrite (Hk _ _ _ _ H2 j Hj). by apply (Hm _ _ _ H1).
Qed.

Lemma frames_RangeError {A} : frames r P (RangeError : M A).
Proof. by intros w a w'. Qed.

Lemma frames_gets {A} (f : World → A) : frames r P (gets f).
Proof. by intros w a w' [= _ <-]. Qed.

Lemma frames_modify (f : World → World) :
  (∀ w, contents r (f w) = contents r w) → frames r P (modify f).
Proof.
  intros Hf w a w' Hrun j _.
  assert (w' = f w) as -> by (injection Hrun; congruence).
  unfold word. by rewrite Hf.
Qed.

Lemma frames_emit e : frames r P (emit e).
Proof. apply frames_modify. intros w. by destruct r. Qed.

Lemma frames_ToIndex i : frames r P (ToIndex i).
Proof.
  unfold ToIndex. destruct (_ <? 0); [apply frames_RangeError | apply frames_ret].
Qed.

Lemma frames_load r' i : frames r P (Atomics_load r' i).
Proof. by intros w v w' [-> _]%Atomics_load_Some. Qed.

Lemma frames_store i v : (∀ j, P j → j ≠ i) → frames r P (Atomics_store r i v).
Proof.
  intros Hi w u w' (l & Hl & _ & ->)%Atomics_store_Some j Hj.
  rewrite word_set_contents by (by rewrite Hl).
  unfold word. rewrite Hl. simpl. apply list_lookup_insert_ne. by intros <-; eapply Hi.
Qed.

Lemma frames_add i v : (∀ j, P j → j ≠ i) → frames r P (Atomics_add r i v).
Proof.
  intros Hi w u w' (l & Hl & _ & ->)%Atomics_add_Some j Hj.
  rewrite word_set_contents by (by rewrite Hl).
  unfold word. rewrite Hl. simpl. apply list_lookup_insert_ne. by intros <-; eapply Hi.
Qed.

Lemma frames_sub i v : (∀ j, P j → j ≠ i) → frames r P (Atomics_sub r i v).
Proof.
  intros Hi w u w' (l & Hl & _ & ->)%Atomics_sub_Some j Hj.
  rewrite word_set_contents by (by rewrite Hl).
  unfold word. rewrite Hl. simpl. apply list_lookup_insert_ne. by intros <-; eapply Hi.
Qed.

Lemma frames_for_each {A X} (l : list A) (body : A → X → M X) (x : X) :
  (∀ a x, frames r P (body a x)) → frames r P (for_each l body x).
Proof.
  intros Hbody. revert x. induction l as [|a l IH]; intros x; simpl.
  - apply frames_ret.
  - apply frames_bind; [apply Hbody | apply IH].
Qed.

Lemma frames_for_each_inv {A X} (I : X → Prop) (l : list A) (body : A → X → M X) (x : X) :
  (∀ a x, I x → frames r P (body a x)) →
  (∀ a x, I x → yields I (body a x)) →
  I x → frames r P (for_each l body x).
Proof.
  intros Hbody Hinv. revert x. induction l as [|a l IH]; intros x Hx; simpl.
  - apply frames_ret.
  - intros w b w' (x' & w1 & H1 & H2)%bind_Some j Hj.
    rewrite (IH x' (Hinv _ _ Hx _ _ _ H1) _ _ _ H2 j Hj).
    by apply (Hbody _ _ Hx _ _ _ H1).
Qed.

Lemma yields_ret {A} (Q : A → Prop) (a : A) : Q a → yields Q (mret a).
Proof. by intros HQ w b w' [-> _]%ret_Some. Qed.

Lemma yields_bind {A B} (Q : B → Prop) (m : M A) (k : A → M B) :
  (∀ a, yields Q (k a)) → yields Q (m ≫= k).
Proof. intros Hk w b w' (a & w1 & _ & H2)%bind_Some. by eapply Hk. Qed.

Lemma yields_bind_with {A B} (R : A → Prop) (Q : B → Prop) (m : M A) (k : A → M B) :
  yields R m → (∀ a, R a → yields Q (k a)) → yields Q (m ≫= k).
Proof.
  intros Hm Hk w b w' (a & w1 & H1 & H2)%bind_Some.
  eapply Hk; [by eapply Hm | done].
Qed.

Lemma yields_for_each {A X} (I : X → Prop) (l : list A) (body : A → X → M X) (x : X) :
  (∀ a x, I x → yields I (body a x)) → I x → yields I (for_each l body x).
Proof.
  intros Hinv. revert x. induction l as [|a l IH]; intros x Hx; simpl.
  - by apply yields_ret.
  - eapply yields_bind_with; [by apply Hinv | apply IH].
Qed.

Lemma yields_for_each_last {A X} (Q : X → Prop) (l : list A) (a : A)
    (body : A → X → M X) (x : X) :
  (∀ x, yields Q (body a x)) → yields Q (for_each (l ++ [a]) body x).
Proof.
  intros Hlast. revert x. induction l as [|b l IH]; intros x; simpl.
  - apply yields_bind_with with (R := Q); [apply Hlast | intros; by apply yields_ret].
  - apply yields_bind. intros x'. apply IH.
Qed.

Lemma reads_ret {A} (a : A) : reads (mret a).
Proof. by intros w b w' [_ ->]%ret_Some. Qed.

Lemma reads_bind {A B} (m : M A) (k : A → M B) :
  reads m → (∀ a, reads (k a)) → reads (m ≫= k).
Proof.
  intros Hm Hk w b w' (a & w1 & H1 & H2)%bind_Some.
  apply Hm in H1 as ->. by eapply Hk.
Qed.

Lemma reads_load r' i : reads (Atomics_load r' i).
Proof. by intros w v w' [-> _]%Atomics_load_Some. Qed.

Lemma reads_wait r' i v : reads (Atomics_wait r' i v).
Proof. apply reads_bind; [apply reads_load | intros ?; apply reads_ret]. Qed.

Lemma reads_or_else (a b : M bool) : reads a → reads b → reads (a ||| b).
Proof.
  intros Ha Hb. apply reads_bind; [done | intros []]; [apply reads_ret | done].
Qed.

End Frames.

(** [frames_step] takes a computation apart along its structure. *)
Ltac frames_step :=
  lazymatch goal with
  | |- frames _ _ (mret _) => apply frames_ret
  | |- frames _ _ RangeError => apply frames_RangeError
  | |- frames _ _ (gets _) => apply frames_gets
  | |- frames _ _ (emit _) => apply frames_emit
  | |- frames _ _ (ToIndex _) => apply frames_ToIndex
  | |- frames _ _ (Atomics_load _ _) => apply frames_load
  | |- frames _ _ (for_each _ _ _) => apply frames_for_each; intros ? ?
  | |- frames _ _ (mbind _ _) => apply frames_bind; [|intros ?]
  | |- frames _ _ (if ?b then _ else _) => destruct b
  | |- frames _ _ (match ?x with _ => _ end) => destruct x
  | |- frames _ _ ((match ?x with _ => _ end) _) => destruct x
  | |- frames _ _ (let _ := _ in _) => cbv zeta
  end.

Section WorkerFrames.
Context `{Constants} `{LibraryCsound} `{!SabWorkerUtils}.

Lemma frames_libraryCsound_call r P {A} (f : Csound → A * Csound) :
  frames r P (Worker.libraryCsound_call f).
Proof.
  intros w a w' Hrun j _. unfold Worker.libraryCsound_call in Hrun.
  destruct (f _) as [a' c]. injection Hrun as <- <-. by destruct r.
Qed.

Lemma frames_set_csound r P (f : World → Csound) :
  frames r P (modify (λ w, set_csound (f w) w)).
Proof. apply frames_modify. intros w. by destruct r. Qed.

Lemma frames_channelsOutput_set r P channel i x :
  frames r P (Worker.channelsOutput_set channel i x).
Proof.
  unfold Worker.channelsOutput_set. destruct (Worker.element _ _); [|apply frames_ret].
  apply frames_modify. intros w. by destruct r.
Qed.

Lemma frames_csoundInputBuffer_set r P n i x :
  frames r P (Worker.csoundInputBuffer_set n i x).
Proof.
  unfold Worker.csoundInputBuffer_set. destruct i; [apply frames_ret|].
  destruct (_ && _); [apply frames_set_csound | apply frames_ret].
Qed.

(** The MIDI events are delivered without touching any word but the
    two of the MIDI queue. *)
Lemma frames_rtmidi (P : nat → Prop) (t : Worker.Thread) :
  (∀ j, P j → j ≠ AUDIO_STATE.(RTMIDI_INDEX) ∧ j ≠ AUDIO_STATE.(AVAIL_RTMIDI_EVENTS)) →
  frames t.(Worker.audioStatePointer) P (Worker.rtmidi t).
Proof.
  intros HP. unfold Worker.rtmidi. cbv zeta.
  repeat first
    [ apply frames_set_csound
    | apply frames_store; intros j Hj; by apply HP
    | apply frames_sub; intros j Hj; by apply HP
    | frames_step ].
Qed.

(** The frames are copied without touching any word but the two
    cursors. *)
Lemma frames_frame (P : nat → Prop) (t : Worker.Thread) hasInput iri owi i :
  (∀ j, P j → j ≠ AUDIO_STATE.(INPUT_READ_INDEX) ∧ j ≠ AUDIO_STATE.(OUTPUT_WRITE_INDEX)) →
  frames t.(Worker.audioStatePointer) P (Worker.frame hasInput iri owi i t).
Proof.
  intros HP.
  unfold Worker.frame, Worker.csoundOutputBuffer_get, Worker.channelsInput_get.
  cbv zeta.
  repeat first
    [ apply frames_libraryCsound_call
    | apply frames_channelsOutput_set
    | apply frames_csoundInputBuffer_set
    | apply frames_store; intros j Hj; by apply HP
    | apply frames_add; intros j Hj; by apply HP
    | frames_step ].
Qed.

(** A frame leaves the constants of the thread as they are. *)
Lemma yields_frame (t : Worker.Thread) hasInput iri owi i :
  yields (λ t', t'.(Worker.audioStatePointer) = t.(Worker.audioStatePointer)
                ∧ t'.(Worker._b) = t.(Worker._b))
    (Worker.frame hasInput iri owi i t).
Proof.
  unfold Worker.frame. cbv zeta.
  set (Q := λ t' : Worker.Thread,
              t'.(Worker.audioStatePointer) = t.(Worker.audioStatePointer)
              ∧ t'.(Worker._b) = t.(Worker._b)).
  apply (yields_bind_with Q Q).
  - destruct (_ && _); [|by apply yields_ret].
    destruct (_ =? 0); [|by apply yields_ret].
    apply yields_bind. intros ?. by apply yields_ret.
  - intros t' Ht'. repeat (apply yields_bind; intros ?). by apply yields_ret.
Qed.

(** The [for] loop over the frames leaves every word but the two
    cursors, and the constants of the thread. *)
Lemma frames_frame_loop (P : nat → Prop) (t : Worker.Thread) hasInput iri owi l :
  (∀ j, P j → j ≠ AUDIO_STATE.(INPUT_READ_INDEX) ∧ j ≠ AUDIO_STATE.(OUTPUT_WRITE_INDEX)) →
  frames t.(Worker.audioStatePointer) P
    (for_each l (Worker.frame hasInput iri owi) t).
Proof.
  intros HP.
  apply (frames_for_each_inv _ _
           (λ t', t'.(Worker.audioStatePointer) = t.(Worker.audioStatePointer)
                  ∧ t'.(Worker._b) = t.(Worker._b))); [| |done].
  - intros i t' [<- _]. by apply frames_frame.
  - intros i t' [<- <-]. apply yields_frame.
Qed.

Lemma frames_serve_callbacks (P : nat → Prop) (fields : list nat) (t : Worker.Thread) :
  callbacks_keep fields → (∀ j, P j → j ∈ fields) →
  frames t.(Worker.audioStatePointer) P (Worker.serve_callbacks t).
Proof.
  intros Hkeep HP w a w' Hrun j Hj. unfold Worker.serve_callbacks in Hrun.
  destruct (contents _ w) as [l|] eqn:Hl; [|done]. simpl in Hrun.
  specialize (Hkeep l w.(callbackBuffer) w.(csound) j (HP j Hj)).
  destruct (handleSABCallbacks _ _ _) as [[l' requests] engine]. simpl in Hkeep.
  assert (w' = set_csound engine (set_callbackBuffer requests
                 (set_contents t.(Worker.audioStatePointer) l' w))) as ->
    by (injection Hrun; congruence).
  transitivity (word t.(Worker.audioStatePointer) j
                  (set_contents t.(Worker.audioStatePointer) l' w)).
  { by destruct (Worker.audioStatePointer t). }
  rewrite word_set_contents by (by rewrite Hl). unfold word. by rewrite Hl.
Qed.

End WorkerFrames.

(** ** One pass of the worker through its loop *)

Section Wake.
Context `{Constants} `{LibraryCsound} `{!SabWorkerUtils}.

(** The two counters of the rings over the body of the loop from the MIDI
    events on: the frames consumed are taken off [AVAIL_IN_BUFS] when
    there were enough of them, and the frames produced are added to
    [AVAIL_OUT_BUFS], both as 32-bit words. *)
Lemma perform_counters (t : Worker.Thread) (w w' : World) (res : Worker.Wake)
    (availableIn availableOut : Z) :
  NoDup (audio_state_fields AUDIO_STATE) →
  callbacks_keep [AUDIO_STATE.(AVAIL_IN_BUFS); AUDIO_STATE.(AVAIL_OUT_BUFS)] →
  word t.(Worker.audioStatePointer) AUDIO_STATE.(AVAIL_IN_BUFS) w = Some availableIn →
  word t.(Worker.audioStatePointer) AUDIO_STATE.(AVAIL_OUT_BUFS) w = Some availableOut →
  Worker.perform t w = Some (res, w') →
  (∃ t', res = Worker.thread_loops t')
  ∧ word t.(Worker.audioStatePointer) AUDIO_STATE.(AVAIL_OUT_BUFS) w'
    = Some (ToInt32 (availableOut + t.(Worker._b)))
  ∧ word t.(Worker.audioStatePointer) AUDIO_STATE.(AVAIL_IN_BUFS) w'
    = Some (if t.(Worker._b) <=? availableIn
            then ToInt32 (availableIn - t.(Worker._b)) else availableIn).
Proof.
  intros Hnd Hkeep Hin Hout Hrun.
  set (r := t.(Worker.audioStatePointer)) in *.
  set (P := λ j, j = AUDIO_STATE.(AVAIL_IN_BUFS) ∨ j = AUDIO_STATE.(AVAIL_OUT_BUFS)).
  assert (HP_midi : ∀ j, P j → j ≠ AUDIO_STATE.(RTMIDI_INDEX)
                               ∧ j ≠ AUDIO_STATE.(AVAIL_RTMIDI_EVENTS)).
  { intros j [-> | ->]; split;
      [distinct 9%nat 15%nat | distinct 9%nat 14%nat
      | distinct 10%nat 15%nat | distinct 10%nat 14%nat]. }
  assert (HP_cursors : ∀ j, P j → j ≠ AUDIO_STATE.(INPUT_READ_INDEX)
                                  ∧ j ≠ AUDIO_STATE.(OUTPUT_WRITE_INDEX)).
  { intros j [-> | ->]; split;
      [distinct 9%nat 11%nat | distinct 9%nat 12%nat
      | distinct 10%nat 11%nat | distinct 10%nat 12%nat]. }
  assert (AUDIO_STATE.(AVAIL_IN_BUFS) ≠ AUDIO_STATE.(AVAIL_OUT_BUFS))
    by distinct 9%nat 10%nat.
  assert (AUDIO_STATE.(AVAIL_IN_BUFS) ≠ AUDIO_STATE.(ATOMIC_NOTIFY))
    by distinct 9%nat 0%nat.
  assert (AUDIO_STATE.(AVAIL_OUT_BUFS) ≠ AUDIO_STATE.(ATOMIC_NOTIFY))
    by distinct 10%nat 0%nat.
  unfold Worker.perform in Hrun. cbv zeta in Hrun. fold r in Hrun.
  apply bind_Some in Hrun as ([] & w1 & Hstep & Hrun).
  assert (K1 : ∀ j, P j → word r j w1 = word r j w).
  { intros j Hj. by apply (frames_rtmidi P t HP_midi _ _ _ Hstep). }
  clear Hstep.
  apply bind_Some in Hrun as ([] & w2 & Hstep & Hrun).
  assert (K2 : ∀ j, P j → word r j w2 = word r j w).
  { intros j Hj. rewrite <- K1 by done.
    refine (frames_serve_callbacks P _ t Hkeep _ _ _ _ Hstep j Hj).
    intros ? [-> | ->]; repeat constructor. }
  clear Hstep K1 w1.
  apply bind_Some in Hrun as (availableInputFrames & w3 & Hstep & Hrun).
  apply Atomics_load_Some in Hstep as [-> Hload].
  rewrite K2, Hin in Hload by (by left). injection Hload as <-.
  set (hasInput := t.(Worker._b) <=? availableIn) in *.
  apply bind_Some in Hrun as ([] & w3 & Hstep & Hrun).
  assert (K3 : ∀ j, P j → word r j w3 = word r j w).
  { intros j Hj. rewrite <- K2 by done. revert Hstep.
    destruct (_ && _); [done | by intros [_ ->]%ret_Some]. }
  clear Hstep K2 w2.
  apply bind_Some in Hrun as ([] & w4 & Hstep & Hrun).
  assert (K4 : ∀ j, P j → word r j w4 = word r j w).
  { intros j Hj. rewrite <- K3 by done. revert Hstep.
    destruct (_ <? 0); [done | by intros [_ ->]%ret_Some]. }
  clear Hstep K3 w3.
  apply bind_Some in Hrun as (inputReadIndex & w5 & Hstep & Hrun).
  assert (K5 : ∀ j, P j → word r j w5 = word r j w).
  { intros j Hj. rewrite <- K4 by done. revert Hstep.
    destruct hasInput;
      [by intros [-> _]%Atomics_load_Some | by intros [_ ->]%ret_Some]. }
  clear Hstep K4 w4.
  apply bind_Some in Hrun as (outputWriteIndex & w6 & Hstep & Hrun).
  apply Atomics_load_Some in Hstep as [-> _].
  apply bind_Some in Hrun as (t' & w7 & Hstep & Hrun).
  assert (K7 : ∀ j, P j → word r j w7 = word r j w).
  { intros j Hj. rewrite <- K5 by done.
    by apply (frames_frame_loop P t _ _ _ _ HP_cursors _ _ _ Hstep). }
  clear Hstep K5 w5.
  apply bind_Some in Hrun as ([] & w8 & Hstep & Hrun).
  assert (K8 : word r AUDIO_STATE.(AVAIL_IN_BUFS) w8
               = Some (if hasInput then ToInt32 (availableIn - t.(Worker._b))
                       else availableIn)
               ∧ word r AUDIO_STATE.(AVAIL_OUT_BUFS) w8 = Some availableOut).
  { pose proof (K7 _ (or_introl eq_refl)) as Hin7.
    pose proof (K7 _ (or_intror eq_refl)) as Hout7.
    rewrite Hin in Hin7. rewrite Hout in Hout7.
    destruct hasInput.
    - apply bind_Some in Hstep as (old & w8' & Hstep & [_ ->]%ret_Some).
      apply Atomics_sub_Some in Hstep as (l & Hl & Hold & ->).
      rewrite !word_set_contents by (by rewrite Hl).
      unfold word in Hin7, Hout7. rewrite Hl in Hin7, Hout7. simpl in *.
      rewrite list_lookup_insert_eq by (by eapply lookup_lt_Some).
      rewrite list_lookup_insert_ne by done.
      split; [congruence | done].
    - by apply ret_Some in Hstep as [_ ->]. }
  destruct K8 as [Hin8 Hout8]. clear Hstep K7 w7.
  apply bind_Some in Hrun as (old & w9 & Hstep & Hrun).
  apply Atomics_add_Some in Hstep as (l9 & Hl9 & Hold & ->).
  assert (old = availableOut) as ->.
  { unfold word in Hout8. rewrite Hl9 in Hout8. simpl in Hout8. congruence. }
  apply bind_Some in Hrun as ([] & w10 & Hstep & [-> ->]%ret_Some).
  apply Atomics_store_Some in Hstep as (l10 & Hl10 & _ & ->).
  rewrite contents_set_contents in Hl10 by (by rewrite Hl9). injection Hl10 as <-.
  rewrite !word_set_contents
    by (rewrite ?contents_set_contents; by rewrite ?Hl9).
  split; [eauto|]. split.
  - rewrite list_lookup_insert_ne by done.
    by rewrite list_lookup_insert_eq by (by eapply lookup_lt_Some).
  - rewrite !list_lookup_insert_ne by done.
    unfold word in Hin8. by rewrite Hl9 in Hin8.
Qed.

(** Where the worker leaves the cursor of the MIDI queue after it has
    delivered [pending] events read from [cursor] on: one word after the
    first word of the last event it read. *)
Lemma rtmidi_cursor (t : Worker.Thread) (w w' : World) (pending cursor : Z) :
  NoDup (audio_state_fields AUDIO_STATE) →
  t.(Worker.isRequestingRtMidiInput) ≠ 0 →
  word t.(Worker.audioStatePointer) AUDIO_STATE.(AVAIL_RTMIDI_EVENTS) w = Some pending →
  0 < pending →
  word t.(Worker.audioStatePointer) AUDIO_STATE.(RTMIDI_INDEX) w = Some cursor →
  MIDI_BUFFER_SIZE ≠ 0 →
  Worker.rtmidi t w = Some ((), w') →
  word t.(Worker.audioStatePointer) AUDIO_STATE.(RTMIDI_INDEX) w'
  = Some (ToInt32
            (Z.rem (Z.rem (cursor + MIDI_BUFFER_PAYLOAD_SIZE * (pending - 1))
                          MIDI_BUFFER_SIZE + 1)
                   MIDI_BUFFER_SIZE)).
Proof.
  intros Hnd Hmidi Hpending Hpos Hcursor Hsize Hrun.
  set (r := t.(Worker.audioStatePointer)) in *.
  assert (AUDIO_STATE.(RTMIDI_INDEX) ≠ AUDIO_STATE.(AVAIL_RTMIDI_EVENTS))
    by distinct 15%nat 14%nat.
  unfold Worker.rtmidi in Hrun. cbv zeta in Hrun. fold r in Hrun.
  destruct (Z.eqb_spec t.(Worker.isRequestingRtMidiInput) 0); [done|].
  simpl in Hrun.
  apply bind_Some in Hrun as (avail & ? & [-> Havail]%Atomics_load_Some & Hrun).
  rewrite Hpending in Havail. injection Havail as <-.
  destruct (Z.ltb_spec 0 pending); [|lia].
  apply bind_Some in Hrun as (c & ? & [-> Hc]%Atomics_load_Some & Hrun).
  rewrite Hcursor in Hc. injection Hc as <-.
  apply bind_Some in Hrun as (absIdx & w1 & Hloop & Hrun).
  assert (HabsIdx : absIdx = Num (Z.rem (cursor + MIDI_BUFFER_PAYLOAD_SIZE * (pending - 1))
                                        MIDI_BUFFER_SIZE)).
  { revert Hloop.
    replace pending with (Z.of_nat (S (Z.to_nat (pending - 1)))) at 1 by lia.
    rewrite seqZ_S, Z.add_0_l, Z2Nat.id by lia.
    apply (yields_for_each_last
             (λ a, a = Num (Z.rem (cursor + MIDI_BUFFER_PAYLOAD_SIZE * (pending - 1))
                                  MIDI_BUFFER_SIZE))).
    intros x. repeat (apply yields_bind; intros ?). apply yields_ret.
    unfold js_rem. by destruct (Z.eqb_spec MIDI_BUFFER_SIZE 0). }
  assert (Hsame : contents r w1 = contents r w).
  { assert (Hkeep : ∀ j, word r j w1 = word r j w).
    { intros j. refine (frames_for_each r (λ _, True) _ _ _ _ _ _ _ Hloop j I).
      intros idx x.
      repeat first [ apply frames_set_csound | frames_step ]. }
    destruct (contents r w) as [l|] eqn:Hl;
      [|by unfold word in Hcursor; rewrite Hl in Hcursor].
    destruct (contents r w1) as [l1|] eqn:Hl1.
    - f_equal. apply list_eq. intros j. specialize (Hkeep j).
      unfold word in Hkeep. by rewrite Hl, Hl1 in Hkeep.
    - specialize (Hkeep AUDIO_STATE.(RTMIDI_INDEX)). unfold word in Hkeep, Hcursor.
      rewrite Hl, Hl1 in Hkeep. rewrite Hl in Hcursor. simpl in *. congruence. }
  clear Hloop. subst absIdx.
  apply bind_Some in Hrun as ([] & w2 & Hstore & Hrun).
  apply Atomics_store_Some in Hstore as (l & Hl & Hlt & ->).
  apply bind_Some in Hrun as (old & w3 & Hsub & [_ ->]%ret_Some).
  pose proof (frames_sub r (λ j, j = AUDIO_STATE.(RTMIDI_INDEX))
                AUDIO_STATE.(AVAIL_RTMIDI_EVENTS) pending
                ltac:(by intros ? ->) _ _ _ Hsub _ eq_refl) as ->.
  rewrite word_set_contents by (by rewrite Hl).
  rewrite list_lookup_insert_eq by done.
  unfold js_add, js_rem, ToIntegerOrInfinity.
  by destruct (Z.eqb_spec MIDI_BUFFER_SIZE 0).
Qed.

(** The variables of the thread once it has been through the test of
    [firstRound]. *)
Lemma woken_constants (t : Worker.Thread) :
  let t0 := if t.(Worker.firstRound) then Worker.set_firstRound false t else t in
  t0.(Worker.audioStatePointer) = t.(Worker.audioStatePointer)
  ∧ t0.(Worker._b) = t.(Worker._b)
  ∧ t0.(Worker.lastReturn) = t.(Worker.lastReturn)
  ∧ t0.(Worker.performanceEnded) = t.(Worker.performanceEnded).
Proof. by destruct (Worker.firstRound t). Qed.

(** A pass that ends back at the head of the loop went through the body
    from the MIDI events on, in the world it started in. *)
Lemma wake_loops (t t' : Worker.Thread) (w w' : World) :
  Worker.wake t w = Some (Worker.thread_loops t', w') →
  Worker.perform
    (if t.(Worker.firstRound) then Worker.set_firstRound false t else t) w
  = Some (Worker.thread_loops t', w').
Proof.
  unfold Worker.wake. cbv zeta.
  set (t0 := if t.(Worker.firstRound) then Worker.set_firstRound false t else t).
  intros (ending & w1 & Hending & Hrun)%bind_Some.
  assert (w1 = w) as ->.
  { revert Hending. apply reads_or_else; [apply reads_or_else|apply reads_ret];
      (apply reads_bind; [apply reads_load | intros ?; apply reads_ret]). }
  destruct ending.
  - apply bind_Some in Hrun as (? & ? & _ & (? & ? & _ & [[=] _]%ret_Some)%bind_Some).
  - apply bind_Some in Hrun as (paused & w2 & [-> _]%Atomics_load_Some & Hrun).
    apply bind_Some in Hrun as (wait & w2 & Hwait & Hrun).
    assert (w2 = w) as ->.
    { revert Hwait. destruct (paused =? 1); [apply reads_wait | apply reads_ret]. }
    destruct wait; [done|]. by apply ret_Some in Hrun as [[=] _].
Qed.

(** C5. For every pass of the render loop that gets to publish its
    counters and returns to the head of the loop, [AVAIL_OUT_BUFS] has
    grown by exactly [_b], and [AVAIL_IN_BUFS] has shrunk by exactly [_b]
    if and only if [hasInput] held ([_b] frames of input were available)
    when the pass began. The counters are 32-bit words, the chunk [_b] is
    positive, [AVAIL_OUT_BUFS + _b] still fits a word, and serving the
    callback requests does not write the two counters. *)
Theorem wake_publishes_counters (t t' : Worker.Thread) (w w' : World)
    (availableIn availableOut : Z) :
  NoDup (audio_state_fields AUDIO_STATE) →
  callbacks_keep [AUDIO_STATE.(AVAIL_IN_BUFS); AUDIO_STATE.(AVAIL_OUT_BUFS)] →
  word t.(Worker.audioStatePointer) AUDIO_STATE.(AVAIL_IN_BUFS) w = Some availableIn →
  word t.(Worker.audioStatePointer) AUDIO_STATE.(AVAIL_OUT_BUFS) w = Some availableOut →
  0 < t.(Worker._b) →
  int32 availableIn →
  int32 (availableOut + t.(Worker._b)) →
  Worker.wake t w = Some (Worker.thread_loops t', w') →
  word t.(Worker.audioStatePointer) AUDIO_STATE.(AVAIL_OUT_BUFS) w'
  = Some (availableOut + t.(Worker._b))
  ∧ (word t.(Worker.audioStatePointer) AUDIO_STATE.(AVAIL_IN_BUFS) w'
     = Some (availableIn - t.(Worker._b))
     ↔ t.(Worker._b) ≤ availableIn).
Proof.
  intros Hnd Hkeep Hin Hout Hb Hin32 Hout32 Hrun%wake_loops.
  destruct (woken_constants t) as (Hr & Hb0 & _). cbv zeta in Hr, Hb0.
  rewrite <- Hr in Hin, Hout.
  destruct (perform_counters _ _ _ _ _ _ Hnd Hkeep Hin Hout Hrun) as (_ & Hout' & Hin').
  rewrite Hr, Hb0 in Hout', Hin'. rewrite Hout', Hin'. split.
  - by rewrite ToInt32_id.
  - destruct (Z.leb_spec t.(Worker._b) availableIn).
    + rewrite ToInt32_id by (unfold int32 in *; lia). done.
    + split; [intros [=]; lia | lia].
Qed.

(** C3, as the code has it. A pass that finds [IS_PAUSED] at 1 (and is
    not about to end) does not go to sleep: its [Atomics.wait] expects
    the word to be 0, finds 1 and returns at once, so the pass is the
    body of the loop from the MIDI events on, and when it is through
    [AVAIL_OUT_BUFS] has grown by [_b] (as a 32-bit word). *)
Theorem wake_while_paused (t : Worker.Thread) (w : World) (stop availableIn availableOut : Z) :
  NoDup (audio_state_fields AUDIO_STATE) →
  callbacks_keep [AUDIO_STATE.(AVAIL_IN_BUFS); AUDIO_STATE.(AVAIL_OUT_BUFS)] →
  word t.(Worker.audioStatePointer) AUDIO_STATE.(STOP) w = Some stop →
  stop ≠ 1 →
  word t.(Worker.audioStatePointer) AUDIO_STATE.(IS_PERFORMING) w = Some 1 →
  t.(Worker.performanceEnded) = false →
  word t.(Worker.audioStatePointer) AUDIO_STATE.(IS_PAUSED) w = Some 1 →
  word t.(Worker.audioStatePointer) AUDIO_STATE.(AVAIL_IN_BUFS) w = Some availableIn →
  word t.(Worker.audioStatePointer) AUDIO_STATE.(AVAIL_OUT_BUFS) w = Some availableOut →
  Worker.wake t w
  = Worker.perform
      (if t.(Worker.firstRound) then Worker.set_firstRound false t else t) w
  ∧ ∀ res w', Worker.wake t w = Some (res, w') →
      (∃ t', res = Worker.thread_loops t')
      ∧ word t.(Worker.audioStatePointer) AUDIO_STATE.(AVAIL_OUT_BUFS) w'
        = Some (ToInt32 (availableOut + t.(Worker._b))).
Proof.
  intros Hnd Hkeep Hstop Hstop1 Hperf Hended Hpaused Hin Hout.
  destruct (woken_constants t) as (Hr & Hb0 & _ & Hended0).
  cbv zeta in Hr, Hb0, Hended0.
  assert (Hwake : Worker.wake t w
                  = Worker.perform
                      (if t.(Worker.firstRound) then Worker.set_firstRound false t else t) w).
  { unfold Worker.wake, or_else, Atomics_wait. cbv zeta.
    set (t0 := if t.(Worker.firstRound) then Worker.set_firstRound false t else t) in *.
    apply Atomics_load_run in Hstop, Hperf, Hpaused.
    unfold mbind, M_bind, mret, M_ret. rewrite Hstop.
    destruct (stop =? 1) eqn:E; [lia|].
    rewrite Hperf. simpl. rewrite Hended0, Hended. rewrite Hpaused. simpl.
    rewrite Hpaused. simpl. done. }
  split; [done|]. rewrite Hwake. intros res w' Hrun.
  rewrite <- Hr in Hin, Hout.
  destruct (perform_counters _ _ _ _ _ _ Hnd Hkeep Hin Hout Hrun) as (Hres & Hout' & _).
  by rewrite Hr, Hb0 in Hout'.
Qed.

End Wake.

(** ** The setup of the real-time thread *)

Section Setup.
Context `{Constants} `{LibraryCsound} `{!SabWorkerUtils}.

Lemma gets_Some {A} (f : World → A) (w w' : World) (a : A) :
  gets f w = Some (a, w') ↔ a = f w ∧ w' = w.
Proof. unfold gets. split; [by intros [= <- <-] | by intros [-> ->]]. Qed.

Lemma emit_Some (e : Event) (w w' : World) (u : ()) :
  emit e w = Some (u, w') ↔ w' = set_trace (w.(trace) ++ [e]) w.
Proof.
  unfold emit, modify. split; [by intros [= <-] | intros ->; by destruct u].
Qed.

Lemma reads_for_each {A X} (l : list A) (body : A → X → M X) (x : X) :
  (∀ a x, reads (body a x)) → reads (for_each l body x).
Proof.
  intros Hbody. revert x. induction l as [|a l IH]; intros x; simpl.
  - apply reads_ret.
  - apply reads_bind; [apply Hbody | apply IH].
Qed.

Lemma reads_gets {A} (f : World → A) : reads (gets f).
Proof. by intros w a w' [_ ->]%gets_Some. Qed.

Lemma reads_new_Float64Array elements byteOffset length :
  reads (Worker.new_Float64Array elements byteOffset length).
Proof.
  unfold Worker.new_Float64Array. destruct (_ || _); [done | apply reads_ret].
Qed.

(** A store loop that completes found an array long enough. *)
Lemma store_values_inv (view : World → Int32Array) (values : list Z) :
  (∀ r l w, view (set_contents r l w) = view w) →
  ∀ (k : nat) (w w' : World),
    for_each (imap (λ index value, ((k + index)%nat, value)) values)
      (λ '(index, value) _, p ← gets view; Atomics_store p index value) () w
    = Some ((), w') →
    values ≠ [] →
    ∃ l, contents (view w) w = Some l ∧ (k + length values ≤ length l)%nat.
Proof.
  intros Hview. induction values as [|v values IH]; intros k w w' Hrun Hne; [done|].
  rewrite imap_cons in Hrun. simpl in Hrun.
  apply bind_Some in Hrun as ([] & w1 & Hstore & Hrun).
  apply bind_Some in Hstore as (p & ? & [-> ->]%gets_Some & Hstore).
  apply Atomics_store_Some in Hstore as (l & Hl & Hk & ->).
  exists l. split; [done|].
  destruct values as [|v' values]; [simpl; lia|].
  rewrite (imap_ext _ (λ index value, ((S k + index)%nat, value))) in Hrun.
  2:{ intros i x _. simpl. f_equal. lia. }
  apply IH in Hrun as (l1 & Hl1 & Hlen); [|done].
  rewrite Hview, contents_set_contents in Hl1 by (by rewrite Hl).
  injection Hl1 as <-. rewrite length_insert in Hlen. simpl in *. lia.
Qed.

(** The thread function up to its broadcast: the template goes into the
    audio state, then the answers of the engine and the mark of the
    performance; nothing else of the audio state is written. *)
Lemma sabCreateRealtimeAudioThread_run (args : Main.StartArguments)
    (w w' : World) (t : Worker.Thread) :
  Worker.sabCreateRealtimeAudioThread args w = Some (t, w') →
  let r := audioStateView args.(Main.args_audioStateBuffer) in
  let engine := w.(csound) in
  ∃ l : list Z,
    (∀ j v, initialSharedState !! j = Some v → l !! j = Some (ToInt32 v))
    ∧ contents r w'
      = Some (<[AUDIO_STATE.(IS_PERFORMING) := ToInt32 1]>
               (<[AUDIO_STATE.(IS_REQUESTING_RTMIDI) :=
                    ToInt32 (_isRequestingRtMidiInput engine)]>
                 (<[AUDIO_STATE.(SAMPLE_RATE) := ToInt32 (csoundGetSr engine)]>
                   (<[AUDIO_STATE.(NCHNLS_I) := ToInt32 t.(Worker.nchnlsInput)]>
                     (<[AUDIO_STATE.(NCHNLS) := ToInt32 (csoundGetNchnls engine)]> l)))))
    ∧ (AUDIO_STATE.(IS_PERFORMING) < length l)%nat
    ∧ (AUDIO_STATE.(NCHNLS) < length l)%nat
    ∧ (AUDIO_STATE.(SAMPLE_RATE) < length l)%nat
    ∧ t.(Worker.ksmps) = csoundGetKsmps engine
    ∧ w'.(trace) = w.(trace) ++ [broadcastPlayState "realtimePerformanceStarted"].
Proof.
  intros Hrun r engine. unfold Worker.sabCreateRealtimeAudioThread in Hrun.
  cbv zeta in Hrun. fold r in Hrun.
  apply bind_Some in Hrun as ([] & w1 & Hloop & Hrun).
  assert (Hw1 : w1.(csound) = engine ∧ w1.(trace) = w.(trace)
                ∧ ∀ l1, contents r w1 = Some l1 →
                    ∀ j v, initialSharedState !! j = Some v →
                      l1 !! j = Some (ToInt32 v)).
  { destruct (decide (initialSharedState = [])) as [Hnil|Hne].
    - rewrite Hnil in Hloop |- *. apply ret_Some in Hloop as [_ ->]. done.
    - pose proof (store_values_inv (λ _, r) initialSharedState
                    (λ _ _ _, eq_refl) 0 w w1 Hloop Hne) as (l0 & Hl0 & Hlen0).
      pose proof (store_values_run (λ _, r) initialSharedState
                    (λ _ _ _, eq_refl) 0 l0 w Hl0 Hlen0) as Hfwd.
      assert (w1 = set_contents r
                (take 0 l0 ++ (ToInt32 <$> initialSharedState)
                 ++ drop (0 + length initialSharedState) l0) w) as ->
        by (cut (Some ((), w1) = Some ((), set_contents r
                   (take 0 l0 ++ (ToInt32 <$> initialSharedState)
                    ++ drop (0 + length initialSharedState) l0) w));
            [congruence | rewrite <- Hloop; exact Hfwd]).
      split; [by destruct r|]. split; [by destruct r|].
      intros l1 Hl1 j v Hj.
      rewrite contents_set_contents in Hl1 by (by rewrite Hl0).
      injection Hl1 as <-. simpl.
      rewrite lookup_app_l by (rewrite length_fmap; by eapply lookup_lt_Some).
      by rewrite list_lookup_fmap, Hj. }
  clear Hloop. destruct Hw1 as (Hengine1 & Htrace1 & Htemplate).
  unfold Worker.libraryCsound_get in Hrun.
  apply bind_Some in Hrun as (isRequestingRtMidiInput & ? & [-> ->]%gets_Some & Hrun).
  apply bind_Some in Hrun as (isExpectingInput & ? & [-> ->]%gets_Some & Hrun).
  apply bind_Some in Hrun as (nchnls & ? & [-> ->]%gets_Some & Hrun).
  apply bind_Some in Hrun as (nchnlsInput & w2 & Hstep & Hrun).
  assert (w2 = w1) as ->.
  { revert Hstep. destruct (includes _ _); [apply reads_gets | apply reads_ret]. }
  clear Hstep.
  apply bind_Some in Hrun as (sampleRate & ? & [-> ->]%gets_Some & Hrun).
  rewrite !Hengine1 in Hrun.
  apply bind_Some in Hrun as ([] & w2 & Hstep & Hrun).
  apply Atomics_store_Some in Hstep as (l1 & Hl1 & HNCHNLS & ->).
  specialize (Htemplate l1 Hl1).
  set (l2 := <[AUDIO_STATE.(NCHNLS) := _]> l1) in *.
  assert (Hl2 : contents r (set_contents r l2 w1) = Some l2)
    by (apply contents_set_contents; by rewrite Hl1).
  apply bind_Some in Hrun as ([] & w3 & Hstep & Hrun).
  apply Atomics_store_Some in Hstep as (? & Hl2' & _ & ->).
  rewrite Hl2 in Hl2'. injection Hl2' as <-.
  rewrite set_contents_twice in Hrun.
  set (l3 := <[AUDIO_STATE.(NCHNLS_I) := _]> l2) in *.
  assert (Hl3 : contents r (set_contents r l3 w1) = Some l3)
    by (apply contents_set_contents; by rewrite Hl1).
  apply bind_Some in Hrun as ([] & w4 & Hstep & Hrun).
  apply Atomics_store_Some in Hstep as (? & Hl3' & HSR & ->).
  rewrite Hl3 in Hl3'. injection Hl3' as <-.
  rewrite set_contents_twice in Hrun.
  set (l4 := <[AUDIO_STATE.(SAMPLE_RATE) := _]> l3) in *.
  assert (Hl4 : contents r (set_contents r l4 w1) = Some l4)
    by (apply contents_set_contents; by rewrite Hl1).
  apply bind_Some in Hrun as ([] & w5 & Hstep & Hrun).
  apply Atomics_store_Some in Hstep as (? & Hl4' & _ & ->).
  rewrite Hl4 in Hl4'. injection Hl4' as <-.
  rewrite set_contents_twice in Hrun.
  set (l5 := <[AUDIO_STATE.(IS_REQUESTING_RTMIDI) := _]> l4) in *.
  assert (Hl5 : contents r (set_contents r l5 w1) = Some l5)
    by (apply contents_set_contents; by rewrite Hl1).
  set (w5 := set_contents r l5 w1) in *.
  assert (Hengine5 : w5.(csound) = engine) by (unfold w5; by destruct r).
  assert (Htrace5 : w5.(trace) = w.(trace)) by (unfold w5; by destruct r).
  clearbody w5.
  apply bind_Some in Hrun as (ksmps & ? & [-> ->]%gets_Some & Hrun).
  apply bind_Some in Hrun as (zeroDecibelFullScale & ? & [-> ->]%gets_Some & Hrun).
  apply bind_Some in Hrun as (_B & ? & [-> _]%Atomics_load_Some & Hrun).
  apply bind_Some in Hrun as (_b & ? & [-> _]%Atomics_load_Some & Hrun).
  apply bind_Some in Hrun as (channelsOutput & w6 & Hstep & Hrun).
  assert (w6 = w5) as ->.
  { revert Hstep. apply reads_for_each. intros ? ?.
    apply reads_bind; [apply reads_gets | intros ?].
    apply reads_bind; [apply reads_new_Float64Array | intros ?; apply reads_ret]. }
  clear Hstep.
  apply bind_Some in Hrun as (channelsInput & w6 & Hstep & Hrun).
  assert (w6 = w5) as ->.
  { revert Hstep. apply reads_for_each. intros ? ?.
    apply reads_bind; [apply reads_gets | intros ?].
    apply reads_bind; [apply reads_new_Float64Array | intros ?; apply reads_ret]. }
  clear Hstep.
  apply bind_Some in Hrun as ([] & w6 & Hstep & Hrun).
  apply Atomics_store_Some in Hstep as (? & Hl5' & HPERF & ->).
  rewrite Hl5 in Hl5'. injection Hl5' as <-.
  apply bind_Some in Hrun as ([] & w7 & Hstep & [-> ->]%ret_Some).
  apply emit_Some in Hstep as ->.
  exists l1. simpl. rewrite Hengine5.
  unfold l5, l4, l3, l2 in *. rewrite !length_insert in *.
  repeat split; try done.
  - apply list_lookup_insert_eq. eapply lookup_lt_Some. exact Hl5.
  - by rewrite Htrace5.
Qed.

(** C6, as the code has it. Right after the worker has broadcast
    [realtimePerformanceStarted], [IS_PERFORMING] is 1 and the fields
    [NCHNLS] and [SAMPLE_RATE] hold what the engine answered to
    [csoundGetNchnls] and [csoundGetSr] during the setup, as 32-bit words.
    What it answered to [csoundGetKsmps] is kept in the variable [ksmps] of
    the thread and is not written to the audio state: besides the three
    fields above, [NCHNLS_I] and [IS_REQUESTING_RTMIDI], every word is the
    one of the template. *)
Theorem realtimePerformanceStarted_audio_state (args : Main.StartArguments)
    (w w' : World) (t : Worker.Thread) :
  NoDup (audio_state_fields AUDIO_STATE) →
  Worker.sabCreateRealtimeAudioThread args w = Some (t, w') →
  let r := audioStateView args.(Main.args_audioStateBuffer) in
  let engine := w.(csound) in
  w'.(trace) = w.(trace) ++ [broadcastPlayState "realtimePerformanceStarted"]
  ∧ word r AUDIO_STATE.(IS_PERFORMING) w' = Some 1
  ∧ word r AUDIO_STATE.(NCHNLS) w' = Some (ToInt32 (csoundGetNchnls engine))
  ∧ word r AUDIO_STATE.(SAMPLE_RATE) w' = Some (ToInt32 (csoundGetSr engine))
  ∧ t.(Worker.ksmps) = csoundGetKsmps engine
  ∧ ∀ j v, initialSharedState !! j = Some v →
      j ∉ [AUDIO_STATE.(NCHNLS); AUDIO_STATE.(NCHNLS_I); AUDIO_STATE.(SAMPLE_RATE);
           AUDIO_STATE.(IS_REQUESTING_RTMIDI); AUDIO_STATE.(IS_PERFORMING)] →
      word r j w' = Some (ToInt32 v).
Proof.
  intros Hnd Hrun r engine.
  destruct (sabCreateRealtimeAudioThread_run args w w' t Hrun)
    as (l & Htemplate & Hcontents & HPERF & HNCHNLS & HSR & Hksmps & Htrace).
  fold r engine in Hcontents, Hksmps.
  assert (AUDIO_STATE.(IS_PERFORMING) ≠ AUDIO_STATE.(NCHNLS)) by distinct 1%nat 4%nat.
  assert (AUDIO_STATE.(IS_PERFORMING) ≠ AUDIO_STATE.(SAMPLE_RATE)) by distinct 1%nat 6%nat.
  assert (AUDIO_STATE.(IS_REQUESTING_RTMIDI) ≠ AUDIO_STATE.(NCHNLS))
    by distinct 13%nat 4%nat.
  assert (AUDIO_STATE.(IS_REQUESTING_RTMIDI) ≠ AUDIO_STATE.(SAMPLE_RATE))
    by distinct 13%nat 6%nat.
  assert (AUDIO_STATE.(SAMPLE_RATE) ≠ AUDIO_STATE.(NCHNLS)) by distinct 6%nat 4%nat.
  assert (AUDIO_STATE.(NCHNLS_I) ≠ AUDIO_STATE.(NCHNLS)) by distinct 5%nat 4%nat.
  unfold word. rewrite Hcontents. simpl.
  split; [done|]. split; [|split; [|split; [|split; [done|]]]].
  - by rewrite list_lookup_insert_eq by (by rewrite !length_insert).
  - rewrite !list_lookup_insert_ne by done.
    by rewrite list_lookup_insert_eq.
  - rewrite !list_lookup_insert_ne by done.
    by rewrite list_lookup_insert_eq by (by rewrite !length_insert).
  - intros j v Hj Hother.
    rewrite !list_lookup_insert_ne by (intros <-; apply Hother; set_solver).
    by apply Htemplate.
Qed.

End Setup.

(** ** The MIDI queue *)

Section Midi.
Context `{Constants} `{LibraryCsound}.

(** C9, as the code has it. Whatever the MIDI queue holds,
    [handleMidiInput] writes its three words, at [nextIndex], [nextIndex +
    1] and [nextIndex + 2] for [nextIndex = (AVAIL_RTMIDI_EVENTS *
    MIDI_BUFFER_PAYLOAD_SIZE + RTMIDI_INDEX) % MIDI_BUFFER_SIZE], and adds
    exactly 1 to [AVAIL_RTMIDI_EVENTS]: it checks no capacity. When the
    pending events fill the ring a whole number of times
    ([AVAIL_RTMIDI_EVENTS * MIDI_BUFFER_PAYLOAD_SIZE] is a multiple of
    [MIDI_BUFFER_SIZE], as for [MIDI_BUFFER_SIZE / MIDI_BUFFER_PAYLOAD_SIZE]
    events when the payload size divides the buffer size) the three words
    land on [RTMIDI_INDEX] and the two words after it, where the oldest
    event not yet consumed is. (The queue is in a state the code leaves it
    in: the counter and the cursor are not negative, the counter has not
    reached the largest 32-bit word, the buffer is longer than
    [MIDI_BUFFER_SIZE + 1] words.) *)
Theorem handleMidiInput_no_capacity_check (w : World) (status data1 data2 : Z)
    (pending cursor : Z) :
  AUDIO_STATE.(AVAIL_RTMIDI_EVENTS) ≠ AUDIO_STATE.(RTMIDI_INDEX) →
  word (host_view w) AUDIO_STATE.(AVAIL_RTMIDI_EVENTS) w = Some pending →
  word (host_view w) AUDIO_STATE.(RTMIDI_INDEX) w = Some cursor →
  0 ≤ pending → int32 (pending + 1) → 0 ≤ cursor →
  0 < MIDI_BUFFER_SIZE → 0 ≤ MIDI_BUFFER_PAYLOAD_SIZE →
  (Z.to_nat MIDI_BUFFER_SIZE + 1 < length w.(midiBuffer))%nat →
  let nextIndex :=
    Z.to_nat ((pending * MIDI_BUFFER_PAYLOAD_SIZE + cursor) `mod` MIDI_BUFFER_SIZE) in
  ∃ w', Main.handleMidiInput status data1 data2 w = Some ((), w')
    ∧ w'.(midiBuffer)
      = <[S (S nextIndex) := ToInt32 data2]>
          (<[S nextIndex := ToInt32 data1]>
             (<[nextIndex := ToInt32 status]> w.(midiBuffer)))
    ∧ word (host_view w) AUDIO_STATE.(AVAIL_RTMIDI_EVENTS) w' = Some (pending + 1)
    ∧ word (host_view w) AUDIO_STATE.(RTMIDI_INDEX) w' = Some cursor
    ∧ ((pending * MIDI_BUFFER_PAYLOAD_SIZE) `mod` MIDI_BUFFER_SIZE = 0 →
       cursor < MIDI_BUFFER_SIZE → nextIndex = Z.to_nat cursor).
Proof.
  intros Hne Hpending Hcursor Hp Hp32 Hc Hsize Hpayload Hlen nextIndex.
  set (next := (pending * MIDI_BUFFER_PAYLOAD_SIZE + cursor) `mod` MIDI_BUFFER_SIZE) in *.
  assert (Hnext : 0 ≤ next < MIDI_BUFFER_SIZE) by (apply Z.mod_pos_bound; lia).
  assert (Hrem : js_rem (Num (pending * MIDI_BUFFER_PAYLOAD_SIZE + cursor)) MIDI_BUFFER_SIZE
                 = Num next).
  { unfold js_rem. destruct (Z.eqb_spec MIDI_BUFFER_SIZE 0); [lia|].
    unfold next. rewrite Z.rem_mod_nonneg by nia. done. }
  assert (Hindex : ∀ k (w0 : World), 0 ≤ k →
            ToIndex (js_add (Num next) k) w0 = Some (Z.to_nat (next + k), w0)).
  { intros k w0 Hk. unfold ToIndex. simpl.
    destruct (Z.ltb_spec (next + k) 0); [lia | done]. }
  unfold Main.handleMidiInput.
  rewrite (bind_run Main.this_audioStatePointer _ w (host_view w) w eq_refl).
  rewrite (bind_run _ _ _ _ _ (Atomics_load_run _ _ _ _ Hpending)).
  rewrite (bind_run _ _ _ _ _ (Atomics_load_run _ _ _ _ Hcursor)).
  cbv zeta. rewrite Hrem.
  assert (Hindex0 : ToIndex (Num next) w = Some (nextIndex, w)).
  { unfold ToIndex. simpl. destruct (Z.ltb_spec next 0); [lia | done]. }
  rewrite (bind_run _ _ _ _ _ Hindex0).
  set (m1 := <[nextIndex := ToInt32 status]> w.(midiBuffer)).
  rewrite (bind_run _ _ _ _ _
             (Atomics_store_run midiBufferView nextIndex status w _ eq_refl
                ltac:(unfold nextIndex; lia))).
  fold m1. rewrite (bind_run _ _ _ _ _ (Hindex 1 _ ltac:(lia))).
  replace (Z.to_nat (next + 1)) with (S nextIndex) by (unfold nextIndex; lia).
  set (w1 := set_contents midiBufferView m1 w).
  set (m2 := <[S nextIndex := ToInt32 data1]> m1).
  rewrite (bind_run _ _ _ _ _
             (Atomics_store_run midiBufferView (S nextIndex) data1 w1 m1 eq_refl
                ltac:(unfold m1, nextIndex; rewrite length_insert; lia))).
  fold m2. rewrite (bind_run _ _ _ _ _ (Hindex 2 _ ltac:(lia))).
  replace (Z.to_nat (next + 2)) with (S (S nextIndex)) by (unfold nextIndex; lia).
  set (w2 := set_contents midiBufferView m2 w1).
  set (m3 := <[S (S nextIndex) := ToInt32 data2]> m2).
  rewrite (bind_run _ _ _ _ _
             (Atomics_store_run midiBufferView (S (S nextIndex)) data2 w2 m2 eq_refl
                ltac:(unfold m2, m1, nextIndex; rewrite !length_insert; lia))).
  fold m3. set (w3 := set_contents midiBufferView m3 w2).
  rewrite (bind_run Main.this_audioStatePointer _ w3 (host_view w) w3 eq_refl).
  destruct (contents (host_view w) w) as [l|] eqn:Hl; [|by unfold word in Hpending; rewrite Hl in Hpending].
  assert (Hl3 : contents (host_view w) w3 = Some l) by exact Hl.
  assert (Hold : l !! AUDIO_STATE.(AVAIL_RTMIDI_EVENTS) = Some pending).
  { unfold word in Hpending. by rewrite Hl in Hpending. }
  assert (Hadd : Atomics_add (host_view w) AUDIO_STATE.(AVAIL_RTMIDI_EVENTS) 1 w3
                 = Some (pending, set_contents (host_view w)
                           (<[AUDIO_STATE.(AVAIL_RTMIDI_EVENTS) := ToInt32 (pending + 1)]> l) w3))
    by (apply Atomics_add_Some; eauto).
  rewrite (bind_run _ _ _ _ _ Hadd).
  eexists. split; [reflexivity|].
  rewrite !word_set_contents by (by rewrite Hl3).
  split; [done|]. split; [|split].
  - rewrite list_lookup_insert_eq by (by eapply lookup_lt_Some).
    by rewrite ToInt32_id.
  - rewrite list_lookup_insert_ne by done.
    unfold word in Hcursor. by rewrite Hl in Hcursor.
  - intros Hlap Hcur. unfold nextIndex, next. f_equal.
    rewrite Z.add_mod, Hlap by lia. rewrite Z.add_0_l, Z.mod_mod by lia.
    apply Z.mod_small. lia.
Qed.

End Midi.

(** ** The statements on the concrete machine *)

Section Examples.

#[local] Existing Instance Scenario.table.
#[local] Existing Instance Scenario.engine.
#[local] Existing Instance Scenario.no_requests.

Lemma table_ok : constants_ok.
Proof.
  split; [|split].
  - apply (bool_decide_unpack (NoDup _)). vm_compute. exact I.
  - repeat constructor.
  - repeat constructor; unfold int32; lia.
Defined.

(** C1 fails as stated. [pause()] is called before the host has
    processed the broadcast of the start; once it has, the play state is
    [realtimePerformanceStarted], which is stopable, and [IS_PAUSED] is 1.
    [stop()] then leaves [IS_PAUSED] at 1 and notifies nobody waiting on
    it: the only notification is the one on the doorbell. *)
Lemma csoundStop_leaves_IS_PAUSED :
  has stopableStates Run.paused_early.2.(main).(currentPlayState) = true
  ∧ Run.paused_early.2.(main).(currentPlayState) = Some "realtimePerformanceStarted"
  ∧ word (audioStateView 0%nat) AUDIO_STATE.(IS_PAUSED) Run.paused_early.2 = Some 1
  ∧ fst <$> Main.csoundStop Run.paused_early.2 = Some (awaits 1%nat 0)
  ∧ word (audioStateView 0%nat) AUDIO_STATE.(IS_PAUSED)
      (after Main.csoundStop Run.paused_early.2) = Some 1
  ∧ (after Main.csoundStop Run.paused_early.2).(trace)
    = Run.paused_early.2.(trace)
      ++ [notify (audioStateView 0%nat) AUDIO_STATE.(ATOMIC_NOTIFY)].
Proof. repeat apply conj; vm_compute; reflexivity. Qed.

Lemma csoundStop_not_stopable_witness :
  Main.csoundStop (Run.initialized 32)
  = Some (returns (-1), Run.initialized 32).
Proof. apply csoundStop_not_stopable. vm_compute. reflexivity. Defined.

Lemma no_requests_keep (fields : list nat) : callbacks_keep fields.
Proof. intros l requests c j _. reflexivity. Defined.

Lemma wake_while_paused_witness :
  word (audioStateView 0%nat) AUDIO_STATE.(IS_PAUSED) Run.paused.2 = Some 1
  ∧ Worker.wake Run.paused.1 Run.paused.2
    = Some (Worker.thread_loops (Run.wake Run.paused).1, (Run.wake Run.paused).2)
  ∧ word (audioStateView 0%nat) AUDIO_STATE.(AVAIL_OUT_BUFS) Run.paused.2 = Some 0
  ∧ word (audioStateView 0%nat) AUDIO_STATE.(AVAIL_OUT_BUFS) (Run.wake Run.paused).2
    = Some 128
  ∧ word (audioStateView 0%nat) AUDIO_STATE.(IS_PAUSED) (Run.wake Run.paused).2 = Some 1.
Proof.
  assert (Hwake : Worker.wake Run.paused.1 Run.paused.2
                  = Some (Worker.thread_loops (Run.wake Run.paused).1,
                          (Run.wake Run.paused).2))
    by (vm_compute; reflexivity).
  destruct (wake_while_paused Run.paused.1 Run.paused.2 0 0 0) as [_ Hpass].
  - exact (proj1 table_ok).
  - apply no_requests_keep.
  - vm_compute. reflexivity.
  - discriminate.
  - vm_compute. reflexivity.
  - vm_compute. reflexivity.
  - vm_compute. reflexivity.
  - vm_compute. reflexivity.
  - vm_compute. reflexivity.
  - destruct (Hpass _ _ Hwake) as [_ Hout].
    split; [vm_compute; reflexivity|]. split; [exact Hwake|].
    split; [vm_compute; reflexivity|]. split; [exact Hout|].
    vm_compute. reflexivity.
Defined.

(** C4, as the code has it. After the three calls of [on_midi] the queue
    holds three events. The next pass of the thread, which was told at
    its setup that the engine requests MIDI, hands the three messages to
    the engine in their order and empties the queue, and it leaves the
    cursor at 7, the word after the first word of the last event, where
    the scenario of the specification has 9, the word after the last
    event. *)
Theorem three_messages_leave_cursor_at_seven :
  word (audioStateView 0%nat) AUDIO_STATE.(AVAIL_RTMIDI_EVENTS) Run.three_messages.2
  = Some 3
  ∧ word (audioStateView 0%nat) AUDIO_STATE.(IS_REQUESTING_RTMIDI) Run.three_messages.2
    = Some 1
  ∧ Worker.wake Run.three_messages.1 Run.three_messages.2
    = Some (Worker.thread_loops (Run.wake Run.three_messages).1,
            (Run.wake Run.three_messages).2)
  ∧ (Run.wake Run.three_messages).2.(csound).(Scenario.midiMessages)
    = [(144, 60, 100); (128, 60, 0); (176, 7, 64)]
  ∧ word (audioStateView 0%nat) AUDIO_STATE.(AVAIL_RTMIDI_EVENTS)
      (Run.wake Run.three_messages).2 = Some 0
  ∧ word (audioStateView 0%nat) AUDIO_STATE.(RTMIDI_INDEX)
      (Run.wake Run.three_messages).2 = Some 7
  ∧ 9 `mod` MIDI_BUFFER_SIZE = 9.
Proof. repeat apply conj; vm_compute; reflexivity. Qed.

(** The happy path of the specification: after [start()] the backend
    makes 128 frames of input available and rings the doorbell; one pass
    later 128 frames of output are available, the input is used up and
    the write cursor is at 128. *)
Lemma happy_path :
  word (audioStateView 0%nat) AUDIO_STATE.(AVAIL_IN_BUFS) (Run.supplied 128).2 = Some 128
  ∧ Worker.wake (Run.supplied 128).1 (Run.supplied 128).2
    = Some (Worker.thread_loops (Run.wake (Run.supplied 128)).1,
            (Run.wake (Run.supplied 128)).2)
  ∧ contents (audioStateView 0%nat) (Run.wake (Run.supplied 128)).2
    = Some [1; 0; 0; 0; 1; 1; 44100; 512; 128; 0; 128; 128; 128; 1; 0; 0].
Proof. repeat apply conj; vm_compute; reflexivity. Qed.

Lemma wake_publishes_counters_witness :
  word (Run.supplied 128).1.(Worker.audioStatePointer) AUDIO_STATE.(AVAIL_OUT_BUFS)
    (Run.wake (Run.supplied 128)).2
  = Some (0 + (Run.supplied 128).1.(Worker._b))
  ∧ (word (Run.supplied 128).1.(Worker.audioStatePointer) AUDIO_STATE.(AVAIL_IN_BUFS)
       (Run.wake (Run.supplied 128)).2
     = Some (128 - (Run.supplied 128).1.(Worker._b))
     ↔ (Run.supplied 128).1.(Worker._b) ≤ 128).
Proof.
  apply (wake_publishes_counters (Run.supplied 128).1 (Run.wake (Run.supplied 128)).1
           (Run.supplied 128).2 (Run.wake (Run.supplied 128)).2 128 0).
  - exact (proj1 table_ok).
  - apply no_requests_keep.
  - vm_compute. reflexivity.
  - vm_compute. reflexivity.
  - vm_compute. reflexivity.
  - unfold int32. lia.
  - vm_compute. split; [discriminate | reflexivity].
  - vm_compute. reflexivity.
Defined.

(** C6 fails as stated. The audio state right after the broadcast is the
    same whether the engine answers 32 or 64 to [csoundGetKsmps], and
    neither number is in it: no field of it is the block size. (The
    thread keeps the answer in its variable [ksmps].) *)
Lemma ksmps_is_not_in_audio_state :
  csoundGetKsmps (Run.initialized 32).(csound) = 32
  ∧ csoundGetKsmps (Run.initialized 64).(csound) = 64
  ∧ Worker.sabCreateRealtimeAudioThread
      {| Main.args_audioStateBuffer := 0%nat; Main.args_csound := 1 |}
      (after Main.csoundStart (Run.initialized 32))
    = Some (Run.start (Run.initialized 32))
  ∧ Worker.sabCreateRealtimeAudioThread
      {| Main.args_audioStateBuffer := 0%nat; Main.args_csound := 1 |}
      (after Main.csoundStart (Run.initialized 64))
    = Some (Run.start (Run.initialized 64))
  ∧ (Run.start (Run.initialized 32)).2.(trace)
    = [broadcastPlayState "realtimePerformanceStarted"]
  ∧ contents (audioStateView 0%nat) (Run.start (Run.initialized 32)).2
    = Some [1; 0; 0; 0; 1; 1; 44100; 512; 128; 0; 0; 0; 0; 1; 0; 0]
  ∧ contents (audioStateView 0%nat) (Run.start (Run.initialized 64)).2
    = Some [1; 0; 0; 0; 1; 1; 44100; 512; 128; 0; 0; 0; 0; 1; 0; 0]
  ∧ (Run.start (Run.initialized 32)).1.(Worker.ksmps) = 32
  ∧ (Run.start (Run.initialized 64)).1.(Worker.ksmps) = 64
  ∧ Forall (λ v, v ≠ 32 ∧ v ≠ 64)
      [1; 0; 0; 0; 1; 1; 44100; 512; 128; 0; 0; 0; 0; 1; 0; 0].
Proof.
  repeat apply conj; try (vm_compute; reflexivity).
  repeat constructor; discriminate.
Qed.

Lemma realtimePerformanceStarted_audio_state_witness :
  (Run.start (Run.initialized 32)).2.(trace)
  = (after Main.csoundStart (Run.initialized 32)).(trace)
    ++ [broadcastPlayState "realtimePerformanceStarted"]
  ∧ word (audioStateView 0%nat) AUDIO_STATE.(IS_PERFORMING)
      (Run.start (Run.initialized 32)).2 = Some 1
  ∧ word (audioStateView 0%nat) AUDIO_STATE.(NCHNLS)
      (Run.start (Run.initialized 32)).2 = Some (ToInt32 1)
  ∧ word (audioStateView 0%nat) AUDIO_STATE.(SAMPLE_RATE)
      (Run.start (Run.initialized 32)).2 = Some (ToInt32 44100)
  ∧ (Run.start (Run.initialized 32)).1.(Worker.ksmps) = 32.
Proof.
  destruct (realtimePerformanceStarted_audio_state
              {| Main.args_audioStateBuffer := 0%nat; Main.args_csound := 1 |}
              (after Main.csoundStart (Run.initialized 32))
              (Run.start (Run.initialized 32)).2
              (Run.start (Run.initialized 32)).1)
    as (Htrace & Hperforming & Hnchnls & Hsr & Hksmps & _).
  - exact (proj1 table_ok).
  - vm_compute. reflexivity.
  - repeat split; assumption.
Defined.


(** C8, as the code has it. In the first performance after
    [initialize()] the host and the thread share the audio-state array 0,
    the MIDI message the host queues reaches the engine at the next pass,
    and the host stamps the engine's sample rate onto the audio backend.
    [reset()] gives the host a fresh array, number 1, but [start()] still
    hands the worker the array bound at [initialize()], number 0: in the
    performance after [reset()] the same MIDI message is counted in an
    array the thread never reads and does not reach the engine, and the
    host stamps a sample rate of 0 onto the audio backend. *)
Theorem reset_then_start_differs :
  (Run.start (Run.initialized 32)).1.(Worker.audioStatePointer) = audioStateView 0%nat
  ∧ (Run.start (Run.initialized 32)).2.(main).(audioStatePointer) = 0%nat
  ∧ (Run.performance (Run.initialized 32)).2.(csound).(Scenario.midiMessages)
    = [(144, 60, 100)]
  ∧ (Run.performance (Run.initialized 32)).2.(main).(audioWorker).(sampleRate) = 44100
  ∧ Main.csoundReset (Run.initialized 32) = Some (inr 0, Run.reset)
  ∧ (Run.start Run.reset).1.(Worker.audioStatePointer) = audioStateView 0%nat
  ∧ (Run.start Run.reset).2.(main).(audioStatePointer) = 1%nat
  ∧ (Run.performance Run.reset).2.(csound).(Scenario.midiMessages) = []
  ∧ (Run.performance Run.reset).2.(main).(audioWorker).(sampleRate) = 0
  ∧ word (audioStateView 1%nat) AUDIO_STATE.(AVAIL_RTMIDI_EVENTS)
      (Run.performance Run.reset).2 = Some 1
  ∧ word (audioStateView 0%nat) AUDIO_STATE.(AVAIL_RTMIDI_EVENTS)
      (Run.performance Run.reset).2 = Some 0.
Proof. repeat apply conj; vm_compute; reflexivity. Qed.

(** C9 fails as stated. With [MIDI_BUFFER_SIZE] 1024 and a payload of 3
    words the ring holds 341 events. When 341 events are pending from
    cursor 0 (the words 0 to 1022), the next call writes the words 1023,
    1024 and 1025: it does not wrap, and the oldest pending event (the
    words 0, 1 and 2), like every other pending event, is as it was. *)
Lemma handleMidiInput_misses_oldest_event :
  MIDI_BUFFER_SIZE `div` MIDI_BUFFER_PAYLOAD_SIZE = 341
  ∧ word (audioStateView 0%nat) AUDIO_STATE.(AVAIL_RTMIDI_EVENTS) (Run.flooded 341).2
    = Some 341
  ∧ word (audioStateView 0%nat) AUDIO_STATE.(RTMIDI_INDEX) (Run.flooded 341).2 = Some 0
  ∧ take 3 (Run.flooded 341).2.(midiBuffer) = [144; 60; 100]
  ∧ fst <$> Main.handleMidiInput 176 7 64 (Run.flooded 341).2 = Some ()
  ∧ take 1023 (after (Main.handleMidiInput 176 7 64) (Run.flooded 341).2).(midiBuffer)
    = take 1023 (Run.flooded 341).2.(midiBuffer)
  ∧ take 3 (drop 1023
              (after (Main.handleMidiInput 176 7 64) (Run.flooded 341).2).(midiBuffer))
    = [176; 7; 64]
  ∧ word (audioStateView 0%nat) AUDIO_STATE.(AVAIL_RTMIDI_EVENTS)
      (after (Main.handleMidiInput 176 7 64) (Run.flooded 341).2) = Some 342.
Proof. repeat apply conj; vm_compute; reflexivity. Qed.

Lemma handleMidiInput_no_capacity_check_witness :
  ∃ w', Main.handleMidiInput 176 7 64 (Run.flooded 1024).2 = Some ((), w')
    ∧ take 3 w'.(midiBuffer) = [176; 7; 64]
    ∧ word (audioStateView 0%nat) AUDIO_STATE.(AVAIL_RTMIDI_EVENTS) w' = Some 1025.
Proof.
  destruct (handleMidiInput_no_capacity_check (Run.flooded 1024).2 176 7 64 1024 0)
    as (w' & Hrun & Hbuffer & Hpending & _ & Hlap).
  - discriminate.
  - vm_compute. reflexivity.
  - vm_compute. reflexivity.
  - discriminate.
  - vm_compute. split; [discriminate | reflexivity].
  - reflexivity.
  - reflexivity.
  - discriminate.
  - vm_compute. lia.
  - exists w'. split; [exact Hrun|]. split; [|exact Hpending].
    rewrite Hbuffer, (Hlap eq_refl eq_refl). vm_compute. reflexivity.
Defined.

Lemma csoundPause_csoundResume_guard_fails_witness :
  Main.csoundPause Run.stopping.2 = Some ((), Run.stopping.2)
  ∧ Main.csoundResume Run.stopping.2 = Some ((), Run.stopping.2).
Proof.
  destruct (csoundPause_csoundResume_guard_fails Run.stopping.2 0 1 0) as [Hpause Hresume].
  - vm_compute. reflexivity.
  - vm_compute. reflexivity.
  - vm_compute. reflexivity.
  - split; [apply Hpause | apply Hresume]; right; left; reflexivity.
Defined.

End Examples.
(** ** What a computation keeps, and where it gets to *)

Section Keeps.
Context `{LibraryCsound}.
Context {B : Type} (f : World → B).

Lemma keeps_ret {A} (a : A) : keeps f (mret a).
Proof. by intros w b w' [_ ->]%ret_Some. Qed.

Lemma keeps_bind {A C} (m : M A) (k : A → M C) :
  keeps f m → (∀ a, keeps f (k a)) → keeps f (m ≫= k).
Proof.
  intros Hm Hk w b w' (a & w1 & H1 & H2)%bind_Some.
  rewrite (Hk _ _ _ _ H2). by apply (Hm _ _ _ H1).
Qed.

Lemma keeps_RangeError {A} : keeps f (RangeError : M A).
Proof. by intros w a w'. Qed.

Lemma keeps_reads {A} (m : M A) : reads m → keeps f m.
Proof. intros Hm w a w' Hrun. by rewrite (Hm _ _ _ Hrun). Qed.

Lemma keeps_gets {A} (g : World → A) : keeps f (gets g).
Proof. apply keeps_reads, reads_gets. Qed.

Lemma keeps_modify (g : World → World) : (∀ w, f (g w) = f w) → keeps f (modify g).
Proof.
  intros Hg w a w' Hrun.
  assert (w' = g w) as -> by (injection Hrun; congruence). apply Hg.
Qed.

Lemma keeps_ToIndex i : keeps f (ToIndex i).
Proof.
  unfold ToIndex. destruct (_ <? 0); [apply keeps_RangeError | apply keeps_ret].
Qed.

Lemma keeps_load r i : keeps f (Atomics_load r i).
Proof. apply keeps_reads, reads_load. Qed.

Lemma keeps_wait r i v : keeps f (Atomics_wait r i v).
Proof. apply keeps_reads, reads_wait. Qed.

Lemma keeps_store r i v :
  (∀ l w, f (set_contents r l w) = f w) → keeps f (Atomics_store r i v).
Proof. by intros Hf w u w' (l & _ & _ & ->)%Atomics_store_Some. Qed.

Lemma keeps_add r i v :
  (∀ l w, f (set_contents r l w) = f w) → keeps f (Atomics_add r i v).
Proof. by intros Hf w u w' (l & _ & _ & ->)%Atomics_add_Some. Qed.

Lemma keeps_sub r i v :
  (∀ l w, f (set_contents r l w) = f w) → keeps f (Atomics_sub r i v).
Proof. by intros Hf w u w' (l & _ & _ & ->)%Atomics_sub_Some. Qed.

Lemma keeps_for_each {A X} (l : list A) (body : A → X → M X) (x : X) :
  (∀ a x, keeps f (body a x)) → keeps f (for_each l body x).
Proof.
  intros Hbody. revert x. induction l as [|a l IH]; intros x; simpl.
  - apply keeps_ret.
  - apply keeps_bind; [apply Hbody | apply IH].
Qed.

End Keeps.

(** [keeps_step] takes a computation apart along its structure; what
    changes the world is left to the caller. *)
Ltac keeps_step :=
  lazymatch goal with
  | |- keeps _ (mret _) => apply keeps_ret
  | |- keeps _ RangeError => apply keeps_RangeError
  | |- keeps _ (gets _) => apply keeps_gets
  | |- keeps _ (ToIndex _) => apply keeps_ToIndex
  | |- keeps _ (Atomics_load _ _) => apply keeps_load
  | |- keeps _ (Atomics_wait _ _ _) => apply keeps_wait
  | |- keeps _ (for_each _ _ _) => apply keeps_for_each; intros ? ?
  | |- keeps _ (mbind _ _) => apply keeps_bind; [|intros ?]
  | |- keeps _ (if ?b then _ else _) => destruct b
  | |- keeps _ (match ?x with _ => _ end) => destruct x
  | |- keeps _ ((match ?x with _ => _ end) _) => destruct x
  | |- keeps _ (let _ := _ in _) => cbv zeta
  end.

Section Runs.
Context `{LibraryCsound}.

Lemma runs_ret {A} (a : A) (Q : A → World → Prop) w : Q a w → runs (mret a) Q w.
Proof. intros. by exists a, w. Qed.

Lemma runs_bind {A C} (m : M A) (k : A → M C) (Q : C → World → Prop) w :
  runs m (λ a w1, runs (k a) Q w1) w → runs (m ≫= k) Q w.
Proof.
  intros (a & w1 & Hm & c & w2 & Hk & HQ). exists c, w2.
  by rewrite (bind_run _ _ _ _ _ Hm).
Qed.

Lemma runs_mono {A} (m : M A) (Q Q' : A → World → Prop) w :
  runs m Q w → (∀ a w', Q a w' → Q' a w') → runs m Q' w.
Proof. intros (a & w' & ? & ?) HQ. exists a, w'. eauto. Qed.

Lemma runs_gets {A} (g : World → A) (Q : A → World → Prop) w :
  Q (g w) w → runs (gets g) Q w.
Proof. intros. by exists (g w), w. Qed.

Lemma runs_modify (g : World → World) (Q : () → World → Prop) w :
  Q () (g w) → runs (modify g) Q w.
Proof. intros. by exists (), (g w). Qed.

Lemma runs_emit e (Q : () → World → Prop) w :
  Q () (set_trace (w.(trace) ++ [e]) w) → runs (emit e) Q w.
Proof. apply runs_modify. Qed.

Lemma runs_load r i v (Q : Z → World → Prop) w :
  word r i w = Some v → Q v w → runs (Atomics_load r i) Q w.
Proof. intros Hv HQ. exists v, w. split; [by apply Atomics_load_run | done]. Qed.

Lemma runs_store r i v l (Q : () → World → Prop) w :
  contents r w = Some l → (i < length l)%nat →
  Q () (set_contents r (<[i := ToInt32 v]> l) w) →
  runs (Atomics_store r i v) Q w.
Proof. intros Hl Hi HQ. eexists _, _. split; [by apply Atomics_store_run | done]. Qed.

Lemma runs_add r i v l old (Q : Z → World → Prop) w :
  contents r w = Some l → l !! i = Some old →
  Q old (set_contents r (<[i := ToInt32 (old + v)]> l) w) →
  runs (Atomics_add r i v) Q w.
Proof. intros Hl Hi HQ. eexists _, _. split; [apply Atomics_add_Some; eauto | done]. Qed.

Lemma runs_sub r i v l old (Q : Z → World → Prop) w :
  contents r w = Some l → l !! i = Some old →
  Q old (set_contents r (<[i := ToInt32 (old - v)]> l) w) →
  runs (Atomics_sub r i v) Q w.
Proof. intros Hl Hi HQ. eexists _, _. split; [apply Atomics_sub_Some; eauto | done]. Qed.

Lemma runs_notify r i v (Q : () → World → Prop) w :
  word r i w = Some v →
  Q () (set_trace (w.(trace) ++ [notify r i]) w) → runs (Atomics_notify r i) Q w.
Proof.
  intros Hv HQ. eexists _, _. split; [by eapply Atomics_notify_run | done].
Qed.

Lemma runs_for_each_emit {A} (l : list A) (g : A → Event) (Q : () → World → Prop) w :
  Q () (set_trace (w.(trace) ++ (g <$> l)) w) →
  runs (for_each l (λ a _, emit (g a)) ()) Q w.
Proof. intros HQ. eexists _, _. split; [apply for_each_emit_run | done]. Qed.

Lemma runs_Some {A} (m : M A) (Q : A → World → Prop) w a w' :
  m w = Some (a, w') → runs m Q w → Q a w'.
Proof. intros Hrun (a' & w'' & Hrun' & HQ). congruence. Qed.

End Runs.
(** ** The host between the play-state changes *)

Section HostRuns.
Context `{Constants} `{LibraryCsound}.

(** What the host has done when it has processed a play-state change
    other than the start and the end of a real-time performance. *)
Lemma onPlayStateChange_other (s : string) (w : World) :
  s ≠ "realtimePerformanceStarted" → s ≠ "realtimePerformanceEnded" →
  Main.onPlayStateChange s w
  = Some ((),
      {| sab := w.(sab); midiBuffer := w.(midiBuffer);
         callbackBuffer := w.(callbackBuffer);
         audioStreamIn := w.(audioStreamIn); audioStreamOut := w.(audioStreamOut);
         main :=
           {| audioStatePointer := w.(main).(audioStatePointer);
              currentPlayState := Some s;
              startPromiz := None;
              stopPromiz := if decide (s = "renderEnded") then None
                            else w.(main).(stopPromiz);
              csoundPlayStateChangeCallbacks := w.(main).(csoundPlayStateChangeCallbacks);
              audioWorker := w.(main).(audioWorker);
              csoundInstance := w.(main).(csoundInstance);
              audioStateBuffer := w.(main).(audioStateBuffer) |};
         csound := w.(csound); promises := w.(promises);
         resolved :=
           option_list w.(main).(startPromiz)
           ++ (if decide (s = "renderEnded") then option_list w.(main).(stopPromiz)
               else [])
           ++ w.(resolved);
         trace :=
           w.(trace)
           ++ (if decide (s = "realtimePerformancePaused")
               then [trigger "RealtimePerformancePaused"]
               else if decide (s = "realtimePerformanceResumed")
               then [trigger "RealtimePerformanceResumed"]
               else if decide (s = "renderStarted") then [trigger "RenderStarted"]
               else if decide (s = "renderEnded") then [trigger "RenderEnded"]
               else [])
           ++ [audioWorker_onPlayStateChange s]
           ++ ((λ callback, playStateChangeCallback callback s)
                 <$> w.(main).(csoundPlayStateChangeCallbacks)) |}).
Proof.
  intros Hs He. unfold Main.onPlayStateChange.
  destruct w as [? ? ? ? ? [? ? start stop ? ? ? ?] ? ? ? ?].
  repeat case_decide; try congruence;
    destruct start, stop.
  all: unfold Main.resolve, Main.set_startPromiz, Main.set_currentPlayState,
        Main.settle_stopPromiz, Main.set_stopPromiz, Main.this, modify, gets;
      unfold mbind, M_bind, mret, M_ret; simpl.
  all: (etransitivity;
        [exact (for_each_emit_run _ (λ c, playStateChangeCallback c s) _)|]).
  all: unfold set_trace; simpl; rewrite <- ?app_assoc; reflexivity.
Qed.

(** The three loads of the guards of [csoundPause] and [csoundResume]. *)
Lemma guard_run (view : Int32Array) (w : World) (paused stop performing : Z)
    (test : Z → bool) :
  word view AUDIO_STATE.(IS_PAUSED) w = Some paused →
  word view AUDIO_STATE.(STOP) w = Some stop →
  word view AUDIO_STATE.(IS_PERFORMING) w = Some performing →
  ((v ← Atomics_load view AUDIO_STATE.(IS_PAUSED); mret (test v)) &&&
   (v ← Atomics_load view AUDIO_STATE.(STOP); mret (negb (v =? 1))) &&&
   (v ← Atomics_load view AUDIO_STATE.(IS_PERFORMING); mret (v =? 1))) w
  = Some (test paused && negb (stop =? 1) && (performing =? 1), w).
Proof.
  intros Hp Hs Hf. apply Atomics_load_run in Hp, Hs, Hf.
  unfold and_then, mbind, M_bind, mret, M_ret. rewrite Hp.
  destruct (test paused); simpl; [|done].
  rewrite Hs. destruct (stop =? 1); simpl; [done|].
  rewrite Hf. by destruct (performing =? 1).
Qed.

(** The guards only read, and they fail where the test of [IS_PAUSED]
    fails. *)
Lemma guard_reads (view : Int32Array) (test : Z → bool) :
  reads ((v ← Atomics_load view AUDIO_STATE.(IS_PAUSED); mret (test v)) &&&
         (v ← Atomics_load view AUDIO_STATE.(STOP); mret (negb (v =? 1))) &&&
         (v ← Atomics_load view AUDIO_STATE.(IS_PERFORMING); mret (v =? 1))).
Proof.
  unfold and_then.
  repeat first
    [ apply reads_ret | apply reads_load
    | apply reads_bind; [|intros ?]
    | match goal with |- reads (if ?b then _ else _) => destruct b end ].
Qed.

Lemma guard_fails (view : Int32Array) (w : World) (paused : Z) (test : Z → bool) :
  word view AUDIO_STATE.(IS_PAUSED) w = Some paused →
  test paused = false →
  ((v ← Atomics_load view AUDIO_STATE.(IS_PAUSED); mret (test v)) &&&
   (v ← Atomics_load view AUDIO_STATE.(STOP); mret (negb (v =? 1))) &&&
   (v ← Atomics_load view AUDIO_STATE.(IS_PERFORMING); mret (v =? 1))) w
  = Some (false, w).
Proof.
  intros Hp Htest. apply Atomics_load_run in Hp.
  unfold and_then, mbind, M_bind, mret, M_ret. by rewrite Hp, Htest.
Qed.



(** The host processing [realtimePerformanceStarted]: the parameters of
    the performance go from the audio state onto the audio backend. *)
Lemma onPlayStateChange_started (w : World) (l : list Z)
    (outputs inputs midi rate hardware software : Z) :
  contents (host_view w) w = Some l →
  l !! AUDIO_STATE.(NCHNLS) = Some outputs →
  l !! AUDIO_STATE.(NCHNLS_I) = Some inputs →
  l !! AUDIO_STATE.(IS_REQUESTING_RTMIDI) = Some midi →
  l !! AUDIO_STATE.(SAMPLE_RATE) = Some rate →
  l !! AUDIO_STATE.(HW_BUFFER_SIZE) = Some hardware →
  l !! AUDIO_STATE.(SW_BUFFER_SIZE) = Some software →
  Main.onPlayStateChange "realtimePerformanceStarted" w
  = Some ((),
      {| sab := w.(sab); midiBuffer := w.(midiBuffer);
         callbackBuffer := w.(callbackBuffer);
         audioStreamIn := w.(audioStreamIn); audioStreamOut := w.(audioStreamOut);
         main :=
           {| audioStatePointer := w.(main).(audioStatePointer);
              currentPlayState := Some "realtimePerformanceStarted";
              startPromiz := w.(main).(startPromiz);
              stopPromiz := w.(main).(stopPromiz);
              csoundPlayStateChangeCallbacks := w.(main).(csoundPlayStateChangeCallbacks);
              audioWorker :=
                {| isRequestingInput := 0 <? inputs; isRequestingMidi := midi;
                   sampleRate := rate; inputCount := inputs; outputsCount := outputs;
                   hardwareBufferSize := hardware; softwareBufferSize := software |};
              csoundInstance := w.(main).(csoundInstance);
              audioStateBuffer := w.(main).(audioStateBuffer) |};
         csound := w.(csound); promises := w.(promises);
         resolved := w.(resolved);
         trace :=
           w.(trace)
           ++ [trigger "RealtimePerformanceStarted";
               audioWorker_onPlayStateChange "realtimePerformanceStarted"]
           ++ ((λ callback,
                  playStateChangeCallback callback "realtimePerformanceStarted")
                 <$> w.(main).(csoundPlayStateChangeCallbacks)) |}).
Proof.
  intros Hl H1 H2 H3 H4 H5 H6. unfold Main.onPlayStateChange.
  destruct w as [sab ? ? ? ? [a ? start stop ? ? ? ?] ? ? ? ?].
  unfold host_view in Hl. simpl in Hl.
  case_decide; [|done].
  unfold Main.prepareRealtimePerformance, Main.set_audioWorker,
    Main.this_audioStatePointer, Main.set_currentPlayState, Main.this,
    Atomics_load, modify, gets.
  unfold mbind, M_bind, mret, M_ret, option_bind, option_ret; simpl.
  rewrite Hl; simpl. rewrite H1; simpl. rewrite Hl; simpl. rewrite H2; simpl.
  rewrite Hl; simpl. rewrite H3; simpl. rewrite Hl; simpl. rewrite H4; simpl.
  rewrite Hl; simpl. rewrite H5; simpl. rewrite Hl; simpl. rewrite H6; simpl.
  destruct start; simpl.
  all: (etransitivity;
        [exact (for_each_emit_run _
                  (λ c, playStateChangeCallback c "realtimePerformanceStarted") _)|]).
  all: unfold set_trace; simpl; rewrite <- ?app_assoc; reflexivity.
Qed.

(** The host processing [realtimePerformanceEnded]: the pending [stop()]
    and [start()] are resolved and the template goes into the host's
    audio-state array. *)
Lemma onPlayStateChange_ended (w : World) (l : list Z) :
  contents (host_view w) w = Some l →
  length l = length initialSharedState →
  Main.onPlayStateChange "realtimePerformanceEnded" w
  = Some ((),
      {| sab := <[w.(main).(audioStatePointer) := ToInt32 <$> initialSharedState]> w.(sab);
         midiBuffer := w.(midiBuffer);
         callbackBuffer := w.(callbackBuffer);
         audioStreamIn := w.(audioStreamIn); audioStreamOut := w.(audioStreamOut);
         main :=
           {| audioStatePointer := w.(main).(audioStatePointer);
              currentPlayState := Some "realtimePerformanceEnded";
              startPromiz := None;
              stopPromiz := None;
              csoundPlayStateChangeCallbacks := w.(main).(csoundPlayStateChangeCallbacks);
              audioWorker := w.(main).(audioWorker);
              csoundInstance := w.(main).(csoundInstance);
              audioStateBuffer := w.(main).(audioStateBuffer) |};
         csound := w.(csound); promises := w.(promises);
         resolved :=
           option_list w.(main).(startPromiz) ++ option_list w.(main).(stopPromiz)
           ++ w.(resolved);
         trace :=
           w.(trace)
           ++ [trigger "RealtimePerformanceEnded";
               audioWorker_onPlayStateChange "realtimePerformanceEnded"]
           ++ ((λ callback,
                  playStateChangeCallback callback "realtimePerformanceEnded")
                 <$> w.(main).(csoundPlayStateChangeCallbacks)) |}).
Proof.
  intros Hl Hlen. unfold Main.onPlayStateChange.
  case_decide; [done|]. case_decide; [|done].
  rewrite (bind_run (Main.set_currentPlayState _) _ w () _ eq_refl).
  match goal with |- _ ?x = _ => set (w1 := x) end.
  assert (Hl1 : contents (host_view w1) w1 = Some l) by exact Hl.
  assert (∃ w2, Main.settle_stopPromiz w1 = Some ((), w2)
                ∧ w2 = set_promises w.(promises)
                         (option_list w.(main).(stopPromiz) ++ w.(resolved))
                         (set_main
                            {| audioStatePointer := w.(main).(audioStatePointer);
                               currentPlayState := Some "realtimePerformanceEnded";
                               startPromiz := w.(main).(startPromiz);
                               stopPromiz := None;
                               csoundPlayStateChangeCallbacks :=
                                 w.(main).(csoundPlayStateChangeCallbacks);
                               audioWorker := w.(main).(audioWorker);
                               csoundInstance := w.(main).(csoundInstance);
                               audioStateBuffer := w.(main).(audioStateBuffer) |} w))
    as (w2 & Hrun2 & Hw2).
  { unfold w1. destruct w as [? ? ? ? ? [? ? ? stop ? ? ? ?] ? ? ? ?].
    destruct stop; eexists; (split; [reflexivity|]); done. }
  set (w3 := set_trace (w2.(trace) ++ [trigger "RealtimePerformanceEnded"]) w2).
  assert (Hl3 : contents (host_view w3) w3 = Some l) by (unfold w3; by subst w2).
  pose proof (store_values_run host_view initialSharedState
                host_view_set_contents 0 l w3 Hl3 ltac:(lia)) as Hrun4.
  simpl in Hrun4. rewrite <- Hlen, drop_all, app_nil_r in Hrun4.
  set (w4 := set_contents (host_view w3) (ToInt32 <$> initialSharedState) w3) in *.
  rewrite (bind_run _ _ w1 () w4).
  2:{ rewrite (bind_run _ _ _ _ _ Hrun2).
      rewrite (bind_run (emit _) _ w2 () w3 eq_refl). exact Hrun4. }
  unfold w4, w3. subst w2. clear.
  destruct w as [? ? ? ? ? [? ? start stop ? ? ? ?] ? ? ? ?].
  destruct start.
  all: unfold Main.resolve, Main.set_startPromiz, Main.this, emit, modify, gets;
      unfold mbind, M_bind, mret, M_ret; simpl.
  all: (etransitivity;
        [exact (for_each_emit_run _
                  (λ c, playStateChangeCallback c "realtimePerformanceEnded") _)|]).
  all: unfold set_trace; simpl; rewrite <- ?app_assoc; reflexivity.
Qed.

End HostRuns.
Section HostExtras.
Context `{Constants} `{LibraryCsound}.



End HostExtras.
Section HostExtras2.
Context `{Constants} `{LibraryCsound}.

(** X3. A second [pause()] right after a [pause()] does nothing, whatever
    the first one did, and likewise a second [resume()] after a
    [resume()]: no word is written and no play-state change is announced
    twice. *)
Theorem csoundPause_csoundResume_twice (w : World) :
  (Main.csoundPause;; Main.csoundPause) w = Main.csoundPause w
  ∧ (Main.csoundResume;; Main.csoundResume) w = Main.csoundResume w.
Proof.
  split.
  - destruct (Main.csoundPause w) as [[[] w']|] eqn:Hrun;
      [|by unfold mbind, M_bind; rewrite Hrun].
    rewrite (bind_run _ _ _ _ _ Hrun).
    unfold Main.csoundPause in Hrun.
    apply bind_Some in Hrun as (p & ? & [-> ->]%gets_Some & Hrun).
    apply bind_Some in Hrun as (g & w1 & Hguard & Hrun).
    pose proof (guard_reads _ _ _ _ _ Hguard) as ->.
    destruct g.
    + apply bind_Some in Hrun as ([] & w2 & Hstore & Hrun).
      apply Atomics_store_Some in Hstore as (l & Hl & Hlt & ->).
      rewrite onPlayStateChange_other in Hrun by done.
      injection Hrun as <-.
      unfold Main.csoundPause.
      match goal with
      | |- (Main.this_audioStatePointer ≫= ?k) ?w1 = _ =>
          rewrite (bind_run Main.this_audioStatePointer k w1 (host_view w) w1 eq_refl)
      end.
      match goal with |- _ ?w1 = _ => set (w' := w1) end.
      assert (Hword : word (host_view w) AUDIO_STATE.(IS_PAUSED) w' = Some 1).
      { change (word (host_view w) AUDIO_STATE.(IS_PAUSED)
                  (set_contents (host_view w)
                     (<[AUDIO_STATE.(IS_PAUSED) := ToInt32 1]> l) w) = Some 1).
        rewrite word_set_contents by (by exists l).
        by apply list_lookup_insert_eq. }
      by rewrite (bind_run _ _ _ _ _
                    (guard_fails (host_view w) w' 1 (λ v, negb (v =? 1)) Hword eq_refl)).
    + apply ret_Some in Hrun as [_ ->].
      unfold Main.csoundPause.
      rewrite (bind_run Main.this_audioStatePointer _ w (host_view w) w eq_refl).
      by rewrite (bind_run _ _ _ _ _ Hguard).
  - destruct (Main.csoundResume w) as [[[] w']|] eqn:Hrun;
      [|by unfold mbind, M_bind; rewrite Hrun].
    rewrite (bind_run _ _ _ _ _ Hrun).
    unfold Main.csoundResume in Hrun.
    apply bind_Some in Hrun as (p & ? & [-> ->]%gets_Some & Hrun).
    apply bind_Some in Hrun as (g & w1 & Hguard & Hrun).
    pose proof (guard_reads _ _ _ _ _ Hguard) as ->.
    destruct g.
    + apply bind_Some in Hrun as ([] & w2 & Hstore & Hrun).
      apply Atomics_store_Some in Hstore as (l & Hl & Hlt & ->).
      apply bind_Some in Hrun as ([] & w3 & Hnotify & Hrun).
      apply bind_Some in Hnotify as (? & ? & [-> _]%Atomics_load_Some & ->%emit_Some).
      rewrite onPlayStateChange_other in Hrun by done.
      injection Hrun as <-.
      unfold Main.csoundResume.
      match goal with
      | |- (Main.this_audioStatePointer ≫= ?k) ?w1 = _ =>
          rewrite (bind_run Main.this_audioStatePointer k w1 (host_view w) w1 eq_refl)
      end.
      match goal with |- _ ?w1 = _ => set (w' := w1) end.
      assert (Hword : word (host_view w) AUDIO_STATE.(IS_PAUSED) w' = Some 0).
      { change (word (host_view w) AUDIO_STATE.(IS_PAUSED)
                  (set_contents (host_view w)
                     (<[AUDIO_STATE.(IS_PAUSED) := ToInt32 0]> l) w) = Some 0).
        rewrite word_set_contents by (by exists l).
        by apply list_lookup_insert_eq. }
      by rewrite (bind_run _ _ _ _ _
                    (guard_fails (host_view w) w' 0 (λ v, v =? 1) Hword eq_refl)).
    + apply ret_Some in Hrun as [_ ->].
      unfold Main.csoundResume.
      rewrite (bind_run Main.this_audioStatePointer _ w (host_view w) w eq_refl).
      by rewrite (bind_run _ _ _ _ _ Hguard).
Qed.

End HostExtras2.
Section HostExtras3.
Context `{Constants} `{LibraryCsound}.

(** X5. A play-state change other than the start and the end of a real-time
    performance, known to the host or not, becomes the current play
    state and is passed on: after the listeners of the events, the audio
    backend gets it, and then every registered callback, in the order of
    registration. The shared arrays, the engine and what was stamped
    onto the audio backend are as before. *)
Theorem onPlayStateChange_forwards (s : string) (w : World) :
  s ≠ "realtimePerformanceStarted" → s ≠ "realtimePerformanceEnded" →
  ∃ w' events,
    Main.onPlayStateChange s w = Some ((), w')
    ∧ w'.(main).(currentPlayState) = Some s
    ∧ w'.(trace)
      = w.(trace) ++ events ++ [audioWorker_onPlayStateChange s]
        ++ ((λ callback, playStateChangeCallback callback s)
              <$> w.(main).(csoundPlayStateChangeCallbacks))
    ∧ Forall (λ e, ∃ event, e = trigger event) events
    ∧ w'.(sab) = w.(sab)
    ∧ w'.(midiBuffer) = w.(midiBuffer)
    ∧ w'.(csound) = w.(csound)
    ∧ w'.(main).(audioWorker) = w.(main).(audioWorker).
Proof.
  intros Hs He. rewrite onPlayStateChange_other by done.
  eexists _, _. split; [reflexivity|]. simpl.
  split; [done|]. split; [reflexivity|]. split; [|done].
  repeat case_decide; repeat constructor; eauto.
Qed.

(** X6. [start()] on a host that has an engine instance hands the worker the
    audio-state buffer bound at [initialize()] and waits for a promise of
    its own. The host processing [realtimePerformanceStarted] leaves that
    promise pending (the audio backend is to resolve it), and processing
    any other play-state change resolves it. *)
Theorem csoundStart_awaits_startPromiz (w : World) (instance : Z) (l : list Z) :
  w.(main).(csoundInstance) = Some instance →
  instance ≠ 0 →
  Forall (λ p, (p < w.(promises))%nat) w.(resolved) →
  constants_ok →
  contents (host_view w) w = Some l →
  length l = length initialSharedState →
  let startPromise := w.(promises) in
  ∃ w1,
    Main.csoundStart w
    = Some (inr ({| Main.args_audioStateBuffer := w.(main).(audioStateBuffer);
                    Main.args_csound := instance |}, startPromise), w1)
    ∧ (startPromise ∉ w1.(resolved))
    ∧ (∃ w2, Main.onPlayStateChange "realtimePerformanceStarted" w1 = Some ((), w2)
             ∧ (startPromise ∉ w2.(resolved))
             ∧ w2.(main).(startPromiz) = Some startPromise)
    ∧ ∀ s, s ≠ "realtimePerformanceStarted" →
        ∃ w2, Main.onPlayStateChange s w1 = Some ((), w2)
              ∧ startPromise ∈ w2.(resolved)
              ∧ w2.(main).(startPromiz) = None.
Proof.
  intros Hinstance Hne Hfresh (Hnd & Hin & _) Hl Hlen startPromise.
  assert (Hp : startPromise ∉ w.(resolved)).
  { intros Hp.
    apply (Forall_forall (A:=nat)) with (x := startPromise) in Hfresh; [|done].
    unfold startPromise in Hfresh. lia. }
  unfold Main.csoundStart.
  rewrite (bind_run Main.this _ w w.(main) w eq_refl), Hinstance.
  destruct (Z.eqb_spec instance 0); [done|].
  rewrite (bind_run Main.new_Promise _ w _ _ eq_refl).
  rewrite (bind_run (Main.set_startPromiz _) _ _ _ _ eq_refl).
  eexists. split; [reflexivity|].
  match goal with |- (_ ∉ resolved ?x) ∧ _ => set (w1 := x) end.
  assert (Hl1 : contents (host_view w1) w1 = Some l) by exact Hl.
  split; [exact Hp|]. split.
  - assert (Hword : ∀ n, n ∈ audio_state_fields AUDIO_STATE → is_Some (l !! n)).
    { intros field Hfield. apply lookup_lt_is_Some. rewrite Hlen.
      apply Forall_cons in Hin as [_ Hin].
      by apply (proj1 (Forall_forall _ _) Hin). }
    destruct (Hword AUDIO_STATE.(NCHNLS)) as [outputs ?]; [set_solver|].
    destruct (Hword AUDIO_STATE.(NCHNLS_I)) as [inputs ?]; [set_solver|].
    destruct (Hword AUDIO_STATE.(IS_REQUESTING_RTMIDI)) as [midi ?]; [set_solver|].
    destruct (Hword AUDIO_STATE.(SAMPLE_RATE)) as [rate ?]; [set_solver|].
    destruct (Hword AUDIO_STATE.(HW_BUFFER_SIZE)) as [hardware ?]; [set_solver|].
    destruct (Hword AUDIO_STATE.(SW_BUFFER_SIZE)) as [software ?]; [set_solver|].
    rewrite (onPlayStateChange_started w1 l outputs inputs midi rate hardware software)
      by done.
    eexists. split; [reflexivity|]. done.
  - intros s Hs. destruct (decide (s = "realtimePerformanceEnded")) as [->|He].
    + rewrite (onPlayStateChange_ended w1 l) by done.
      eexists. split; [reflexivity|]. simpl. split; [set_solver|done].
    + rewrite onPlayStateChange_other by done.
      eexists. split; [reflexivity|]. simpl. split; [set_solver|done].
Qed.

(** The callbacks registered with [addCsoundPlayStateChangeCallback] are
    kept in the order of the calls, and a value that is not a function
    is not registered. *)
Lemma addCsoundPlayStateChangeCallback_run (callbacks : list Main.Value) (w : World) :
  ∃ w', for_each callbacks
          (λ callback _, Main.addCsoundPlayStateChangeCallback callback) () w
        = Some ((), w')
    ∧ w'.(main).(csoundPlayStateChangeCallbacks)
      = w.(main).(csoundPlayStateChangeCallbacks)
        ++ omap (λ v, match v with
                      | Main.function f => Some f
                      | Main.not_a_function => None
                      end) callbacks
    ∧ w'.(trace) = w.(trace)
    ∧ w'.(sab) = w.(sab).
Proof.
  revert w. induction callbacks as [|[f|] callbacks IH]; intros w; simpl.
  - exists w. by rewrite app_nil_r.
  - rewrite (bind_run (Main.addCsoundPlayStateChangeCallback (Main.function f)) _
               w () _ eq_refl).
    match goal with
    | |- ∃ _, _ ?x = _ ∧ _ =>
        destruct (IH x) as (w' & Hrun & Hcallbacks & Htrace & Hsab)
    end.
    exists w'. split; [exact Hrun|]. simpl in *.
    rewrite Hcallbacks, <- app_assoc. done.
  - apply IH.
Qed.

(** X7. Whatever was registered before, after
    [setCsoundPlayStateChangeCallback(first)] and any number of calls of
    [addCsoundPlayStateChangeCallback], a play-state change calls [first]
    and then the functions that were added, in the order they were added
    and each once; the values among them that are not functions are
    passed over. *)
Theorem csoundPlayStateChangeCallbacks_in_order (w : World) (first : Callback)
    (callbacks : list Main.Value) (s : string) :
  s ≠ "realtimePerformanceStarted" → s ≠ "realtimePerformanceEnded" →
  ∃ w' events,
    (Main.setCsoundPlayStateChangeCallback (Main.function first);;
     for_each callbacks (λ callback _, Main.addCsoundPlayStateChangeCallback callback) ();;
     Main.onPlayStateChange s) w = Some ((), w')
    ∧ w'.(trace)
      = w.(trace) ++ events ++ [audioWorker_onPlayStateChange s]
        ++ ((λ callback, playStateChangeCallback callback s)
              <$> first :: omap (λ v, match v with
                                      | Main.function f => Some f
                                      | Main.not_a_function => None
                                      end) callbacks)
    ∧ Forall (λ e, ∃ event, e = trigger event) events.
Proof.
  intros Hs He.
  rewrite (bind_run (Main.setCsoundPlayStateChangeCallback (Main.function first)) _
             w () _ eq_refl).
  match goal with |- ∃ _ _, (_ ≫= _) ?x = _ ∧ _ => set (w1 := x) end.
  destruct (addCsoundPlayStateChangeCallback_run callbacks w1)
    as (w2 & Hrun & Hcallbacks & Htrace & _).
  rewrite (bind_run _ _ _ _ _ Hrun).
  rewrite onPlayStateChange_other by done.
  eexists _, _. split; [reflexivity|]. simpl.
  rewrite Hcallbacks, Htrace. split; [reflexivity|].
  repeat case_decide; repeat constructor; eauto.
Qed.

(** After a play-state change is processed it is the current play
    state. *)
Lemma onPlayStateChange_currentPlayState (s : string) (w w' : World) :
  Main.onPlayStateChange s w = Some ((), w') →
  w'.(main).(currentPlayState) = Some s.
Proof.
  unfold Main.onPlayStateChange.
  intros ([] & w1 & [= <-] & Hrun)%bind_Some.
  revert Hrun.
  match goal with
  | |- ?m ?x = _ → _ =>
      intros Hrun;
      cut (keeps (λ w, w.(main).(currentPlayState)) m);
      [intros Hkeeps; exact (Hkeeps _ _ _ Hrun)|]
  end.
  unfold Main.prepareRealtimePerformance, Main.settle_stopPromiz, Main.this,
    Main.this_audioStatePointer, Main.set_audioWorker, Main.resolve,
    Main.set_startPromiz, Main.set_stopPromiz, emit.
  repeat first
    [ apply keeps_modify; intros ?; reflexivity
    | apply keeps_store; intros ? ?; apply (f_equal currentPlayState), main_set_contents
    | keeps_step ].
Qed.

(** X8. An API call other than [start], [stop] and [reset] takes the way
    the last play-state change the host has processed selects: the
    callback buffer served by the running thread after
    [realtimePerformanceStarted] and [renderStarted], a message to the
    worker after every other change, [realtimePerformancePaused] and
    [realtimePerformanceResumed] among them. *)
Theorem bufferWrappedCallback_route (s : string) (w w' : World) :
  Main.onPlayStateChange s w = Some ((), w') →
  Main.bufferWrappedCallback w'
  = Some (if decide (s = "realtimePerformanceStarted" ∨ s = "renderStarted")
          then Main.perfCallback else Main.proxyCallback, w').
Proof.
  intros Hstate%onPlayStateChange_currentPlayState.
  unfold Main.bufferWrappedCallback.
  rewrite (bind_run Main.this _ w' w'.(main) w' eq_refl), Hstate.
  unfold mret, M_ret. do 2 f_equal.
  case_decide as Hs.
  - by destruct Hs as [-> | ->].
  - by rewrite !bool_decide_eq_false_2 by (intros [= ->]; tauto).
Qed.

End HostExtras3.
Section StopRuns.
Context `{Constants} `{LibraryCsound}.

Lemma set_trace_twice t1 t2 (w : World) : set_trace t2 (set_trace t1 w) = set_trace t2 w.
Proof. reflexivity. Qed.

Lemma set_contents_set_trace r l t (w : World) :
  set_contents r l (set_trace t w) = set_trace t (set_contents r l w).
Proof. by destruct r. Qed.

Lemma trace_set_contents r l (w : World) : (set_contents r l w).(trace) = w.(trace).
Proof. by destruct r. Qed.

(** [stop()] in a stopable state, up to its [await]. *)
Lemma csoundStop_run (w : World) (l : list Z) :
  has stopableStates w.(main).(currentPlayState) = true →
  contents (host_view w) w = Some l →
  (AUDIO_STATE.(STOP) < length l)%nat →
  (AUDIO_STATE.(IS_PERFORMING) < length l)%nat →
  (AUDIO_STATE.(IS_PAUSED) < length l)%nat →
  (AUDIO_STATE.(ATOMIC_NOFITY) < length l)%nat →
  (AUDIO_STATE.(ATOMIC_NOTIFY) < length l)%nat →
  let state := w.(main).(currentPlayState) in
  let l1 := <[AUDIO_STATE.(IS_PERFORMING) := 0]> (<[AUDIO_STATE.(STOP) := 1]> l) in
  let l2 := if decide (state = Some "realtimePerformancePaused")
            then <[AUDIO_STATE.(IS_PAUSED) := 0]> l1 else l1 in
  let l3 := if decide (state = Some "renderStarted")
            then l2 else <[AUDIO_STATE.(ATOMIC_NOFITY) := 1]> l2 in
  Main.csoundStop w
  = Some (awaits w.(promises) 0,
      {| sab := <[w.(main).(audioStatePointer) := l3]> w.(sab);
         midiBuffer := w.(midiBuffer);
         callbackBuffer := w.(callbackBuffer);
         audioStreamIn := w.(audioStreamIn); audioStreamOut := w.(audioStreamOut);
         main :=
           {| audioStatePointer := w.(main).(audioStatePointer);
              currentPlayState := w.(main).(currentPlayState);
              startPromiz := w.(main).(startPromiz);
              stopPromiz := Some w.(promises);
              csoundPlayStateChangeCallbacks := w.(main).(csoundPlayStateChangeCallbacks);
              audioWorker := w.(main).(audioWorker);
              csoundInstance := w.(main).(csoundInstance);
              audioStateBuffer := w.(main).(audioStateBuffer) |};
         csound := w.(csound); promises := S w.(promises);
         resolved := w.(resolved);
         trace :=
           w.(trace)
           ++ (if decide (state = Some "realtimePerformancePaused")
               then [notify (host_view w) AUDIO_STATE.(IS_PAUSED)] else [])
           ++ (if decide (state = Some "renderStarted")
               then [] else [notify (host_view w) AUDIO_STATE.(ATOMIC_NOTIFY)]) |}).
Proof.
  intros Hstate Hl HSTOP HPERF HPAUSED HNOFITY HNOTIFY state l1 l2 l3.
  assert (Hone : ToInt32 1 = 1) by (vm_compute; reflexivity).
  assert (Hzero : ToInt32 0 = 0) by (vm_compute; reflexivity).
  assert (Ha : (w.(main).(audioStatePointer) < length w.(sab))%nat).
  { unfold host_view, contents in Hl. by eapply lookup_lt_Some. }
  unfold Main.csoundStop.
  rewrite (bind_run Main.this _ w w.(main) w eq_refl), Hstate.
  rewrite (bind_run Main.new_Promise _ w _ _ eq_refl).
  rewrite (bind_run (Main.set_stopPromiz _) _ _ _ _ eq_refl).
  rewrite (bind_run Main.this_audioStatePointer _ _ _ _ eq_refl).
  match goal with |- (_ ≫= _) ?x = _ => set (w2 := x) end.
  change (audioStateView _) with (host_view w).
  assert (Hl2 : contents (host_view w) w2 = Some l) by exact Hl.
  rewrite (bind_run _ _ _ _ _ (Atomics_store_run (host_view w) _ 1 w2 l Hl2 HSTOP)).
  rewrite Hone.
  set (w3 := set_contents (host_view w) (<[AUDIO_STATE.(STOP) := 1]> l) w2).
  assert (Hl3 : contents (host_view w) w3 = Some (<[AUDIO_STATE.(STOP) := 1]> l))
    by (apply contents_set_contents; by rewrite Hl2).
  rewrite (bind_run _ _ _ _ _
             (Atomics_store_run (host_view w) AUDIO_STATE.(IS_PERFORMING) 0 w3 _ Hl3
                ltac:(by rewrite length_insert))).
  rewrite Hzero. fold l1.
  set (w4 := set_contents (host_view w) l1 w3).
  assert (Hl4 : contents (host_view w) w4 = Some l1)
    by (apply contents_set_contents; by rewrite Hl3).
  assert (Hlen1 : length l1 = length l) by (unfold l1; by rewrite !length_insert).
  fold state.
  assert (Hfinal : ∀ (l5 : list Z) (events : list Event),
            set_trace (w.(trace) ++ events) (set_contents (host_view w) l5 w4)
            = {| sab := <[w.(main).(audioStatePointer) := l5]> w.(sab);
                 midiBuffer := w.(midiBuffer);
                 callbackBuffer := w.(callbackBuffer);
                 audioStreamIn := w.(audioStreamIn);
                 audioStreamOut := w.(audioStreamOut);
                 main := w2.(main);
                 csound := w.(csound); promises := S w.(promises);
                 resolved := w.(resolved);
                 trace := w.(trace) ++ events |}).
  { intros l5 events. unfold w4, w3, w2, host_view, set_contents, set_trace, set_sab.
    cbn [sab main audioStatePointer trace midiBuffer
         callbackBuffer audioStreamIn audioStreamOut csound
         promises resolved Main.set_stopPromiz set_main set_promises].
    by rewrite !list_insert_insert_eq. }
  assert (Htrace4 : w4.(trace) = w.(trace)) by reflexivity.
  clearbody w4. clear Hl3 w3 Hl2.
  destruct (decide (state = Some "realtimePerformancePaused")) as [Hpaused|Hpaused];
    destruct (decide (state = Some "renderStarted")) as [Hrender|Hrender];
    try congruence; subst l2 l3.
  - pose proof (store_notify_run (host_view w) AUDIO_STATE.(IS_PAUSED)
                  AUDIO_STATE.(IS_PAUSED) 0 w4 l1 Hl4 ltac:(lia) ltac:(lia)) as Hrun5.
    rewrite Hzero in Hrun5. rewrite (bind_run _ _ _ _ _ Hrun5).
    set (l2 := <[AUDIO_STATE.(IS_PAUSED) := 0]> l1) in *.
    set (w5 := set_trace _ _) in *.
    assert (Hl5 : contents (host_view w) w5 = Some l2).
    { unfold w5. rewrite <- (contents_set_contents (host_view w) l2 w4) by (by rewrite Hl4).
      by destruct (host_view w). }
    pose proof (store_notify_run (host_view w) AUDIO_STATE.(ATOMIC_NOFITY)
                  AUDIO_STATE.(ATOMIC_NOTIFY) 1 w5 l2 Hl5
                  ltac:(unfold l2; rewrite length_insert; lia)
                  ltac:(unfold l2; rewrite length_insert; lia)) as Hrun6.
    rewrite Hone in Hrun6. rewrite (bind_run _ _ _ _ _ Hrun6).
    unfold mret, M_ret. do 2 f_equal.
    unfold w5. cbn [trace set_trace].
    rewrite set_contents_set_trace, set_trace_twice, set_contents_twice.
    rewrite Htrace4, <- app_assoc. apply Hfinal.
  - rewrite (bind_run _ _ w4 () w4 eq_refl).
    rewrite (bind_run _ _ w4 () w4 eq_refl).
    unfold mret, M_ret. do 2 f_equal.
    transitivity (set_trace (w.(trace) ++ [] ++ [])
                    (set_contents (host_view w) l1 w4)); [|exact (Hfinal l1 ([] ++ []))].
    rewrite !app_nil_r, <- Htrace4.
    rewrite (set_contents_same _ _ _ Hl4). by destruct w4.
  - rewrite (bind_run _ _ w4 () w4 eq_refl).
    pose proof (store_notify_run (host_view w) AUDIO_STATE.(ATOMIC_NOFITY)
                  AUDIO_STATE.(ATOMIC_NOTIFY) 1 w4 l1 Hl4
                  ltac:(lia) ltac:(lia)) as Hrun6.
    rewrite Hone in Hrun6. rewrite (bind_run _ _ _ _ _ Hrun6).
    unfold mret, M_ret. do 2 f_equal.
    rewrite Htrace4. apply Hfinal.
Qed.

End StopRuns.
(** ** [stop()] and the single slot of its promise *)

Section StopReturn.
Context `{Constants} `{LibraryCsound}.

(** C1, as the code has it. A call of [stop()] made while the current
    play state is stopable sets [STOP] to 1 and [IS_PERFORMING] to 0; it
    stores 0 into [IS_PAUSED] and notifies the waiters on [IS_PAUSED]
    exactly when the current play state is [realtimePerformancePaused]
    (whatever [IS_PAUSED] holds, which it otherwise leaves alone); when
    the state is not [renderStarted] it stores 1 into the doorbell and
    notifies the waiters on it, both spellings of the doorbell naming the
    same word. It is then suspended on a fresh promise, whose resolver it
    has put into the one slot [this.stopPromiz], and it returns 0 when
    the host processes [realtimePerformanceEnded] or [renderEnded] in any
    later state in which the slot still holds that resolver. The slot is
    not a queue: a second [stop()], or a [reset()], which calls [stop()],
    made while the first is suspended replaces the resolver; the end of
    the performance then resolves the promise of the later call only,
    leaves the promise of the first call pending and empties the slot:
    no resolver of the first promise is left in the host. (The promises
    are numbered in the order of their creation, and those in use are
    older than the next one; the host's audio-state array has the length
    of the template, as every array the host allocates has.) *)
Theorem csoundStop_stopable (w : World) (l : list Z) :
  constants_ok →
  AUDIO_STATE.(ATOMIC_NOFITY) = AUDIO_STATE.(ATOMIC_NOTIFY) →
  contents (host_view w) w = Some l →
  length l = length initialSharedState →
  Forall (λ p, (p < w.(promises))%nat) w.(resolved) →
  (∀ p, w.(main).(startPromiz) = Some p → (p < w.(promises))%nat) →
  has stopableStates w.(main).(currentPlayState) = true →
  let state := w.(main).(currentPlayState) in
  let view := host_view w in
  let stopPromise := w.(promises) in
  let ends := λ ended : string,
    ended = "realtimePerformanceEnded" ∨ ended = "renderEnded" in
  ∃ w', Main.csoundStop w = Some (awaits stopPromise 0, w')
    ∧ word view AUDIO_STATE.(STOP) w' = Some 1
    ∧ word view AUDIO_STATE.(IS_PERFORMING) w' = Some 0
    ∧ word view AUDIO_STATE.(IS_PAUSED) w' =
        (if decide (state = Some "realtimePerformancePaused") then Some 0
         else word view AUDIO_STATE.(IS_PAUSED) w)
    ∧ (state ≠ Some "renderStarted" →
       word view AUDIO_STATE.(ATOMIC_NOTIFY) w' = Some 1)
    ∧ w'.(trace) =
        w.(trace)
        ++ (if decide (state = Some "realtimePerformancePaused")
            then [notify view AUDIO_STATE.(IS_PAUSED)] else [])
        ++ (if decide (state = Some "renderStarted")
            then [] else [notify view AUDIO_STATE.(ATOMIC_NOTIFY)])
    ∧ (stopPromise ∉ w'.(resolved))
    ∧ w'.(main).(stopPromiz) = Some stopPromise
    ∧ (∀ (later : World) (l' : list Z) (ended : string),
         later.(main).(stopPromiz) = Some stopPromise →
         contents (host_view later) later = Some l' →
         length l' = length initialSharedState →
         ends ended →
         ∃ w'', Main.onPlayStateChange ended later = Some ((), w'')
                ∧ stopPromise ∈ w''.(resolved)
                ∧ w''.(main).(stopPromiz) = None)
    ∧ ∃ next,
        Main.csoundStop w' = Some (awaits (S stopPromise) 0, next)
        ∧ Main.csoundReset w' = Some (inl (awaits (S stopPromise) 0), next)
        ∧ next.(main).(stopPromiz) = Some (S stopPromise)
        ∧ ∀ ended, ends ended →
            ∃ w'', Main.onPlayStateChange ended next = Some ((), w'')
                   ∧ S stopPromise ∈ w''.(resolved)
                   ∧ (stopPromise ∉ w''.(resolved))
                   ∧ w''.(main).(stopPromiz) = None
                   ∧ w''.(main).(startPromiz) = None.
Proof.
  intros (Hnd & Hin & _) Hspelling Hl Hlen Hfresh Hstart Hstate state view stopPromise ends.
  assert (HSTOP : (AUDIO_STATE.(STOP) < length l)%nat) by (rewrite Hlen; in_table 4%nat).
  assert (HPERF : (AUDIO_STATE.(IS_PERFORMING) < length l)%nat)
    by (rewrite Hlen; in_table 2%nat).
  assert (HPAUSED : (AUDIO_STATE.(IS_PAUSED) < length l)%nat)
    by (rewrite Hlen; in_table 3%nat).
  assert (HNOTIFY : (AUDIO_STATE.(ATOMIC_NOTIFY) < length l)%nat)
    by (rewrite Hlen; in_table 1%nat).
  assert (HNOFITY : (AUDIO_STATE.(ATOMIC_NOFITY) < length l)%nat) by (by rewrite Hspelling).
  assert (AUDIO_STATE.(STOP) ≠ AUDIO_STATE.(IS_PERFORMING)) by distinct 3%nat 1%nat.
  assert (AUDIO_STATE.(STOP) ≠ AUDIO_STATE.(IS_PAUSED)) by distinct 3%nat 2%nat.
  assert (AUDIO_STATE.(STOP) ≠ AUDIO_STATE.(ATOMIC_NOTIFY)) by distinct 3%nat 0%nat.
  assert (AUDIO_STATE.(IS_PERFORMING) ≠ AUDIO_STATE.(IS_PAUSED)) by distinct 1%nat 2%nat.
  assert (AUDIO_STATE.(IS_PERFORMING) ≠ AUDIO_STATE.(ATOMIC_NOTIFY)) by distinct 1%nat 0%nat.
  assert (AUDIO_STATE.(IS_PAUSED) ≠ AUDIO_STATE.(ATOMIC_NOTIFY)) by distinct 2%nat 0%nat.
  assert (Hp : stopPromise ∉ w.(resolved)).
  { intros Hp. apply (Forall_forall (A:=nat)) with (x := stopPromise) in Hfresh; [|done].
    unfold stopPromise in Hfresh. lia. }
  assert (Hnostart : w.(main).(startPromiz) ≠ Some stopPromise).
  { intros Hs. apply Hstart in Hs. unfold stopPromise in Hs. lia. }
  assert (Ha : (w.(main).(audioStatePointer) < length w.(sab))%nat).
  { unfold host_view, contents in Hl. by eapply lookup_lt_Some. }
  pose proof (csoundStop_run w l Hstate Hl HSTOP HPERF HPAUSED HNOFITY HNOTIFY) as Hrun.
  cbv zeta in Hrun. fold state view stopPromise in Hrun. rewrite Hspelling in Hrun.
  set (l1 := <[AUDIO_STATE.(IS_PERFORMING) := 0]> (<[AUDIO_STATE.(STOP) := 1]> l)) in *.
  set (l2 := if decide (state = Some "realtimePerformancePaused")
             then <[AUDIO_STATE.(IS_PAUSED) := 0]> l1 else l1) in *.
  set (l3 := if decide (state = Some "renderStarted")
             then l2 else <[AUDIO_STATE.(ATOMIC_NOTIFY) := 1]> l2) in *.
  assert (Hlen3 : length l3 = length l).
  { unfold l3, l2, l1. repeat case_decide; by rewrite ?length_insert. }
  match type of Hrun with _ = Some (_, ?x) => set (w' := x) in * end.
  assert (Hl' : contents (host_view w') w' = Some l3).
  { unfold host_view, contents, w'. cbn [main sab audioStatePointer].
    by apply list_lookup_insert_eq. }
  assert (Hword : ∀ j, word view j w' = l3 !! j).
  { intros j. change view with (host_view w'). unfold word. by rewrite Hl'. }
  (* the second call *)
  pose proof (csoundStop_run w' l3 Hstate Hl' ltac:(lia) ltac:(lia) ltac:(lia)
                ltac:(lia) ltac:(lia)) as Hrun2.
  cbv zeta in Hrun2.
  match type of Hrun2 with _ = Some (_, ?x) => set (next := x) in * end.
  assert (Hnext : ∃ l4, contents (host_view next) next = Some l4
                        ∧ length l4 = length initialSharedState).
  { eexists. split.
    - unfold host_view, contents, next. cbn [main sab audioStatePointer].
      apply list_lookup_insert_eq. unfold w'. cbn [sab]. by rewrite length_insert.
    - rewrite <- Hlen, <- Hlen3. repeat case_decide; by rewrite ?length_insert. }
  exists w'. split; [exact Hrun|]. rewrite !Hword.
  split; [|split; [|split; [|split; [|split; [|split; [|split; [|split]]]]]]].
  - unfold l3, l2, l1. repeat case_decide;
      by rewrite ?list_lookup_insert_ne, list_lookup_insert_eq
        by (done || rewrite ?length_insert; lia).
  - unfold l3, l2, l1. repeat case_decide;
      by rewrite ?list_lookup_insert_ne, list_lookup_insert_eq
        by (done || rewrite ?length_insert; lia).
  - assert (word view AUDIO_STATE.(IS_PAUSED) w = l !! AUDIO_STATE.(IS_PAUSED)) as ->
      by (unfold word, view; by rewrite Hl).
    unfold l3, l2, l1.
    repeat case_decide; try congruence;
      by rewrite ?list_lookup_insert_ne, ?list_lookup_insert_eq
        by (done || rewrite ?length_insert; lia).
  - intros Hrender. unfold l3. rewrite decide_False by done.
    apply list_lookup_insert_eq. unfold l2, l1.
    case_decide; rewrite ?length_insert; lia.
  - reflexivity.
  - exact Hp.
  - reflexivity.
  - intros later l' ended Hslot Hl'' Hlen'' [-> | ->].
    + rewrite (onPlayStateChange_ended later l' Hl'' Hlen'').
      eexists. split; [reflexivity|]. cbn [resolved main stopPromiz].
      split; [|done]. rewrite Hslot, !elem_of_app. right. left. by left.
    + rewrite (onPlayStateChange_other "renderEnded" later) by done.
      eexists. split; [reflexivity|]. cbn [resolved main stopPromiz].
      rewrite !decide_True by done. split; [|done].
      rewrite Hslot, !elem_of_app. right. left. by left.
  - exists next. split; [exact Hrun2|]. split; [|split; [reflexivity|]].
    + unfold Main.csoundReset.
      rewrite (bind_run Main.this _ w' w'.(main) w' eq_refl).
      assert (Hstate' : has stopableStates w'.(main).(currentPlayState) = true)
        by exact Hstate.
      rewrite Hstate'. by rewrite (bind_run _ _ _ _ _ Hrun2).
    + destruct Hnext as (l4 & Hl4 & Hlen4).
      assert (Hnot : stopPromise ∉ option_list (startPromiz (main w))
                                   ++ [S stopPromise] ++ w.(resolved)).
      { rewrite !not_elem_of_app. split; [|split].
        - destruct (startPromiz (main w)) as [p|] eqn:Hs; simpl; [|by intros ?%elem_of_nil].
          intros ->%list_elem_of_singleton. done.
        - intros ?%list_elem_of_singleton. lia.
        - exact Hp. }
      intros ended [-> | ->].
      * rewrite (onPlayStateChange_ended next l4 Hl4 Hlen4).
        eexists. split; [reflexivity|]. cbn [resolved main stopPromiz startPromiz next w'].
        split; [rewrite !elem_of_app; right; left; by left|].
        split; [exact Hnot|done].
      * rewrite (onPlayStateChange_other "renderEnded" next) by done.
        eexists. split; [reflexivity|]. cbn [resolved main stopPromiz startPromiz next w'].
        rewrite !decide_True by done.
        split; [rewrite !elem_of_app; right; left; by left|].
        split; [exact Hnot|done].
Qed.

End StopReturn.
(** ** The handler of the play-state changes, un-awaited *)

Section Suspended.
Context `{Constants} `{LibraryCsound}.

Lemma bind_assoc {A B C} (m : M A) (f : A → M B) (g : B → M C) (w : World) :
  ((m ≫= f) ≫= g) w = (m ≫= λ a, f a ≫= g) w.
Proof. unfold mbind, M_bind. by destruct (m w) as [[a w1]|]. Qed.

Lemma bind_ext {A B} (m : M A) (f g : A → M B) (w : World) :
  (∀ a w', f a w' = g a w') → (m ≫= f) w = (m ≫= g) w.
Proof. intros Hfg. unfold mbind, M_bind. destruct (m w) as [[a w1]|]; [apply Hfg|done]. Qed.

Lemma ret_bind {A B} (a : A) (f : A → M B) (w : World) : (mret a ≫= f) w = f a w.
Proof. reflexivity. Qed.

(** The handler run without a pause at its [await]s is the handler of
    the sequential model. *)
Lemma onPlayStateChange_called_then_answered (s : string) (w : World) :
  (pending ← Main.onPlayStateChange_called s; for_each pending (λ part _, part) ()) w
  = Main.onPlayStateChange s w.
Proof.
  unfold Main.onPlayStateChange_called, Main.onPlayStateChange,
    Main.onPlayStateChange_answered.
  assert (Hlast : ∀ (m : M ()) (v : World), (m ≫= λ x' : (), mret x') v = m v).
  { intros m v. unfold mbind, M_bind. by destruct (m v) as [[[] ?]|]. }
  rewrite bind_assoc. apply bind_ext. intros [] w1.
  destruct (decide (s = "realtimePerformanceStarted")) as [->|Hs].
  - rewrite !bind_assoc. apply bind_ext. intros [] w2.
    rewrite ret_bind. cbn [for_each].
    etransitivity; [apply bind_assoc|]. apply bind_ext. intros [] w3.
    apply bind_ext. intros [] w4. apply Hlast.
  - rewrite !bind_assoc. apply bind_ext. intros [] w2.
    rewrite !bind_assoc. apply bind_ext. intros [] w3.
    rewrite ret_bind. cbn [for_each]. apply Hlast.
Qed.

Lemma csoundPause_called_then_answered (w : World) :
  (pending ← Main.csoundPause_called; for_each pending (λ part _, part) ()) w
  = Main.csoundPause w.
Proof.
  unfold Main.csoundPause_called, Main.csoundPause.
  rewrite bind_assoc. apply bind_ext. intros p w1.
  rewrite bind_assoc. apply bind_ext. intros [] w2; [|done].
  rewrite bind_assoc. apply bind_ext. intros [] w3.
  apply onPlayStateChange_called_then_answered.
Qed.

Lemma csoundResume_called_then_answered (w : World) :
  (pending ← Main.csoundResume_called; for_each pending (λ part _, part) ()) w
  = Main.csoundResume w.
Proof.
  unfold Main.csoundResume_called, Main.csoundResume.
  rewrite bind_assoc. apply bind_ext. intros p w1.
  rewrite bind_assoc. apply bind_ext. intros [] w2; [|done].
  rewrite !bind_assoc. apply bind_ext. intros [] w3.
  rewrite !bind_assoc. apply bind_ext. intros [] w4.
  apply onPlayStateChange_called_then_answered.
Qed.

(** The handler from the [await] of line 208 on, for a play state other
    than [realtimePerformanceStarted]: the registered callbacks are
    called, and nothing else shows. *)
Lemma onPlayStateChange_answered_run (s : string) (v : World) :
  s ≠ "realtimePerformanceStarted" →
  ∃ v', Main.onPlayStateChange_answered s v = Some ((), v')
    ∧ v'.(sab) = v.(sab)
    ∧ same_host v v'
    ∧ v'.(main).(currentPlayState) = v.(main).(currentPlayState)
    ∧ v'.(trace)
      = v.(trace) ++ ((λ callback, playStateChangeCallback callback s)
                        <$> v.(main).(csoundPlayStateChangeCallbacks)).
Proof.
  intros Hs. unfold Main.onPlayStateChange_answered.
  destruct v as [? ? ? ? ? [? ? start ? ? ? ? ?] ? ? ? ?].
  destruct start.
  all: unfold Main.resolve, Main.set_startPromiz, Main.this, modify, gets;
      unfold mbind, M_bind, mret, M_ret; simpl.
  all: rewrite ?decide_False by done; simpl.
  all: eexists; split;
    [exact (for_each_emit_run _ (λ c, playStateChangeCallback c s) _)|].
  all: by repeat split.
Qed.

(** The handler up to its first [await], for the play states of a pause
    and of a resume. *)
Lemma onPlayStateChange_called_run (s event : string) (v : World) :
  s = "realtimePerformancePaused" ∧ event = "RealtimePerformancePaused"
  ∨ s = "realtimePerformanceResumed" ∧ event = "RealtimePerformanceResumed" →
  ∃ v', Main.onPlayStateChange_called s v
        = Some ([Main.onPlayStateChange_answered s], v')
    ∧ v'.(sab) = v.(sab)
    ∧ same_host v v'
    ∧ v'.(main).(currentPlayState) = Some s
    ∧ v'.(trace) = v.(trace) ++ [trigger event; audioWorker_onPlayStateChange s].
Proof.
  intros [[-> ->] | [-> ->]]; unfold Main.onPlayStateChange_called.
  all: repeat (case_decide; try done).
  all: eexists; split; [reflexivity|]; simpl.
  all: repeat split; by rewrite <- app_assoc.
Qed.

(** [pause()] during a performance, up to the [await] of the handler. *)
Lemma csoundPause_called_run (v : World) (l : list Z) (paused stop : Z) :
  contents (host_view v) v = Some l →
  l !! AUDIO_STATE.(IS_PAUSED) = Some paused →
  l !! AUDIO_STATE.(STOP) = Some stop →
  l !! AUDIO_STATE.(IS_PERFORMING) = Some 1 →
  paused ≠ 1 → stop ≠ 1 →
  ∃ v', Main.csoundPause_called v
        = Some ([Main.onPlayStateChange_answered "realtimePerformancePaused"], v')
    ∧ v'.(sab) = <[v.(main).(audioStatePointer) := <[AUDIO_STATE.(IS_PAUSED) := 1]> l]> v.(sab)
    ∧ same_host v v'
    ∧ v'.(main).(currentPlayState) = Some "realtimePerformancePaused"
    ∧ v'.(trace)
      = v.(trace) ++ [trigger "RealtimePerformancePaused";
                      audioWorker_onPlayStateChange "realtimePerformancePaused"].
Proof.
  intros Hl Hp Hs Hf Hp1 Hs1.
  set (v1 := set_contents (host_view v) (<[AUDIO_STATE.(IS_PAUSED) := 1]> l) v).
  destruct (onPlayStateChange_called_run "realtimePerformancePaused"
              "RealtimePerformancePaused" v1 ltac:(by left))
    as (v' & Hrun & Hsab & (? & ? & ? & ?) & ? & ?).
  exists v'. split; [|by repeat split; try congruence].
  unfold Main.csoundPause_called.
  rewrite (bind_run Main.this_audioStatePointer _ v (host_view v) v eq_refl).
  rewrite (bind_run _ _ _ _ _
             (guard_run (host_view v) v paused stop 1 (λ x, negb (x =? 1))
                ltac:(by unfold word; rewrite Hl) ltac:(by unfold word; rewrite Hl)
                ltac:(by unfold word; rewrite Hl))).
  destruct (Z.eqb_spec paused 1); [done|]. destruct (Z.eqb_spec stop 1); [done|].
  simpl.
  by rewrite (bind_run _ _ _ _ _
                (Atomics_store_run _ _ 1 v l Hl (lookup_lt_Some _ _ _ Hp))).
Qed.

(** [resume()] during a pause, up to the [await] of the handler. *)
Lemma csoundResume_called_run (v : World) (l : list Z) (stop : Z) :
  contents (host_view v) v = Some l →
  l !! AUDIO_STATE.(IS_PAUSED) = Some 1 →
  l !! AUDIO_STATE.(STOP) = Some stop →
  l !! AUDIO_STATE.(IS_PERFORMING) = Some 1 →
  stop ≠ 1 →
  ∃ v', Main.csoundResume_called v
        = Some ([Main.onPlayStateChange_answered "realtimePerformanceResumed"], v')
    ∧ v'.(sab) = <[v.(main).(audioStatePointer) := <[AUDIO_STATE.(IS_PAUSED) := 0]> l]> v.(sab)
    ∧ same_host v v'
    ∧ v'.(main).(currentPlayState) = Some "realtimePerformanceResumed"
    ∧ v'.(trace)
      = v.(trace) ++ [notify (host_view v) AUDIO_STATE.(IS_PAUSED);
                      trigger "RealtimePerformanceResumed";
                      audioWorker_onPlayStateChange "realtimePerformanceResumed"].
Proof.
  intros Hl Hp Hs Hf Hs1.
  set (v1 := set_trace (v.(trace) ++ [notify (host_view v) AUDIO_STATE.(IS_PAUSED)])
               (set_contents (host_view v) (<[AUDIO_STATE.(IS_PAUSED) := 0]> l) v)).
  destruct (onPlayStateChange_called_run "realtimePerformanceResumed"
              "RealtimePerformanceResumed" v1 ltac:(by right))
    as (v' & Hrun & Hsab & (? & ? & ? & ?) & ? & Htrace).
  exists v'. split; [|split; [|split; [|split]]].
  - unfold Main.csoundResume_called.
    rewrite (bind_run Main.this_audioStatePointer _ v (host_view v) v eq_refl).
    rewrite (bind_run _ _ _ _ _
               (guard_run (host_view v) v 1 stop 1 (λ x, x =? 1)
                  ltac:(by unfold word; rewrite Hl) ltac:(by unfold word; rewrite Hl)
                  ltac:(by unfold word; rewrite Hl))).
    destruct (Z.eqb_spec stop 1); [done|]. simpl.
    pose proof (lookup_lt_Some _ _ _ Hp) as Hlt.
    rewrite (bind_run _ _ _ _ _ (Atomics_store_run _ _ 0 v l Hl Hlt)).
    rewrite (bind_run _ _ _ _ _
               (Atomics_notify_run (host_view v) AUDIO_STATE.(IS_PAUSED)
                  (set_contents (host_view v) (<[AUDIO_STATE.(IS_PAUSED) := ToInt32 0]> l) v)
                  0 ltac:(rewrite word_set_contents by (by rewrite Hl);
                          by apply list_lookup_insert_eq))).
    exact Hrun.
  - by rewrite Hsab.
  - repeat split; (etransitivity; [eassumption|]); reflexivity.
  - done.
  - rewrite Htrace. unfold v1. simpl. by rewrite <- app_assoc.
Qed.

End Suspended.

Section SuspendedExtras.
Context `{Constants} `{LibraryCsound}.

(** X4. [pause()] and then [resume()], during a performance that was not
    paused. Neither call awaits the handler of the play-state change, so
    each returns with the handler suspended at its [await] of line 208.
    When both calls have returned every shared array is as it was before
    them, word for word, the play state is [realtimePerformanceResumed],
    and what has been emitted is the announcement of the pause to the
    listeners and to the audio backend, the wake-up of the threads
    waiting on [IS_PAUSED], and the announcement of the resume. What is
    left of the two handlers calls the registered callbacks, and runs in
    one of three orders: that of the pause before [resume()] is called,
    or both after it, in either order. In each the arrays and the play
    state stay as they are, and the callbacks are called in the order in
    which what is left of the handlers runs. *)
Theorem csoundPause_then_csoundResume (w : World) (l : list Z) (stop : Z) :
  contents (host_view w) w = Some l →
  l !! AUDIO_STATE.(IS_PAUSED) = Some 0 →
  l !! AUDIO_STATE.(STOP) = Some stop →
  l !! AUDIO_STATE.(IS_PERFORMING) = Some 1 →
  stop ≠ 1 →
  AUDIO_STATE.(IS_PAUSED) ≠ AUDIO_STATE.(STOP) →
  AUDIO_STATE.(IS_PAUSED) ≠ AUDIO_STATE.(IS_PERFORMING) →
  let paused := "realtimePerformancePaused" in
  let resumed := "realtimePerformanceResumed" in
  let pause := [trigger "RealtimePerformancePaused";
                audioWorker_onPlayStateChange paused] in
  let resume := [notify (host_view w) AUDIO_STATE.(IS_PAUSED);
                 trigger "RealtimePerformanceResumed";
                 audioWorker_onPlayStateChange resumed] in
  let callbacks := λ s : string,
    (λ callback, playStateChangeCallback callback s)
      <$> w.(main).(csoundPlayStateChangeCallbacks) in
  let restored := λ (events : list Event) (w' : World),
    w'.(sab) = w.(sab) ∧ w'.(midiBuffer) = w.(midiBuffer) ∧ w'.(csound) = w.(csound)
    ∧ w'.(main).(currentPlayState) = Some resumed
    ∧ w'.(trace) = w.(trace) ++ events in
  (∃ w1 w2,
     Main.csoundPause_called w = Some ([Main.onPlayStateChange_answered paused], w1)
     ∧ Main.csoundResume_called w1 = Some ([Main.onPlayStateChange_answered resumed], w2)
     ∧ restored (pause ++ resume) w2)
  ∧ (∃ w', (Main.csoundPause_called;; Main.onPlayStateChange_answered paused;;
            Main.csoundResume_called;; Main.onPlayStateChange_answered resumed) w
           = Some ((), w')
       ∧ restored (pause ++ callbacks paused ++ resume ++ callbacks resumed) w')
  ∧ (∃ w', (Main.csoundPause_called;; Main.csoundResume_called;;
            Main.onPlayStateChange_answered paused;;
            Main.onPlayStateChange_answered resumed) w
           = Some ((), w')
       ∧ restored (pause ++ resume ++ callbacks paused ++ callbacks resumed) w')
  ∧ (∃ w', (Main.csoundPause_called;; Main.csoundResume_called;;
            Main.onPlayStateChange_answered resumed;;
            Main.onPlayStateChange_answered paused) w
           = Some ((), w')
       ∧ restored (pause ++ resume ++ callbacks resumed ++ callbacks paused) w').
Proof.
  intros Hl Hp Hs Hf Hs1 Hne1 Hne2 paused resumed pause resume callbacks restored.
  set (a := w.(main).(audioStatePointer)).
  set (l1 := <[AUDIO_STATE.(IS_PAUSED) := 1]> l).
  assert (Ha : w.(sab) !! a = Some l) by exact Hl.
  assert (Hback : <[a := <[AUDIO_STATE.(IS_PAUSED) := 0]> l1]> (<[a := l1]> w.(sab))
                  = w.(sab)).
  { unfold l1. rewrite !list_insert_insert_eq.
    rewrite (list_insert_id l) by done. by rewrite list_insert_id. }
  destruct (csoundPause_called_run w l 0 stop Hl Hp Hs Hf ltac:(done) Hs1)
    as (w1 & Hrun1 & Hsab1 & Hhost1 & Hstate1 & Htrace1).
  fold a l1 in Hsab1. fold paused in Hrun1. change (_ ++ _) with (w.(trace) ++ pause) in Htrace1.
  (* what is left of a handler runs, and changes neither the arrays nor the state *)
  assert (Hanswered : ∀ (s : string) (v : World) (events : list Event),
            s ≠ "realtimePerformanceStarted" →
            same_host w v → v.(trace) = w.(trace) ++ events →
            ∃ v', Main.onPlayStateChange_answered s v = Some ((), v')
              ∧ v'.(sab) = v.(sab) ∧ same_host w v'
              ∧ v'.(main).(currentPlayState) = v.(main).(currentPlayState)
              ∧ v'.(trace) = w.(trace) ++ events ++ callbacks s).
  { intros s v events Hstarted (? & ? & ? & Hcallbacks) Htrace.
    destruct (onPlayStateChange_answered_run s v Hstarted)
      as (v' & Hrun & ? & (? & ? & ? & ?) & ? & Htrace').
    exists v'. repeat split; try congruence.
    rewrite Htrace', Htrace, Hcallbacks. by rewrite <- app_assoc. }
  (* [resume()] finds the word [pause()] stored *)
  assert (Hresume : ∀ (v : World) (events : list Event),
            v.(sab) = <[a := l1]> w.(sab) →
            same_host w v → v.(trace) = w.(trace) ++ events →
            ∃ v', Main.csoundResume_called v
                  = Some ([Main.onPlayStateChange_answered resumed], v')
              ∧ v'.(sab) = w.(sab) ∧ same_host w v'
              ∧ v'.(main).(currentPlayState) = Some resumed
              ∧ v'.(trace) = w.(trace) ++ events ++ resume).
  { intros v events Hsab (? & ? & Hptr & ?) Htrace.
    assert (Hview : host_view v = host_view w) by (unfold host_view; by rewrite Hptr).
    assert (Hl1 : contents (host_view v) v = Some l1).
    { rewrite Hview. unfold host_view, contents. fold a. rewrite Hsab.
      apply list_lookup_insert_eq. by eapply lookup_lt_Some. }
    destruct (csoundResume_called_run v l1 stop Hl1) as
      (v' & Hrun & Hsab' & (? & ? & ? & ?) & ? & Htrace');
      [ apply list_lookup_insert_eq; by eapply lookup_lt_Some
      | unfold l1; by rewrite list_lookup_insert_ne
      | unfold l1; by rewrite list_lookup_insert_ne
      | done |].
    exists v'. split; [exact Hrun|].
    split; [by rewrite Hsab', Hptr, Hsab|].
    split; [repeat split; congruence|]. split; [done|].
    rewrite Htrace', Htrace, Hview. by rewrite <- app_assoc. }
  split; [|split; [|split]].
  - destruct (Hresume w1 pause Hsab1 Hhost1 Htrace1)
      as (w2 & Hrun2 & Hsab2 & (? & ? & ? & ?) & ? & ?).
    by exists w1, w2.
  - destruct (Hanswered paused w1 pause ltac:(done) Hhost1 Htrace1)
      as (v1 & Hk1 & Hsabv1 & Hhostv1 & _ & Htracev1).
    rewrite Hsab1 in Hsabv1.
    destruct (Hresume v1 _ Hsabv1 Hhostv1 Htracev1)
      as (w2 & Hrun2 & Hsab2 & Hhost2 & Hstate2 & Htrace2).
    destruct (Hanswered resumed w2 _ ltac:(done) Hhost2 Htrace2)
      as (w3 & Hk2 & Hsab3 & (? & ? & ? & ?) & Hstate3 & Htrace3).
    exists w3. split.
    + rewrite (bind_run _ _ _ _ _ Hrun1), (bind_run _ _ _ _ _ Hk1).
      by rewrite (bind_run _ _ _ _ _ Hrun2).
    + repeat split; try congruence. rewrite Htrace3. by rewrite <- !app_assoc.
  - destruct (Hresume w1 pause Hsab1 Hhost1 Htrace1)
      as (w2 & Hrun2 & Hsab2 & Hhost2 & Hstate2 & Htrace2).
    destruct (Hanswered paused w2 _ ltac:(done) Hhost2 Htrace2)
      as (w3 & Hk1 & Hsab3 & Hhost3 & Hstate3 & Htrace3).
    destruct (Hanswered resumed w3 _ ltac:(done) Hhost3 Htrace3)
      as (w4 & Hk2 & Hsab4 & (? & ? & ? & ?) & Hstate4 & Htrace4).
    exists w4. split.
    + rewrite (bind_run _ _ _ _ _ Hrun1), (bind_run _ _ _ _ _ Hrun2).
      by rewrite (bind_run _ _ _ _ _ Hk1).
    + repeat split; try congruence. rewrite Htrace4. by rewrite <- !app_assoc.
  - destruct (Hresume w1 pause Hsab1 Hhost1 Htrace1)
      as (w2 & Hrun2 & Hsab2 & Hhost2 & Hstate2 & Htrace2).
    destruct (Hanswered resumed w2 _ ltac:(done) Hhost2 Htrace2)
      as (w3 & Hk1 & Hsab3 & Hhost3 & Hstate3 & Htrace3).
    destruct (Hanswered paused w3 _ ltac:(done) Hhost3 Htrace3)
      as (w4 & Hk2 & Hsab4 & (? & ? & ? & ?) & Hstate4 & Htrace4).
    exists w4. split.
    + rewrite (bind_run _ _ _ _ _ Hrun1), (bind_run _ _ _ _ _ Hrun2).
      by rewrite (bind_run _ _ _ _ _ Hk1).
    + repeat split; try congruence. rewrite Htrace4. by rewrite <- !app_assoc.
Qed.

End SuspendedExtras.
(** ** The thread between two rings of the doorbell *)

(** [field_ne] proves that two fields of the table are different
    words. *)
Ltac field_ne_from i :=
  first [ distinct i 0%nat | distinct i 1%nat | distinct i 2%nat | distinct i 3%nat
        | distinct i 4%nat | distinct i 5%nat | distinct i 6%nat | distinct i 7%nat
        | distinct i 8%nat | distinct i 9%nat | distinct i 10%nat | distinct i 11%nat
        | distinct i 12%nat | distinct i 13%nat | distinct i 14%nat
        | distinct i 15%nat ].

Ltac field_ne :=
  first [ field_ne_from 0%nat | field_ne_from 1%nat | field_ne_from 2%nat
        | field_ne_from 3%nat | field_ne_from 4%nat | field_ne_from 5%nat
        | field_ne_from 6%nat | field_ne_from 7%nat | field_ne_from 8%nat
        | field_ne_from 9%nat | field_ne_from 10%nat | field_ne_from 11%nat
        | field_ne_from 12%nat | field_ne_from 13%nat | field_ne_from 14%nat
        | field_ne_from 15%nat ].

(** [field_cases Hj] goes through the fields of the list [Hj] says [j]
    is in. *)
Ltac field_cases Hj :=
  repeat (apply elem_of_cons in Hj as [-> | Hj]); [..|by apply elem_of_nil in Hj].

(** [field_notin] proves that a field is none of the fields of a
    list. *)
Ltac field_notin :=
  rewrite !not_elem_of_cons; repeat apply conj; try apply not_elem_of_nil; field_ne.

Section WorkerRuns.
Context `{Constants} `{LibraryCsound} `{!SabWorkerUtils}.

(** The pass that ends the thread. *)
Lemma wake_ending (t : Worker.Thread) (w : World) (stop performing : Z) :
  word t.(Worker.audioStatePointer) AUDIO_STATE.(STOP) w = Some stop →
  word t.(Worker.audioStatePointer) AUDIO_STATE.(IS_PERFORMING) w = Some performing →
  stop = 1 ∨ performing ≠ 1 ∨ t.(Worker.performanceEnded) = true →
  Worker.wake t w
  = Some (Worker.thread_returns,
          set_trace (w.(trace) ++ [broadcastPlayState "realtimePerformanceEnded"])
            (if (t.(Worker.lastReturn) =? 0) && negb t.(Worker.performanceEnded)
             then set_csound (csoundPerformKsmps (csoundStop w.(csound))).2 w
             else w)).
Proof.
  intros Hstop Hperf Hending.
  destruct (woken_constants t) as (Hr & _ & Hlast & Hended). cbv zeta in *.
  unfold Worker.wake. cbv zeta.
  set (t0 := if t.(Worker.firstRound) then Worker.set_firstRound false t else t) in *.
  apply Atomics_load_run in Hstop, Hperf.
  assert (Hor : ((v ← Atomics_load t.(Worker.audioStatePointer) AUDIO_STATE.(STOP);
                  mret (v =? 1)) |||
                 (v ← Atomics_load t.(Worker.audioStatePointer) AUDIO_STATE.(IS_PERFORMING);
                  mret (negb (v =? 1))) |||
                 mret t0.(Worker.performanceEnded)) w = Some (true, w)).
  { unfold or_else, mbind, M_bind, mret, M_ret. rewrite Hstop.
    destruct (Z.eqb_spec stop 1); [done|]. rewrite Hperf.
    destruct (Z.eqb_spec performing 1); simpl; [|done].
    rewrite Hended. destruct Hending as [?|[?|Hend]]; [done|done|by rewrite Hend]. }
  rewrite (bind_run _ _ _ _ _ Hor). rewrite Hlast, Hended.
  destruct (_ && _).
  - unfold Worker.libraryCsound_call, modify, emit, modify, mbind, M_bind, mret, M_ret.
    simpl. by destruct (csoundPerformKsmps _).
  - reflexivity.
Qed.

(** A pass leaves alone every word of the audio state that the frames,
    the MIDI events and the callback requests do not write. *)
Lemma frames_wake (P : nat → Prop) (fields : list nat) (t : Worker.Thread) :
  callbacks_keep fields → (∀ j, P j → j ∈ fields) →
  (∀ j, P j →
     j ∉ [AUDIO_STATE.(RTMIDI_INDEX); AUDIO_STATE.(AVAIL_RTMIDI_EVENTS);
          AUDIO_STATE.(INPUT_READ_INDEX); AUDIO_STATE.(OUTPUT_WRITE_INDEX);
          AUDIO_STATE.(AVAIL_IN_BUFS); AUDIO_STATE.(AVAIL_OUT_BUFS);
          AUDIO_STATE.(ATOMIC_NOTIFY)]) →
  frames t.(Worker.audioStatePointer) P (Worker.wake t).
Proof.
  intros Hkeep Hfields HP.
  destruct (woken_constants t) as (Hr & _). cbv zeta in Hr.
  unfold Worker.wake. cbv zeta.
  set (t0 := if t.(Worker.firstRound) then Worker.set_firstRound false t else t) in *.
  rewrite <- Hr. clearbody t0. clear Hr t.
  unfold or_else, Worker.perform, Atomics_wait. cbv zeta.
  repeat first
    [ apply frames_set_csound
    | apply frames_libraryCsound_call
    | apply frames_rtmidi; intros j Hj; specialize (HP j Hj); set_solver
    | apply (frames_serve_callbacks _ fields); [exact Hkeep | exact Hfields]
    | apply frames_frame_loop; intros j Hj; specialize (HP j Hj); set_solver
    | apply frames_store; intros j Hj; specialize (HP j Hj); set_solver
    | apply frames_add; intros j Hj; specialize (HP j Hj); set_solver
    | apply frames_sub; intros j Hj; specialize (HP j Hj); set_solver
    | frames_step ].
Qed.

End WorkerRuns.

Section WorkerExtras.
Context `{Constants} `{LibraryCsound} `{!SabWorkerUtils}.

(** X15. A pass that finds [STOP] at 1, or [IS_PERFORMING] not at 1, or the
    performance ended by the engine, ends the thread. It delivers no
    MIDI event, serves no callback request and copies no frame: the
    shared arrays, the doorbell among them, are as the pass found them.
    The engine is stopped and performs one more block when it was still
    performing, and is left alone when it had ended by itself; then
    [realtimePerformanceEnded] is broadcast. *)
Theorem wake_ends (t : Worker.Thread) (w : World) (stop performing : Z) :
  word t.(Worker.audioStatePointer) AUDIO_STATE.(STOP) w = Some stop →
  word t.(Worker.audioStatePointer) AUDIO_STATE.(IS_PERFORMING) w = Some performing →
  stop = 1 ∨ performing ≠ 1 ∨ t.(Worker.performanceEnded) = true →
  ∃ w', Worker.wake t w = Some (Worker.thread_returns, w')
    ∧ w'.(trace) = w.(trace) ++ [broadcastPlayState "realtimePerformanceEnded"]
    ∧ w'.(sab) = w.(sab)
    ∧ w'.(midiBuffer) = w.(midiBuffer)
    ∧ w'.(callbackBuffer) = w.(callbackBuffer)
    ∧ w'.(audioStreamOut) = w.(audioStreamOut)
    ∧ w'.(csound)
      = if (t.(Worker.lastReturn) =? 0) && negb t.(Worker.performanceEnded)
        then (csoundPerformKsmps (csoundStop w.(csound))).2
        else w.(csound).
Proof.
  intros Hstop Hperf Hending.
  rewrite (wake_ending t w stop performing) by done.
  eexists. split; [reflexivity|]. by destruct (_ && _).
Qed.

(** X16. The worker does not write the words through which the host steers
    it, nor the parameters of the performance: over any pass of the
    thread, however it ends, [STOP], [IS_PAUSED], [IS_PERFORMING],
    [NCHNLS], [NCHNLS_I], [SAMPLE_RATE], [HW_BUFFER_SIZE],
    [SW_BUFFER_SIZE] and [IS_REQUESTING_RTMIDI] are as the pass found
    them, provided serving the callback requests leaves them alone. In
    particular a pass never takes back a pause or a stop. *)
Theorem wake_leaves_control_words (t : Worker.Thread) (w w' : World)
    (res : Worker.Wake) (j : nat) :
  NoDup (audio_state_fields AUDIO_STATE) →
  let fields :=
    [AUDIO_STATE.(STOP); AUDIO_STATE.(IS_PAUSED); AUDIO_STATE.(IS_PERFORMING);
     AUDIO_STATE.(NCHNLS); AUDIO_STATE.(NCHNLS_I); AUDIO_STATE.(SAMPLE_RATE);
     AUDIO_STATE.(HW_BUFFER_SIZE); AUDIO_STATE.(SW_BUFFER_SIZE);
     AUDIO_STATE.(IS_REQUESTING_RTMIDI)] in
  callbacks_keep fields →
  Worker.wake t w = Some (res, w') →
  j ∈ fields →
  word t.(Worker.audioStatePointer) j w' = word t.(Worker.audioStatePointer) j w.
Proof.
  intros Hnd fields Hkeep Hrun Hj.
  refine (frames_wake (λ j, j ∈ fields) fields t Hkeep (λ _ Hj, Hj) _ _ _ _ Hrun j Hj).
  clear j Hj. intros j Hj. unfold fields in Hj.
  field_cases Hj; field_notin.
Qed.

End WorkerExtras.
Section MidiQueue.
Context `{Constants} `{LibraryCsound}.

Lemma ToIndex_Some (i : Number) (w w' : World) (n : nat) :
  ToIndex i w = Some (n, w') ↔ 0 ≤ ToIntegerOrInfinity i
                              ∧ n = Z.to_nat (ToIntegerOrInfinity i) ∧ w' = w.
Proof.
  unfold ToIndex. destruct (Z.ltb_spec (ToIntegerOrInfinity i) 0).
  - split; [done | lia].
  - split; [by intros [= <- <-] | by intros (_ & -> & ->)].
Qed.

(** X9. The host queues a MIDI event without telling anybody: it writes the
    MIDI buffer and adds to [AVAIL_RTMIDI_EVENTS], and that is all. Every
    other word of the audio state, the doorbell among them, is as it
    was, no thread is woken and nothing is announced; the event waits
    for the next pass of the worker. The MIDI buffer keeps its length. *)
Theorem handleMidiInput_only_queues (w w' : World) (status data1 data2 : Z) :
  Main.handleMidiInput status data1 data2 w = Some ((), w') →
  (∀ j, j ≠ AUDIO_STATE.(AVAIL_RTMIDI_EVENTS) →
        word (host_view w) j w' = word (host_view w) j w)
  ∧ w'.(trace) = w.(trace)
  ∧ w'.(main) = w.(main)
  ∧ w'.(csound) = w.(csound)
  ∧ length w'.(midiBuffer) = length w.(midiBuffer).
Proof.
  unfold Main.handleMidiInput. cbv zeta.
  intros (p & ? & [-> ->]%gets_Some & Hrun)%bind_Some.
  apply bind_Some in Hrun as (pending & ? & [-> _]%Atomics_load_Some & Hrun).
  apply bind_Some in Hrun as (cursor & ? & [-> _]%Atomics_load_Some & Hrun).
  apply bind_Some in Hrun as (i1 & ? & (_ & _ & ->)%ToIndex_Some & Hrun).
  apply bind_Some in Hrun as ([] & w1 & (m0 & [= <-] & _ & ->)%Atomics_store_Some & Hrun).
  apply bind_Some in Hrun as (i2 & ? & (_ & _ & ->)%ToIndex_Some & Hrun).
  apply bind_Some in Hrun as ([] & w2 & (m1 & [= <-] & _ & ->)%Atomics_store_Some & Hrun).
  apply bind_Some in Hrun as (i3 & ? & (_ & _ & ->)%ToIndex_Some & Hrun).
  apply bind_Some in Hrun as ([] & w3 & (m2 & [= <-] & _ & ->)%Atomics_store_Some & Hrun).
  apply bind_Some in Hrun as (p & ? & [-> ->]%gets_Some & Hrun).
  apply bind_Some in Hrun as (old & w4 & (l & Hl & Hold & ->)%Atomics_add_Some
                              & [_ ->]%ret_Some).
  simpl in *. split; [|by rewrite !length_insert].
  intros j Hj. unfold word, host_view. simpl.
  rewrite list_lookup_insert_eq by (by eapply lookup_lt_Some).
  rewrite Hl. simpl. by apply list_lookup_insert_ne.
Qed.

End MidiQueue.
Section MidiFifo.
Context `{Constants} `{LibraryCsound}.

(** One call of [handleMidiInput] on a queue that does not reach the
    end of the ring. *)
Lemma handleMidiInput_run (w : World) (l : list Z) (status data1 data2 : Z)
    (pending cursor : Z) :
  contents (host_view w) w = Some l →
  l !! AUDIO_STATE.(AVAIL_RTMIDI_EVENTS) = Some pending →
  l !! AUDIO_STATE.(RTMIDI_INDEX) = Some cursor →
  0 ≤ pending → 0 ≤ cursor → 0 ≤ MIDI_BUFFER_PAYLOAD_SIZE →
  pending * MIDI_BUFFER_PAYLOAD_SIZE + cursor + 2 < MIDI_BUFFER_SIZE →
  (Z.to_nat MIDI_BUFFER_SIZE ≤ length w.(midiBuffer))%nat →
  let next := Z.to_nat (pending * MIDI_BUFFER_PAYLOAD_SIZE + cursor) in
  Main.handleMidiInput status data1 data2 w
  = Some ((),
      set_contents (host_view w)
        (<[AUDIO_STATE.(AVAIL_RTMIDI_EVENTS) := ToInt32 (pending + 1)]> l)
        (set_midiBuffer
           (<[S (S next) := ToInt32 data2]>
              (<[S next := ToInt32 data1]>
                 (<[next := ToInt32 status]> w.(midiBuffer)))) w)).
Proof.
  intros Hl Hpending Hcursor Hp Hc Hpayload Hfit Hlen next.
  set (n := pending * MIDI_BUFFER_PAYLOAD_SIZE + cursor) in *.
  assert (Hn : 0 ≤ n) by (unfold n; nia).
  assert (Hrem : js_rem (Num n) MIDI_BUFFER_SIZE = Num n).
  { unfold js_rem. destruct (Z.eqb_spec MIDI_BUFFER_SIZE 0); [lia|].
    by rewrite Z.rem_small by lia. }
  assert (Hindex : ∀ k (w0 : World), 0 ≤ k →
            ToIndex (js_add (Num n) k) w0 = Some (Z.to_nat (n + k), w0)).
  { intros k w0 Hk. unfold ToIndex. simpl.
    destruct (Z.ltb_spec (n + k) 0); [lia | done]. }
  unfold Main.handleMidiInput.
  rewrite (bind_run Main.this_audioStatePointer _ w (host_view w) w eq_refl).
  rewrite (bind_run _ _ _ _ _ (Atomics_load_run (host_view w) _ _ pending
                                 ltac:(by unfold word; rewrite Hl))).
  rewrite (bind_run _ _ _ _ _ (Atomics_load_run (host_view w) _ _ cursor
                                 ltac:(by unfold word; rewrite Hl))).
  cbv zeta. fold n. rewrite Hrem.
  assert (Hindex0 : ToIndex (Num n) w = Some (next, w)).
  { unfold ToIndex. simpl. destruct (Z.ltb_spec n 0); [lia | done]. }
  rewrite (bind_run _ _ _ _ _ Hindex0).
  set (m1 := <[next := ToInt32 status]> w.(midiBuffer)).
  rewrite (bind_run _ _ _ _ _
             (Atomics_store_run midiBufferView next status w _ eq_refl
                ltac:(unfold next; lia))).
  fold m1. rewrite (bind_run _ _ _ _ _ (Hindex 1 _ ltac:(lia))).
  replace (Z.to_nat (n + 1)) with (S next) by (unfold next; lia).
  set (w1 := set_contents midiBufferView m1 w).
  set (m2 := <[S next := ToInt32 data1]> m1).
  rewrite (bind_run _ _ _ _ _
             (Atomics_store_run midiBufferView (S next) data1 w1 m1 eq_refl
                ltac:(unfold m1, next; rewrite length_insert; lia))).
  fold m2. rewrite (bind_run _ _ _ _ _ (Hindex 2 _ ltac:(lia))).
  replace (Z.to_nat (n + 2)) with (S (S next)) by (unfold next; lia).
  set (w2 := set_contents midiBufferView m2 w1).
  set (m3 := <[S (S next) := ToInt32 data2]> m2).
  rewrite (bind_run _ _ _ _ _
             (Atomics_store_run midiBufferView (S (S next)) data2 w2 m2 eq_refl
                ltac:(unfold m2, m1, next; rewrite !length_insert; lia))).
  fold m3. set (w3 := set_contents midiBufferView m3 w2).
  rewrite (bind_run Main.this_audioStatePointer _ w3 (host_view w) w3 eq_refl).
  assert (Hl3 : contents (host_view w) w3 = Some l) by exact Hl.
  assert (Hadd : Atomics_add (host_view w) AUDIO_STATE.(AVAIL_RTMIDI_EVENTS) 1 w3
                 = Some (pending, set_contents (host_view w)
                           (<[AUDIO_STATE.(AVAIL_RTMIDI_EVENTS) := ToInt32 (pending + 1)]> l)
                           w3))
    by (apply Atomics_add_Some; eauto).
  rewrite (bind_run _ _ _ _ _ Hadd). reflexivity.
Qed.

(** The events queued by a run of calls of [handleMidiInput] lie in the
    MIDI buffer one after the other, [MIDI_BUFFER_PAYLOAD_SIZE] words
    apart, from the place of the first free event on. *)
Lemma handleMidiInput_queue (cursor : Z) (events : list (Z * Z * Z)) :
  ∀ (w : World) (l : list Z) (pending : Z),
    contents (host_view w) w = Some l →
    l !! AUDIO_STATE.(AVAIL_RTMIDI_EVENTS) = Some pending →
    l !! AUDIO_STATE.(RTMIDI_INDEX) = Some cursor →
    AUDIO_STATE.(AVAIL_RTMIDI_EVENTS) ≠ AUDIO_STATE.(RTMIDI_INDEX) →
    0 ≤ pending → 0 ≤ cursor → 3 ≤ MIDI_BUFFER_PAYLOAD_SIZE →
    (pending + Z.of_nat (length events)) * MIDI_BUFFER_PAYLOAD_SIZE + cursor ≤ MIDI_BUFFER_SIZE →
    (Z.to_nat MIDI_BUFFER_SIZE ≤ length w.(midiBuffer))%nat →
    MIDI_BUFFER_SIZE < 2 ^ 31 →
    ∃ w',
      for_each events
        (λ '(status, data1, data2) _, Main.handleMidiInput status data1 data2) () w
      = Some ((), w')
      ∧ host_view w' = host_view w
      ∧ contents (host_view w) w'
        = Some (<[AUDIO_STATE.(AVAIL_RTMIDI_EVENTS) := pending + Z.of_nat (length events)]> l)
      ∧ w'.(csound) = w.(csound)
      ∧ w'.(trace) = w.(trace)
      ∧ length w'.(midiBuffer) = length w.(midiBuffer)
      ∧ (∀ j, (j < Z.to_nat (pending * MIDI_BUFFER_PAYLOAD_SIZE + cursor))%nat →
              w'.(midiBuffer) !! j = w.(midiBuffer) !! j)
      ∧ ∀ (i : nat) status data1 data2,
          events !! i = Some (status, data1, data2) →
          let position :=
            Z.to_nat ((pending + Z.of_nat i) * MIDI_BUFFER_PAYLOAD_SIZE + cursor) in
          w'.(midiBuffer) !! position = Some (ToInt32 status)
          ∧ w'.(midiBuffer) !! S position = Some (ToInt32 data1)
          ∧ w'.(midiBuffer) !! S (S position) = Some (ToInt32 data2).
Proof.
  induction events as [|[[status data1] data2] events IH];
    intros w l pending Hl Hpending Hcursor Hne Hp Hc Hpayload Hfit Hlen Hsize.
  - exists w. simpl. rewrite Z.add_0_r, list_insert_id by done.
    repeat split; done.
  - rewrite length_cons, Nat2Z.inj_succ in Hfit.
    set (n := pending * MIDI_BUFFER_PAYLOAD_SIZE + cursor) in *.
    assert (Hn : 0 ≤ n) by (unfold n; nia).
    assert (Hroom : n + MIDI_BUFFER_PAYLOAD_SIZE ≤ MIDI_BUFFER_SIZE) by (unfold n; nia).
    pose proof (handleMidiInput_run w l status data1 data2 pending cursor Hl Hpending
                  Hcursor Hp Hc ltac:(lia) ltac:(fold n; lia) Hlen) as Hrun.
    cbv zeta in Hrun. fold n in Hrun.
    rewrite ToInt32_id in Hrun by (unfold int32; nia).
    set (m3 := <[S (S (Z.to_nat n)) := _]> _) in Hrun.
    set (l1 := <[AUDIO_STATE.(AVAIL_RTMIDI_EVENTS) := pending + 1]> l) in Hrun.
    match type of Hrun with _ = Some (_, ?x) => set (w1 := x) in * end.
    assert (Hview1 : host_view w1 = host_view w)
      by (unfold w1; by rewrite host_view_set_contents).
    assert (Hmidi1 : w1.(midiBuffer) = m3) by reflexivity.
    assert (Hengine1 : w1.(csound) = w.(csound)) by reflexivity.
    assert (Htrace1 : w1.(trace) = w.(trace)) by reflexivity.
    assert (Hl1 : contents (host_view w1) w1 = Some l1).
    { rewrite Hview1. unfold w1. apply contents_set_contents. exists l. exact Hl. }
    clearbody w1.
    assert (Hlen3 : length m3 = length w.(midiBuffer))
      by (unfold m3; by rewrite !length_insert).
    destruct (IH w1 l1 (pending + 1) Hl1) as
      (w' & Hrest & Hview' & Hl' & Hengine' & Htrace' & Hlen' & Hbefore & Hevents).
    { unfold l1. apply list_lookup_insert_eq. by eapply lookup_lt_Some. }
    { unfold l1. by rewrite list_lookup_insert_ne. }
    { done. } { lia. } { done. } { done. } { lia. }
    { rewrite Hmidi1, Hlen3. done. }
    { done. }
    exists w'. split.
    { simpl. by rewrite (bind_run _ _ _ _ _ Hrun). }
    split; [congruence|]. split.
    { rewrite <- Hview1, Hl'. unfold l1. rewrite list_insert_insert_eq.
      do 2 f_equal. rewrite length_cons. lia. }
    split; [congruence|]. split; [congruence|]. split; [congruence|].
    rewrite Hmidi1 in Hbefore.
    assert (Hnext : Z.to_nat ((pending + 1) * MIDI_BUFFER_PAYLOAD_SIZE + cursor)
                    = (Z.to_nat n + Z.to_nat MIDI_BUFFER_PAYLOAD_SIZE)%nat)
      by (unfold n; lia).
    split.
    + intros j Hj. rewrite Hbefore by lia. unfold m3.
      by rewrite !list_lookup_insert_ne by lia.
    + intros [|i] status' data1' data2' Hi; simpl in Hi.
      * injection Hi as <- <- <-. rewrite Z.add_0_r. fold n. cbv zeta.
        rewrite !Hbefore by lia. unfold m3.
        split; [|split].
        -- rewrite !list_lookup_insert_ne by lia.
           apply list_lookup_insert_eq. lia.
        -- rewrite list_lookup_insert_ne by lia.
           apply list_lookup_insert_eq. rewrite length_insert. lia.
        -- apply list_lookup_insert_eq. rewrite !length_insert. lia.
      * specialize (Hevents i status' data1' data2' Hi). cbv zeta in Hevents |- *.
        by replace (pending + Z.of_nat (S i)) with (pending + 1 + Z.of_nat i) by lia.
Qed.

(** The loop of the worker over the pending events hands them to the
    engine one after the other. *)
Lemma rtmidi_loop (cursor : Z) (events : list (Z * Z * Z)) :
  ∀ (first : Z) (absIdx : Number) (w : World),
    (∀ (i : nat) status data1 data2,
       events !! i = Some (status, data1, data2) →
       let position := Z.to_nat ((first + Z.of_nat i) * MIDI_BUFFER_PAYLOAD_SIZE + cursor) in
       w.(midiBuffer) !! position = Some (ToInt32 status)
       ∧ w.(midiBuffer) !! S position = Some (ToInt32 data1)
       ∧ w.(midiBuffer) !! S (S position) = Some (ToInt32 data2)) →
    0 ≤ first → 0 ≤ cursor → 3 ≤ MIDI_BUFFER_PAYLOAD_SIZE →
    (first + Z.of_nat (length events)) * MIDI_BUFFER_PAYLOAD_SIZE + cursor ≤ MIDI_BUFFER_SIZE →
    ∃ absIdx',
      for_each (seqZ first (Z.of_nat (length events)))
        (λ idx _,
           let absIdx :=
             js_rem (Num (cursor + MIDI_BUFFER_PAYLOAD_SIZE * idx)) MIDI_BUFFER_SIZE in
           i ← ToIndex absIdx; status ← Atomics_load midiBufferView i;
           i ← ToIndex (js_add absIdx 1); data1 ← Atomics_load midiBufferView i;
           i ← ToIndex (js_add absIdx 2); data2 ← Atomics_load midiBufferView i;
           modify (λ w, set_csound
                          (csoundPushMidiMessage w.(csound) status data1 data2) w);;
           mret absIdx) absIdx w
      = Some (absIdx',
              set_csound
                (foldl (λ engine '(status, data1, data2),
                          csoundPushMidiMessage engine
                            (ToInt32 status) (ToInt32 data1) (ToInt32 data2))
                   w.(csound) events) w).
Proof.
  induction events as [|[[status data1] data2] events IH];
    intros first absIdx w Hevents Hfirst Hc Hpayload Hfit.
  - exists absIdx. simpl. by destruct w.
  - rewrite length_cons, Nat2Z.inj_succ in Hfit.
    rewrite length_cons, Nat2Z.inj_succ, seqZ_cons by lia.
    replace (Z.pred (Z.succ (Z.of_nat (length events)))) with (Z.of_nat (length events))
      by lia.
    set (n := cursor + MIDI_BUFFER_PAYLOAD_SIZE * first).
    assert (Hn : 0 ≤ n) by (unfold n; nia).
    assert (Hroom : n + MIDI_BUFFER_PAYLOAD_SIZE ≤ MIDI_BUFFER_SIZE) by (unfold n; nia).
    assert (Hrem : js_rem (Num n) MIDI_BUFFER_SIZE = Num n).
    { unfold js_rem. destruct (Z.eqb_spec MIDI_BUFFER_SIZE 0); [lia|].
      by rewrite Z.rem_small by lia. }
    destruct (Hevents 0%nat status data1 data2 eq_refl) as (Hstatus & Hdata1 & Hdata2).
    cbv zeta in Hstatus, Hdata1, Hdata2.
    replace ((first + Z.of_nat 0) * MIDI_BUFFER_PAYLOAD_SIZE + cursor) with n in Hstatus, Hdata1, Hdata2
      by (unfold n; lia).
    cbn [for_each]. cbv zeta. fold n. rewrite Hrem.
    set (w1 := set_csound
                 (csoundPushMidiMessage w.(csound)
                    (ToInt32 status) (ToInt32 data1) (ToInt32 data2)) w).
    destruct (IH (Z.succ first) (Num n) w1) as [absIdx' Hrest].
    { intros i status' data1' data2' Hi.
      specialize (Hevents (S i) status' data1' data2' Hi). cbv zeta in Hevents |- *.
      by replace (Z.succ first + Z.of_nat i) with (first + Z.of_nat (S i)) by lia. }
    { lia. } { done. } { done. } { lia. }
    exists absIdx'.
    assert (Hindex : ∀ k (w0 : World), 0 ≤ k →
              ToIndex (js_add (Num n) k) w0 = Some (Z.to_nat (n + k), w0)).
    { intros k w0 Hk. unfold ToIndex. simpl.
      destruct (Z.ltb_spec (n + k) 0); [lia | done]. }
    assert (Hindex0 : ToIndex (Num n) w = Some (Z.to_nat n, w)).
    { unfold ToIndex. simpl. destruct (Z.ltb_spec n 0); [lia | done]. }
    rewrite (bind_run _ _ w (Num n) w1); [exact Hrest|].
    rewrite (bind_run _ _ _ _ _ Hindex0).
    rewrite (bind_run _ _ _ _ _ (Atomics_load_run midiBufferView _ w _ Hstatus)).
    rewrite (bind_run _ _ _ _ _ (Hindex 1 w ltac:(lia))).
    replace (Z.to_nat (n + 1)) with (S (Z.to_nat n)) by lia.
    rewrite (bind_run _ _ _ _ _ (Atomics_load_run midiBufferView _ w _ Hdata1)).
    rewrite (bind_run _ _ _ _ _ (Hindex 2 w ltac:(lia))).
    replace (Z.to_nat (n + 2)) with (S (S (Z.to_nat n))) by lia.
    rewrite (bind_run _ _ _ _ _ (Atomics_load_run midiBufferView _ w _ Hdata2)).
    reflexivity.
Qed.

End MidiFifo.
Section MidiFifoExtras.
Context `{Constants} `{LibraryCsound}.

(** X14. The MIDI messages the host queues between two passes of the thread
    all reach the engine at the next pass, in the order they arrived
    and each once, as the 32-bit words they were stored as; and the queue
    is empty again. (The engine requested MIDI, the queue was empty, and
    the events fit between the cursor and the end of the ring, whose
    events are at least three words apart.) *)
Theorem handleMidiInput_reaches_the_engine (t : Worker.Thread) (w : World) (l : list Z)
    (events : list (Z * Z * Z)) (cursor : Z) :
  t.(Worker.audioStatePointer) = host_view w →
  t.(Worker.isRequestingRtMidiInput) ≠ 0 →
  AUDIO_STATE.(AVAIL_RTMIDI_EVENTS) ≠ AUDIO_STATE.(RTMIDI_INDEX) →
  contents (host_view w) w = Some l →
  l !! AUDIO_STATE.(AVAIL_RTMIDI_EVENTS) = Some 0 →
  l !! AUDIO_STATE.(RTMIDI_INDEX) = Some cursor →
  0 ≤ cursor → 3 ≤ MIDI_BUFFER_PAYLOAD_SIZE →
  Z.of_nat (length events) * MIDI_BUFFER_PAYLOAD_SIZE + cursor ≤ MIDI_BUFFER_SIZE →
  (Z.to_nat MIDI_BUFFER_SIZE ≤ length w.(midiBuffer))%nat →
  MIDI_BUFFER_SIZE < 2 ^ 31 →
  ∃ w',
    (for_each events
       (λ '(status, data1, data2) _, Main.handleMidiInput status data1 data2) ();;
     Worker.rtmidi t) w = Some ((), w')
    ∧ w'.(csound)
      = foldl (λ engine '(status, data1, data2),
                 csoundPushMidiMessage engine
                   (ToInt32 status) (ToInt32 data1) (ToInt32 data2))
          w.(csound) events
    ∧ word (host_view w) AUDIO_STATE.(AVAIL_RTMIDI_EVENTS) w' = Some 0.
Proof.
  intros Ht Hmidi Hne Hl Hpending Hcursor Hc Hpayload Hfit Hlen Hsize.
  destruct (handleMidiInput_queue cursor events w l 0 Hl Hpending Hcursor Hne
              ltac:(lia) Hc Hpayload ltac:(lia) Hlen Hsize)
    as (w1 & Hqueue & Hview1 & Hl1 & Hengine1 & _ & _ & _ & Hevents).
  rewrite (bind_run _ _ _ _ _ Hqueue).
  rewrite Z.add_0_l in Hl1.
  set (n := Z.of_nat (length events)) in *.
  set (l1 := <[AUDIO_STATE.(AVAIL_RTMIDI_EVENTS) := n]> l) in *.
  assert (HAVAIL : (AUDIO_STATE.(AVAIL_RTMIDI_EVENTS) < length l)%nat)
    by (by eapply lookup_lt_Some).
  assert (HIDX : (AUDIO_STATE.(RTMIDI_INDEX) < length l)%nat)
    by (by eapply lookup_lt_Some).
  assert (Hn1 : l1 !! AUDIO_STATE.(AVAIL_RTMIDI_EVENTS) = Some n)
    by (by apply list_lookup_insert_eq).
  assert (Hc1 : l1 !! AUDIO_STATE.(RTMIDI_INDEX) = Some cursor)
    by (unfold l1; by rewrite list_lookup_insert_ne).
  unfold Worker.rtmidi. cbv zeta. rewrite Ht.
  destruct (Z.eqb_spec t.(Worker.isRequestingRtMidiInput) 0); [done|].
  change (negb false) with true. cbv iota.
  rewrite (bind_run _ _ _ _ _ (Atomics_load_run (host_view w) _ w1 n
                                 ltac:(by unfold word; rewrite Hl1))).
  destruct (Z.ltb_spec 0 n) as [Hpos|Hzero].
  - rewrite (bind_run _ _ _ _ _ (Atomics_load_run (host_view w) _ w1 cursor
                                   ltac:(by unfold word; rewrite Hl1))).
    destruct (rtmidi_loop cursor events 0 (Num cursor) w1) as [absIdx Hloop];
      [| lia | done | done | lia |].
    { intros i status data1 data2 Hi. exact (Hevents i status data1 data2 Hi). }
    fold n in Hloop. rewrite (bind_run _ _ _ _ _ Hloop).
    set (w2 := set_csound _ w1) in *.
    assert (Hl2 : contents (host_view w) w2 = Some l1).
    { unfold w2. rewrite <- Hl1. by destruct (host_view w). }
    rewrite (bind_run _ _ _ _ _
               (Atomics_store_run (host_view w) AUDIO_STATE.(RTMIDI_INDEX) _ w2 l1 Hl2
                  ltac:(unfold l1; by rewrite length_insert))).
    set (l2 := <[AUDIO_STATE.(RTMIDI_INDEX) := _]> l1).
    set (w3 := set_contents (host_view w) l2 w2).
    assert (Hl3 : contents (host_view w) w3 = Some l2)
      by (apply contents_set_contents; by rewrite Hl2).
    assert (Hsub : Atomics_sub (host_view w) AUDIO_STATE.(AVAIL_RTMIDI_EVENTS) n w3
                   = Some (n, set_contents (host_view w)
                             (<[AUDIO_STATE.(AVAIL_RTMIDI_EVENTS) := ToInt32 (n - n)]> l2)
                             w3)).
    { apply Atomics_sub_Some. exists l2. split; [done|]. split; [|done].
      unfold l2. by rewrite list_lookup_insert_ne. }
    rewrite (bind_run _ _ _ _ _ Hsub).
    eexists. split; [reflexivity|]. split.
    + transitivity (w2.(csound)); [by destruct (host_view w)|].
      unfold w2. simpl. by rewrite Hengine1.
    + rewrite word_set_contents by (by rewrite Hl3).
      rewrite Z.sub_diag.
      apply list_lookup_insert_eq. unfold l2, l1. by rewrite !length_insert.
  - assert (events = []) as -> by (apply nil_length_inv; lia).
    exists w1. split; [reflexivity|]. split; [done|].
    unfold word. rewrite Hl1. simpl. exact Hn1.
Qed.

End MidiFifoExtras.
Section StopExtras.
Context `{Constants} `{LibraryCsound} `{!SabWorkerUtils}.

(** X11. [stop()] during a real-time performance ends it. The call sets
    [STOP] and rings the doorbell; the pass of the thread that the ring
    causes finds [STOP] at 1, ends the thread and broadcasts
    [realtimePerformanceEnded]; and when the host processes the
    broadcast the promise [stop()] waits for is resolved and the audio
    state is the template again, ready for the next [start()]. *)
Theorem csoundStop_ends_the_thread (t : Worker.Thread) (w : World) (l : list Z) :
  constants_ok →
  AUDIO_STATE.(ATOMIC_NOFITY) = AUDIO_STATE.(ATOMIC_NOTIFY) →
  t.(Worker.audioStatePointer) = host_view w →
  contents (host_view w) w = Some l →
  length l = length initialSharedState →
  has stopableStates w.(main).(currentPlayState) = true →
  w.(main).(currentPlayState) ≠ Some "renderStarted" →
  let stopPromise := w.(promises) in
  ∃ w1 w2 w3,
    Main.csoundStop w = Some (awaits stopPromise 0, w1)
    ∧ last w1.(trace) = Some (notify (host_view w) AUDIO_STATE.(ATOMIC_NOTIFY))
    ∧ Worker.wake t w1 = Some (Worker.thread_returns, w2)
    ∧ last w2.(trace) = Some (broadcastPlayState "realtimePerformanceEnded")
    ∧ Main.onPlayStateChange "realtimePerformanceEnded" w2 = Some ((), w3)
    ∧ stopPromise ∈ w3.(resolved)
    ∧ contents (host_view w) w3 = Some initialSharedState
    ∧ w3.(main).(currentPlayState) = Some "realtimePerformanceEnded".
Proof.
  intros (Hnd & Hin & Hint) Hspelling Ht Hl Hlen Hstate Hrender stopPromise.
  assert (HSTOP : (AUDIO_STATE.(STOP) < length l)%nat) by (rewrite Hlen; in_table 4%nat).
  assert (HPERF : (AUDIO_STATE.(IS_PERFORMING) < length l)%nat)
    by (rewrite Hlen; in_table 2%nat).
  assert (HPAUSED : (AUDIO_STATE.(IS_PAUSED) < length l)%nat)
    by (rewrite Hlen; in_table 3%nat).
  assert (HNOTIFY : (AUDIO_STATE.(ATOMIC_NOTIFY) < length l)%nat)
    by (rewrite Hlen; in_table 1%nat).
  assert (AUDIO_STATE.(STOP) ≠ AUDIO_STATE.(IS_PERFORMING)) by field_ne.
  assert (AUDIO_STATE.(STOP) ≠ AUDIO_STATE.(IS_PAUSED)) by field_ne.
  assert (AUDIO_STATE.(STOP) ≠ AUDIO_STATE.(ATOMIC_NOTIFY)) by field_ne.
  pose proof (csoundStop_run w l Hstate Hl HSTOP HPERF HPAUSED
                ltac:(by rewrite Hspelling) HNOTIFY) as Hstop.
  cbv zeta in Hstop. rewrite Hspelling in Hstop.
  destruct (decide (w.(main).(currentPlayState) = Some "renderStarted")); [done|].
  match type of Hstop with _ = Some (_, ?x) => set (w1 := x) in * end.
  set (l3 := <[AUDIO_STATE.(ATOMIC_NOTIFY) := 1]> _) in w1.
  assert (Hlen3 : length l3 = length l).
  { unfold l3. case_decide; by rewrite !length_insert. }
  assert (Hstop3 : l3 !! AUDIO_STATE.(STOP) = Some 1).
  { unfold l3. case_decide; rewrite !list_lookup_insert_ne by done;
      by apply list_lookup_insert_eq. }
  assert (Ha : (w.(main).(audioStatePointer) < length w.(sab))%nat).
  { unfold host_view, contents in Hl. by eapply lookup_lt_Some. }
  assert (Hl1 : contents (host_view w) w1 = Some l3).
  { unfold w1, host_view, contents. simpl. by apply list_lookup_insert_eq. }
  destruct (lookup_lt_is_Some_2 l3 AUDIO_STATE.(IS_PERFORMING)) as [performing Hperf];
    [lia|].
  pose proof (wake_ending t w1 1 performing
                ltac:(by rewrite Ht; unfold word; rewrite Hl1)
                ltac:(by rewrite Ht; unfold word; rewrite Hl1)
                ltac:(by left)) as Hwake.
  match type of Hwake with _ = Some (_, ?x) => set (w2 := x) in * end.
  assert (Hl2 : contents (host_view w2) w2 = Some l3).
  { unfold w2. by destruct (_ && _). }
  assert (Hmain2 : w2.(main) = w1.(main)) by (unfold w2; by destruct (_ && _)).
  assert (Hres2 : w2.(resolved) = w1.(resolved)) by (unfold w2; by destruct (_ && _)).
  assert (Hsab2 : w2.(sab) = w1.(sab)) by (unfold w2; by destruct (_ && _)).
  assert (Htrace2 : last w2.(trace) = Some (broadcastPlayState "realtimePerformanceEnded")).
  { unfold w2. simpl. by rewrite last_snoc. }
  assert (Htrace1 : last w1.(trace)
                    = Some (notify (host_view w) AUDIO_STATE.(ATOMIC_NOTIFY))).
  { unfold w1. simpl. by rewrite app_assoc, last_snoc. }
  assert (Hstop1 : w1.(main).(stopPromiz) = Some stopPromise) by reflexivity.
  assert (Hview1 : w1.(main).(audioStatePointer) = w.(main).(audioStatePointer))
    by reflexivity.
  assert (Hlen1 : length w1.(sab) = length w.(sab))
    by (unfold w1; simpl; by rewrite length_insert).
  clearbody w2 w1.
  pose proof (onPlayStateChange_ended w2 l3 Hl2 ltac:(lia)) as Hended.
  match type of Hended with _ = Some (_, ?x) => set (w3 := x) in * end.
  exists w1, w2, w3.
  split; [exact Hstop|]. split; [exact Htrace1|].
  split; [exact Hwake|]. split; [exact Htrace2|].
  split; [exact Hended|]. split.
  { unfold w3. simpl. rewrite Hmain2, Hstop1. simpl. set_solver. }
  split; [|done].
  unfold w3, host_view, contents. simpl. rewrite Hmain2, Hview1, Hsab2.
  rewrite list_lookup_insert_eq by lia.
  by rewrite fmap_ToInt32_id.
Qed.

(** [renderFn] on an audio state whose [STOP] is 1 performs no block:
    it marks the performance as running and as over again at once. *)
Lemma renderFn_stopped (rounds : nat) (args : Main.StartArguments)
    (w : World) (l : list Z) :
  let r := audioStateView args.(Main.args_audioStateBuffer) in
  contents r w = Some l →
  l !! AUDIO_STATE.(STOP) = Some 1 →
  (AUDIO_STATE.(IS_PERFORMING) < length l)%nat →
  AUDIO_STATE.(STOP) ≠ AUDIO_STATE.(IS_PERFORMING) →
  Worker.renderFn (S rounds) args w
  = Some (Worker.render_returns,
          set_contents r (<[AUDIO_STATE.(IS_PERFORMING) := 0]> l) w).
Proof.
  intros r Hl Hstop HPERF Hne. unfold Worker.renderFn. cbv zeta. fold r.
  rewrite (bind_run _ _ _ _ _ (Atomics_store_run r _ 1 w l Hl HPERF)).
  set (l1 := <[AUDIO_STATE.(IS_PERFORMING) := ToInt32 1]> l).
  set (w1 := set_contents r l1 w).
  assert (Hl1 : contents r w1 = Some l1) by (apply contents_set_contents; by rewrite Hl).
  simpl. unfold and_then.
  assert (Hload : Atomics_load r AUDIO_STATE.(STOP) w1 = Some (1, w1)).
  { apply Atomics_load_run. unfold word. rewrite Hl1. simpl.
    unfold l1. by rewrite list_lookup_insert_ne. }
  rewrite (bind_run _ _ w1 false w1).
  2:{ rewrite (bind_run _ _ w1 false w1); [done|].
      by rewrite (bind_run _ _ _ _ _ Hload). }
  rewrite (bind_run _ _ _ _ _
             (Atomics_store_run r AUDIO_STATE.(IS_PERFORMING) 0 w1 l1 Hl1
                ltac:(unfold l1; by rewrite length_insert))).
  unfold mret, M_ret, w1, l1. by rewrite set_contents_twice, list_insert_insert_eq.
Qed.

(** The loop of [renderFn] on an audio state that says "paused": every
    round gets through the [Atomics.wait]. *)
Lemma render_loop_paused (rounds : nat) (r : Int32Array) :
  callbacks_keep [AUDIO_STATE.(STOP); AUDIO_STATE.(IS_PAUSED);
                  AUDIO_STATE.(IS_PERFORMING)] →
  AUDIO_STATE.(IS_PERFORMING) ≠ AUDIO_STATE.(IS_PAUSED) →
  ∀ (w : World) (l : list Z) (stop performing : Z),
    contents r w = Some l →
    l !! AUDIO_STATE.(STOP) = Some stop → stop ≠ 1 →
    l !! AUDIO_STATE.(IS_PAUSED) = Some 1 →
    l !! AUDIO_STATE.(IS_PERFORMING) = Some performing →
    ∃ res w', Worker.render_loop rounds r w = Some (res, w')
      ∧ word r AUDIO_STATE.(IS_PAUSED) w' = Some 1
      ∧ (res = Worker.render_loops
         ∨ res = Worker.render_returns
           ∧ word r AUDIO_STATE.(IS_PERFORMING) w' = Some 0)
      ∧ ((∀ engine, (csoundPerformKsmps engine).1 = 0) → res = Worker.render_loops).
Proof.
  intros Hkeep Hne.
  induction rounds as [|rounds IH]; intros w l stop performing Hl Hstop Hstop1 Hpaused Hperf.
  - exists Worker.render_loops, w. unfold word. rewrite Hl. by repeat split; try left.
  - cbn [Worker.render_loop].
    assert (Hload : Atomics_load r AUDIO_STATE.(STOP) w = Some (stop, w))
      by (apply Atomics_load_run; unfold word; by rewrite Hl).
    destruct (csoundPerformKsmps w.(csound)) as [result engine] eqn:Hengine.
    set (w1 := set_csound engine w).
    assert (Hl1 : contents r w1 = Some l) by (by destruct r).
    assert (Hcondition :
              ((v ← Atomics_load r AUDIO_STATE.(STOP); mret (negb (v =? 1))) &&&
               (result ← Worker.libraryCsound_call csoundPerformKsmps;
                mret (result =? 0))) w
              = Some (result =? 0, w1)).
    { unfold and_then, Worker.libraryCsound_call, mbind, M_bind, mret, M_ret.
      rewrite Hload. destruct (Z.eqb_spec stop 1) as [|_]; [done|]. cbn [negb].
      by rewrite Hengine. }
    rewrite (bind_run _ _ _ _ _ Hcondition).
    destruct (Z.eqb_spec result 0) as [->|Hresult].
    + assert (Hload1 : Atomics_load r AUDIO_STATE.(IS_PAUSED) w1 = Some (1, w1))
        by (apply Atomics_load_run; unfold word; by rewrite Hl1).
      rewrite (bind_run _ _ _ _ _ Hload1). cbn [Z.eqb Pos.eqb].
      rewrite (bind_run _ _ w1 not_equal w1)
        by (unfold Atomics_wait; by rewrite (bind_run _ _ _ _ _ Hload1)).
      unfold Worker.render_callbacks at 1.
      destruct (handleSABCallbacks l w1.(callbackBuffer) w1.(csound))
        as [[l' requests] engine'] eqn:Hcallbacks.
      set (w2 := set_csound engine' (set_callbackBuffer requests (set_contents r l' w1))).
      assert (Hl2 : contents r w2 = Some l').
      { unfold w2. transitivity (contents r (set_contents r l' w1)); [by destruct r|].
        apply contents_set_contents. by rewrite Hl1. }
      assert (Hl' : ∀ j, j ∈ [AUDIO_STATE.(STOP); AUDIO_STATE.(IS_PAUSED);
                              AUDIO_STATE.(IS_PERFORMING)] → l' !! j = l !! j).
      { intros j Hj. pose proof (Hkeep l w1.(callbackBuffer) w1.(csound) j Hj) as Hj'.
        by rewrite Hcallbacks in Hj'. }
      destruct (IH w2 l' stop performing Hl2) as (res & w' & Hrun & ?);
        [ rewrite Hl', Hstop; [done|set_solver] | done
        | rewrite Hl', Hpaused; [done|set_solver]
        | rewrite Hl', Hperf; [done|set_solver] |].
      exists res, w'. split; [|done].
      rewrite (bind_run _ _ w1 () w2); [exact Hrun|].
      unfold mbind, M_bind, option_bind. by rewrite Hl1, Hcallbacks.
    + pose proof (Atomics_store_run r AUDIO_STATE.(IS_PERFORMING) 0 w1 l Hl1
                    (lookup_lt_Some _ _ _ Hperf)) as Hstore.
      rewrite (bind_run _ _ _ _ _ Hstore).
      eexists _, _. split; [reflexivity|].
      rewrite !word_set_contents by (by rewrite Hl1).
      split; [by rewrite list_lookup_insert_ne|].
      split.
      * right. split; [done|]. apply list_lookup_insert_eq. by eapply lookup_lt_Some.
      * intros Hzero. specialize (Hzero w.(csound)). rewrite Hengine in Hzero. done.
Qed.

(** X17. A pause does not hold a render. On an audio state with
    [IS_PAUSED] at 1 and [STOP] not at 1, [renderFn] run by itself (no
    other thread writes the audio state while it runs) completes any
    number of rounds of its loop without sleeping: the [Atomics.wait] of
    line 280 expects 0, finds the 1 that line 278 has just read and
    returns at once. After the rounds [renderFn] is at the head of its
    loop again, or it has returned, with [IS_PERFORMING] at 0; with an
    engine that never reports the end it is still looping. [IS_PAUSED]
    is still 1. (Serving the callback requests leaves [STOP],
    [IS_PAUSED] and [IS_PERFORMING] alone.) *)
Theorem renderFn_while_paused (rounds : nat) (args : Main.StartArguments)
    (w : World) (l : list Z) (stop performing : Z) :
  let r := audioStateView args.(Main.args_audioStateBuffer) in
  callbacks_keep [AUDIO_STATE.(STOP); AUDIO_STATE.(IS_PAUSED);
                  AUDIO_STATE.(IS_PERFORMING)] →
  AUDIO_STATE.(IS_PERFORMING) ≠ AUDIO_STATE.(IS_PAUSED) →
  AUDIO_STATE.(IS_PERFORMING) ≠ AUDIO_STATE.(STOP) →
  contents r w = Some l →
  l !! AUDIO_STATE.(STOP) = Some stop → stop ≠ 1 →
  l !! AUDIO_STATE.(IS_PAUSED) = Some 1 →
  l !! AUDIO_STATE.(IS_PERFORMING) = Some performing →
  ∃ res w', Worker.renderFn rounds args w = Some (res, w')
    ∧ word r AUDIO_STATE.(IS_PAUSED) w' = Some 1
    ∧ (res = Worker.render_loops
       ∨ res = Worker.render_returns
         ∧ word r AUDIO_STATE.(IS_PERFORMING) w' = Some 0)
    ∧ ((∀ engine, (csoundPerformKsmps engine).1 = 0) → res = Worker.render_loops).
Proof.
  intros r Hkeep Hne1 Hne2 Hl Hstop Hstop1 Hpaused Hperf.
  unfold Worker.renderFn. cbv zeta. fold r.
  pose proof (Atomics_store_run r AUDIO_STATE.(IS_PERFORMING) 1 w l Hl
                (lookup_lt_Some _ _ _ Hperf)) as Hstore.
  rewrite (bind_run _ _ _ _ _ Hstore).
  apply (render_loop_paused rounds r Hkeep Hne1 _
           (<[AUDIO_STATE.(IS_PERFORMING) := ToInt32 1]> l) stop (ToInt32 1)).
  - apply contents_set_contents. by rewrite Hl.
  - by rewrite list_lookup_insert_ne.
  - done.
  - by rewrite list_lookup_insert_ne.
  - apply list_lookup_insert_eq. by eapply lookup_lt_Some.
Qed.

(** X12. [stop()] during a render sets [STOP] and rings no doorbell, and the
    host processing [renderEnded] resolves the promise [stop()] waits
    for but, unlike for [realtimePerformanceEnded], leaves the audio
    state alone: [STOP] stays 1. A render started on that audio state
    then performs no block at all, since [renderFn] does not reset the
    audio state either. *)
Theorem render_after_csoundStop (args : Main.StartArguments) (w : World) (l : list Z)
    (rounds : nat) :
  constants_ok →
  args.(Main.args_audioStateBuffer) = w.(main).(audioStatePointer) →
  contents (host_view w) w = Some l →
  length l = length initialSharedState →
  w.(main).(currentPlayState) = Some "renderStarted" →
  "renderStarted" ∈ stopableStates →
  let stopPromise := w.(promises) in
  ∃ w1 w2 w3,
    Main.csoundStop w = Some (awaits stopPromise 0, w1)
    ∧ w1.(trace) = w.(trace)
    ∧ Main.onPlayStateChange "renderEnded" w1 = Some ((), w2)
    ∧ stopPromise ∈ w2.(resolved)
    ∧ word (host_view w) AUDIO_STATE.(STOP) w2 = Some 1
    ∧ Worker.renderFn (S rounds) args w2 = Some (Worker.render_returns, w3)
    ∧ w3.(csound) = w.(csound).
Proof.
  intros (Hnd & Hin & Hint) Hargs Hl Hlen Hstate Hstopable stopPromise.
  assert (HSTOP : (AUDIO_STATE.(STOP) < length l)%nat) by (rewrite Hlen; in_table 4%nat).
  assert (HPERF : (AUDIO_STATE.(IS_PERFORMING) < length l)%nat)
    by (rewrite Hlen; in_table 2%nat).
  assert (HPAUSED : (AUDIO_STATE.(IS_PAUSED) < length l)%nat)
    by (rewrite Hlen; in_table 3%nat).
  assert (HNOTIFY : (AUDIO_STATE.(ATOMIC_NOTIFY) < length l)%nat)
    by (rewrite Hlen; in_table 1%nat).
  assert (HNOFITY : (AUDIO_STATE.(ATOMIC_NOFITY) < length l)%nat)
    by (rewrite Hlen; in_table 0%nat).
  assert (Hne : AUDIO_STATE.(STOP) ≠ AUDIO_STATE.(IS_PERFORMING)) by field_ne.
  assert (Hstopable' : has stopableStates w.(main).(currentPlayState) = true)
    by (rewrite Hstate; by apply bool_decide_eq_true).
  pose proof (csoundStop_run w l Hstopable' Hl HSTOP HPERF HPAUSED HNOFITY HNOTIFY)
    as Hstop.
  cbv zeta in Hstop. rewrite Hstate in Hstop.
  destruct (decide (Some "renderStarted" = Some "realtimePerformancePaused")); [done|].
  destruct (decide (Some "renderStarted" = Some "renderStarted")); [|done].
  rewrite !app_nil_r in Hstop.
  set (l1 := <[AUDIO_STATE.(IS_PERFORMING) := 0]> (<[AUDIO_STATE.(STOP) := 1]> l)) in *.
  assert (Hstop1 : l1 !! AUDIO_STATE.(STOP) = Some 1).
  { unfold l1. rewrite list_lookup_insert_ne by done. by apply list_lookup_insert_eq. }
  assert (Ha : (w.(main).(audioStatePointer) < length w.(sab))%nat).
  { unfold host_view, contents in Hl. by eapply lookup_lt_Some. }
  match type of Hstop with _ = Some (_, ?x) => set (w1 := x) in * end.
  pose proof (onPlayStateChange_other "renderEnded" w1 ltac:(done) ltac:(done)) as Hended.
  match type of Hended with _ = Some (_, ?x) => set (w2 := x) in * end.
  assert (Hl2 : contents (audioStateView args.(Main.args_audioStateBuffer)) w2 = Some l1).
  { rewrite Hargs. unfold w2, contents. simpl. by apply list_lookup_insert_eq. }
  pose proof (renderFn_stopped rounds args w2 l1 Hl2 Hstop1
                ltac:(unfold l1; by rewrite !length_insert) Hne) as Hrender.
  match type of Hrender with _ = Some (_, ?x) => set (w3 := x) in * end.
  exists w1, w2, w3.
  split; [exact Hstop|]. split; [reflexivity|]. split; [exact Hended|].
  split; [unfold w2; simpl; set_solver|].
  split; [|split; [exact Hrender|reflexivity]].
  unfold host_view. rewrite <- Hargs. unfold word. by rewrite Hl2.
Qed.

End StopExtras.
Section SetupRuns.
Context `{Constants} `{LibraryCsound} `{!SabWorkerUtils}.

(** The views the setup creates over an audio stream, one for each
    channel. *)
Lemma channels_run (elements : World → nat) (channelIndices : list Z) :
  ∀ (channels channels' : list Worker.Float64Array) (w w' : World),
    for_each channelIndices
      (λ channelIndex channels,
         n ← gets elements;
         channel ← Worker.new_Float64Array n
                     (MAX_HARDWARE_BUFFER_SIZE * channelIndex) MAX_HARDWARE_BUFFER_SIZE;
         mret (channels ++ [channel])) channels w
    = Some (channels', w') →
    w' = w
    ∧ channels'
      = channels
        ++ ((λ channelIndex,
               {| Worker.byteOffset := MAX_HARDWARE_BUFFER_SIZE * channelIndex;
                  Worker.size := MAX_HARDWARE_BUFFER_SIZE |}) <$> channelIndices)
    ∧ Forall (λ channelIndex, (MAX_HARDWARE_BUFFER_SIZE * channelIndex) `mod` 8 = 0)
        channelIndices.
Proof.
  induction channelIndices as [|k ks IH]; intros channels channels' w w' Hrun;
    simpl in Hrun.
  - apply ret_Some in Hrun as [-> ->]. by rewrite app_nil_r.
  - apply bind_Some in Hrun as (channels1 & w1 & Hstep & Hrun).
    apply bind_Some in Hstep as (n & ? & [-> ->]%gets_Some & Hstep).
    apply bind_Some in Hstep as (channel & w2 & Hnew & [-> ->]%ret_Some).
    unfold Worker.new_Float64Array in Hnew.
    destruct (_ || _) eqn:Hbad; [done|].
    apply ret_Some in Hnew as [-> ->].
    apply IH in Hrun as (-> & -> & Hrest).
    split; [done|]. split; [by rewrite <- app_assoc|].
    constructor; [|done].
    apply orb_false_iff in Hbad as [Hbad _]. apply orb_false_iff in Hbad as [Hbad _].
    apply orb_false_iff in Hbad as [_ Hbad]. apply negb_false_iff in Hbad. lia.
Qed.

(** The variables of the thread and the audio state when the setup is
    through. *)
Lemma sabCreateRealtimeAudioThread_inv (args : Main.StartArguments)
    (w w' : World) (t : Worker.Thread) :
  NoDup (audio_state_fields AUDIO_STATE) →
  Worker.sabCreateRealtimeAudioThread args w = Some (t, w') →
  let r := audioStateView args.(Main.args_audioStateBuffer) in
  let engine := w.(csound) in
  let inputs := if includes (csoundGetInputName engine) "adc"
                then csoundGetNchnlsInput engine else 0 in
  let view := λ channelIndex,
    {| Worker.byteOffset := MAX_HARDWARE_BUFFER_SIZE * channelIndex;
       Worker.size := MAX_HARDWARE_BUFFER_SIZE |} in
  t = {| Worker.audioStatePointer := r;
         Worker.isRequestingRtMidiInput := _isRequestingRtMidiInput engine;
         Worker.nchnls := csoundGetNchnls engine;
         Worker.nchnlsInput := inputs;
         Worker.ksmps := csoundGetKsmps engine;
         Worker.zeroDecibelFullScale := csoundGet0dBFS engine;
         Worker._B := t.(Worker._B); Worker._b := t.(Worker._b);
         Worker.channelsOutput := view <$> seqZ 0 (csoundGetNchnls engine);
         Worker.channelsInput := view <$> seqZ 0 inputs;
         Worker.lastReturn := 0; Worker.performanceEnded := false;
         Worker.firstRound := true |}
  ∧ Forall (λ channelIndex, (MAX_HARDWARE_BUFFER_SIZE * channelIndex) `mod` 8 = 0)
      (seqZ 0 (csoundGetNchnls engine))
  ∧ w'.(csound) = engine
  ∧ w'.(main) = w.(main)
  ∧ w'.(midiBuffer) = w.(midiBuffer)
  ∧ w'.(trace) = w.(trace) ++ [broadcastPlayState "realtimePerformanceStarted"]
  ∧ word r AUDIO_STATE.(NCHNLS) w' = Some (ToInt32 (csoundGetNchnls engine))
  ∧ word r AUDIO_STATE.(NCHNLS_I) w' = Some (ToInt32 inputs)
  ∧ word r AUDIO_STATE.(SAMPLE_RATE) w' = Some (ToInt32 (csoundGetSr engine))
  ∧ word r AUDIO_STATE.(IS_REQUESTING_RTMIDI) w'
    = Some (ToInt32 (_isRequestingRtMidiInput engine))
  ∧ word r AUDIO_STATE.(IS_PERFORMING) w' = Some 1
  ∧ word r AUDIO_STATE.(HW_BUFFER_SIZE) w' = Some t.(Worker._B)
  ∧ word r AUDIO_STATE.(SW_BUFFER_SIZE) w' = Some t.(Worker._b)
  ∧ (∀ v, initialSharedState !! AUDIO_STATE.(HW_BUFFER_SIZE) = Some v →
          t.(Worker._B) = ToInt32 v)
  ∧ (∀ v, initialSharedState !! AUDIO_STATE.(SW_BUFFER_SIZE) = Some v →
          t.(Worker._b) = ToInt32 v).
Proof.
  intros Hnd Hrun r engine inputs view.
  unfold Worker.sabCreateRealtimeAudioThread in Hrun.
  cbv zeta in Hrun. fold r in Hrun.
  apply bind_Some in Hrun as ([] & w1 & Hloop & Hrun).
  assert (Hw1 : w1.(csound) = engine ∧ w1.(main) = w.(main)
                ∧ w1.(midiBuffer) = w.(midiBuffer) ∧ w1.(trace) = w.(trace)).
  { revert Hloop.
    match goal with
    | |- ?m w = _ → _ =>
        intros Hloop;
        cut (keeps (λ w, (w.(csound), w.(main), w.(midiBuffer), w.(trace))) m);
        [intros Hkeeps; by injection (Hkeeps _ _ _ Hloop) as -> -> -> ->|]
    end.
    apply keeps_for_each. intros [index value] []. simpl. by apply keeps_store. }
  assert (Htemplate : ∀ l1, contents r w1 = Some l1 →
                        ∀ j v, initialSharedState !! j = Some v →
                          l1 !! j = Some (ToInt32 v)).
  { destruct (decide (initialSharedState = [])) as [Hnil|Hne].
    - rewrite Hnil. by intros ? _ ? ?.
    - pose proof (store_values_inv (λ _, r) initialSharedState
                    (λ _ _ _, eq_refl) 0 w w1 Hloop Hne) as (l0 & Hl0 & Hlen0).
      pose proof (store_values_run (λ _, r) initialSharedState
                    (λ _ _ _, eq_refl) 0 l0 w Hl0 Hlen0) as Hfwd.
      assert (w1 = set_contents r
                (take 0 l0 ++ (ToInt32 <$> initialSharedState)
                 ++ drop (0 + length initialSharedState) l0) w) as ->
        by (cut (Some ((), w1) = Some ((), set_contents r
                   (take 0 l0 ++ (ToInt32 <$> initialSharedState)
                    ++ drop (0 + length initialSharedState) l0) w));
            [congruence | rewrite <- Hloop; exact Hfwd]).
      intros l1 Hl1 j v Hj.
      rewrite contents_set_contents in Hl1 by (by rewrite Hl0).
      injection Hl1 as <-. simpl.
      rewrite lookup_app_l by (rewrite length_fmap; by eapply lookup_lt_Some).
      by rewrite list_lookup_fmap, Hj. }
  clear Hloop. destruct Hw1 as (Hengine1 & Hmain1 & Hmidi1 & Htrace1).
  unfold Worker.libraryCsound_get in Hrun.
  apply bind_Some in Hrun as (isRequestingRtMidiInput & ? & [-> ->]%gets_Some & Hrun).
  apply bind_Some in Hrun as (isExpectingInput & ? & [-> ->]%gets_Some & Hrun).
  apply bind_Some in Hrun as (nchnls & ? & [-> ->]%gets_Some & Hrun).
  apply bind_Some in Hrun as (nchnlsInput & w2 & Hstep & Hrun).
  rewrite !Hengine1 in Hrun, Hstep.
  assert (w2 = w1 ∧ nchnlsInput = inputs) as [-> ->].
  { unfold inputs. destruct (includes _ _).
    - apply gets_Some in Hstep as [-> ->]. by rewrite Hengine1.
    - by apply ret_Some in Hstep as [-> ->]. }
  clear Hstep.
  apply bind_Some in Hrun as (sampleRate & ? & [-> ->]%gets_Some & Hrun).
  rewrite !Hengine1 in Hrun.
  apply bind_Some in Hrun as ([] & w2 & Hstep & Hrun).
  apply Atomics_store_Some in Hstep as (l1 & Hl1 & HN & ->).
  specialize (Htemplate l1 Hl1).
  apply bind_Some in Hrun as ([] & w3 & Hstep & Hrun).
  apply Atomics_store_Some in Hstep as (l2 & Hl2 & HNI & ->).
  rewrite contents_set_contents in Hl2 by (by rewrite Hl1). injection Hl2 as <-.
  rewrite set_contents_twice in Hrun.
  apply bind_Some in Hrun as ([] & w4 & Hstep & Hrun).
  apply Atomics_store_Some in Hstep as (l3 & Hl3 & HSR & ->).
  rewrite contents_set_contents in Hl3 by (by rewrite Hl1). injection Hl3 as <-.
  rewrite set_contents_twice in Hrun.
  apply bind_Some in Hrun as ([] & w5 & Hstep & Hrun).
  apply Atomics_store_Some in Hstep as (l4 & Hl4 & HREQ & ->).
  rewrite contents_set_contents in Hl4 by (by rewrite Hl1). injection Hl4 as <-.
  rewrite set_contents_twice in Hrun.
  match type of Hrun with context [set_contents r ?x w1] => set (l5 := x) in * end.
  set (w5 := set_contents r l5 w1) in *.
  assert (Hl5 : contents r w5 = Some l5) by (apply contents_set_contents; by rewrite Hl1).
  assert (Hengine5 : w5.(csound) = engine) by (by unfold w5, r).
  assert (Hmain5 : w5.(main) = w.(main)) by (by unfold w5, r).
  assert (Hmidi5 : w5.(midiBuffer) = w.(midiBuffer)) by (by unfold w5, r).
  assert (Htrace5 : w5.(trace) = w.(trace)) by (by unfold w5, r).
  clearbody w5.
  apply bind_Some in Hrun as (ksmps & ? & [-> ->]%gets_Some & Hrun).
  apply bind_Some in Hrun as (zeroDecibelFullScale & ? & [-> ->]%gets_Some & Hrun).
  apply bind_Some in Hrun as (_B & ? & [-> HB]%Atomics_load_Some & Hrun).
  apply bind_Some in Hrun as (_b & ? & [-> Hb]%Atomics_load_Some & Hrun).
  apply bind_Some in Hrun as (channelsOutput & w6 & Hstep & Hrun).
  apply channels_run in Hstep as (-> & -> & Haligned).
  apply bind_Some in Hrun as (channelsInput & w6 & Hstep & Hrun).
  apply channels_run in Hstep as (-> & -> & _).
  apply bind_Some in Hrun as ([] & w6 & Hstep & Hrun).
  apply Atomics_store_Some in Hstep as (? & Hl5' & HPERF & ->).
  rewrite Hl5 in Hl5'. injection Hl5' as <-.
  apply bind_Some in Hrun as ([] & w7 & Hstep & [-> ->]%ret_Some).
  apply emit_Some in Hstep as ->.
  rewrite Hengine5. simpl.
  assert (Hword : ∀ j, word r j
                    (set_trace
                       (trace (set_contents r
                                 (<[AUDIO_STATE.(IS_PERFORMING) := ToInt32 1]> l5) w5)
                        ++ [broadcastPlayState "realtimePerformanceStarted"])
                       (set_contents r (<[AUDIO_STATE.(IS_PERFORMING) := ToInt32 1]> l5) w5))
                  = <[AUDIO_STATE.(IS_PERFORMING) := ToInt32 1]> l5 !! j).
  { intros j. rewrite word_set_trace. apply word_set_contents. by rewrite Hl5. }
  rewrite !Hword.
  assert (AUDIO_STATE.(IS_PERFORMING) ≠ AUDIO_STATE.(NCHNLS)) by field_ne.
  assert (AUDIO_STATE.(IS_PERFORMING) ≠ AUDIO_STATE.(NCHNLS_I)) by field_ne.
  assert (AUDIO_STATE.(IS_PERFORMING) ≠ AUDIO_STATE.(SAMPLE_RATE)) by field_ne.
  assert (AUDIO_STATE.(IS_PERFORMING) ≠ AUDIO_STATE.(IS_REQUESTING_RTMIDI)) by field_ne.
  assert (AUDIO_STATE.(IS_PERFORMING) ≠ AUDIO_STATE.(HW_BUFFER_SIZE)) by field_ne.
  assert (AUDIO_STATE.(IS_PERFORMING) ≠ AUDIO_STATE.(SW_BUFFER_SIZE)) by field_ne.
  assert (AUDIO_STATE.(IS_REQUESTING_RTMIDI) ≠ AUDIO_STATE.(NCHNLS)) by field_ne.
  assert (AUDIO_STATE.(IS_REQUESTING_RTMIDI) ≠ AUDIO_STATE.(NCHNLS_I)) by field_ne.
  assert (AUDIO_STATE.(IS_REQUESTING_RTMIDI) ≠ AUDIO_STATE.(SAMPLE_RATE)) by field_ne.
  assert (AUDIO_STATE.(IS_REQUESTING_RTMIDI) ≠ AUDIO_STATE.(HW_BUFFER_SIZE)) by field_ne.
  assert (AUDIO_STATE.(IS_REQUESTING_RTMIDI) ≠ AUDIO_STATE.(SW_BUFFER_SIZE)) by field_ne.
  assert (AUDIO_STATE.(SAMPLE_RATE) ≠ AUDIO_STATE.(NCHNLS)) by field_ne.
  assert (AUDIO_STATE.(SAMPLE_RATE) ≠ AUDIO_STATE.(NCHNLS_I)) by field_ne.
  assert (AUDIO_STATE.(SAMPLE_RATE) ≠ AUDIO_STATE.(HW_BUFFER_SIZE)) by field_ne.
  assert (AUDIO_STATE.(SAMPLE_RATE) ≠ AUDIO_STATE.(SW_BUFFER_SIZE)) by field_ne.
  assert (AUDIO_STATE.(NCHNLS_I) ≠ AUDIO_STATE.(NCHNLS)) by field_ne.
  assert (AUDIO_STATE.(NCHNLS_I) ≠ AUDIO_STATE.(HW_BUFFER_SIZE)) by field_ne.
  assert (AUDIO_STATE.(NCHNLS_I) ≠ AUDIO_STATE.(SW_BUFFER_SIZE)) by field_ne.
  assert (AUDIO_STATE.(NCHNLS) ≠ AUDIO_STATE.(HW_BUFFER_SIZE)) by field_ne.
  assert (AUDIO_STATE.(NCHNLS) ≠ AUDIO_STATE.(SW_BUFFER_SIZE)) by field_ne.
  unfold word in HB, Hb. rewrite Hl5 in HB, Hb. simpl in HB, Hb.
  assert (Hlen5 : length l5 = length l1) by (unfold l5; by rewrite !length_insert).
  assert (HB1 : l1 !! AUDIO_STATE.(HW_BUFFER_SIZE) = Some _B).
  { revert HB. unfold l5. by rewrite !list_lookup_insert_ne by done. }
  assert (Hb1 : l1 !! AUDIO_STATE.(SW_BUFFER_SIZE) = Some _b).
  { revert Hb. unfold l5. by rewrite !list_lookup_insert_ne by done. }
  rewrite !length_insert in HSR. rewrite !length_insert in HREQ.
  rewrite !length_insert in HNI.
  rewrite Hlen5 in HPERF.
  split; [reflexivity|]. split; [done|].
  split; [done|]. split; [done|]. split; [done|]. split; [by rewrite Htrace5|].
  unfold l5.
  split.
  { rewrite !list_lookup_insert_ne by done. by apply list_lookup_insert_eq. }
  split.
  { rewrite !list_lookup_insert_ne by done.
    apply list_lookup_insert_eq. by rewrite !length_insert. }
  split.
  { rewrite !list_lookup_insert_ne by done.
    apply list_lookup_insert_eq. by rewrite !length_insert. }
  split.
  { rewrite !list_lookup_insert_ne by done.
    apply list_lookup_insert_eq. by rewrite !length_insert. }
  split.
  { by rewrite (list_lookup_insert_eq _ _ (ToInt32 1)) by (by rewrite !length_insert). }
  split; [by rewrite !list_lookup_insert_ne by done|].
  split; [by rewrite !list_lookup_insert_ne by done|].
  split; intros v Hv; apply Htemplate in Hv; congruence.
Qed.

End SetupRuns.
Section SetupExtras.
Context `{Constants} `{LibraryCsound} `{!SabWorkerUtils}.

(** X13. The parameters of the performance get from the engine to the audio
    backend through the audio state: when the host, whose audio-state
    array is the one the thread was started on, processes the
    [realtimePerformanceStarted] that the setup broadcast, it stamps
    onto the audio backend the channel counts, the sample rate and the
    MIDI request the engine answered (as 32-bit words), and the buffer
    sizes [_B] and [_b] the thread itself runs on. *)
Theorem realtimePerformanceStarted_stamps_audioWorker (args : Main.StartArguments)
    (w w1 : World) (t : Worker.Thread) :
  NoDup (audio_state_fields AUDIO_STATE) →
  args.(Main.args_audioStateBuffer) = w.(main).(audioStatePointer) →
  Worker.sabCreateRealtimeAudioThread args w = Some (t, w1) →
  ∃ w2,
    Main.onPlayStateChange "realtimePerformanceStarted" w1 = Some ((), w2)
    ∧ w2.(main).(audioWorker)
      = {| isRequestingInput := 0 <? ToInt32 t.(Worker.nchnlsInput);
           isRequestingMidi := ToInt32 t.(Worker.isRequestingRtMidiInput);
           sampleRate := ToInt32 (csoundGetSr w.(csound));
           inputCount := ToInt32 t.(Worker.nchnlsInput);
           outputsCount := ToInt32 t.(Worker.nchnls);
           hardwareBufferSize := t.(Worker._B);
           softwareBufferSize := t.(Worker._b) |}
    ∧ w2.(main).(currentPlayState) = Some "realtimePerformanceStarted"
    ∧ w2.(sab) = w1.(sab).
Proof.
  intros Hnd Hargs Hrun.
  destruct (sabCreateRealtimeAudioThread_inv args w w1 t Hnd Hrun)
    as (Ht & _ & _ & Hmain & _ & _ & HN & HNI & HSR & HREQ & _ & HB & Hb & _).
  assert (Hview : host_view w1 = audioStateView args.(Main.args_audioStateBuffer)).
  { unfold host_view. by rewrite Hmain, Hargs. }
  rewrite <- Hview in HN, HNI, HSR, HREQ, HB, Hb.
  unfold word in *.
  destruct (contents (host_view w1) w1) as [l|] eqn:Hl; [|done]. simpl in *.
  rewrite (onPlayStateChange_started w1 l _ _ _ _ _ _ Hl HN HNI HREQ HSR HB Hb).
  eexists. split; [reflexivity|]. simpl. rewrite Ht. simpl. done.
Qed.

(** X18. The setup asks the engine for its input channels only when the name
    of the engine's input contains "adc": otherwise the thread has no
    input channel, creates no view of the input stream and writes 0 into
    [NCHNLS_I], so that the host does not request the microphone. The
    engine is only queried: the setup leaves it as it is. *)
Theorem sabCreateRealtimeAudioThread_input_on_demand (args : Main.StartArguments)
    (w w' : World) (t : Worker.Thread) :
  NoDup (audio_state_fields AUDIO_STATE) →
  Worker.sabCreateRealtimeAudioThread args w = Some (t, w') →
  let r := audioStateView args.(Main.args_audioStateBuffer) in
  (if includes (csoundGetInputName w.(csound)) "adc"
   then t.(Worker.nchnlsInput) = csoundGetNchnlsInput w.(csound)
        ∧ length t.(Worker.channelsInput) = Z.to_nat (csoundGetNchnlsInput w.(csound))
        ∧ word r AUDIO_STATE.(NCHNLS_I) w'
          = Some (ToInt32 (csoundGetNchnlsInput w.(csound)))
   else t.(Worker.nchnlsInput) = 0
        ∧ t.(Worker.channelsInput) = []
        ∧ word r AUDIO_STATE.(NCHNLS_I) w' = Some 0)
  ∧ length t.(Worker.channelsOutput) = Z.to_nat (csoundGetNchnls w.(csound))
  ∧ w'.(csound) = w.(csound).
Proof.
  intros Hnd Hrun r.
  destruct (sabCreateRealtimeAudioThread_inv args w w' t Hnd Hrun)
    as (Ht & _ & Hengine & _ & _ & _ & _ & HNI & _).
  rewrite Ht. simpl. rewrite !length_fmap, !length_seqZ.
  split; [|done]. fold r in HNI. by destruct (includes _ _).
Qed.

(** X19. The thread takes the sizes of the hardware and of the software
    buffer from the template, not from what the audio state held when
    [start()] was called: the setup writes the template over the audio
    state before it reads [HW_BUFFER_SIZE] and [SW_BUFFER_SIZE]. The two
    words still hold the template's values when the setup is through. *)
Theorem sabCreateRealtimeAudioThread_buffer_sizes (args : Main.StartArguments)
    (w w' : World) (t : Worker.Thread) (hardware software : Z) :
  NoDup (audio_state_fields AUDIO_STATE) →
  initialSharedState !! AUDIO_STATE.(HW_BUFFER_SIZE) = Some hardware →
  initialSharedState !! AUDIO_STATE.(SW_BUFFER_SIZE) = Some software →
  Worker.sabCreateRealtimeAudioThread args w = Some (t, w') →
  let r := audioStateView args.(Main.args_audioStateBuffer) in
  t.(Worker._B) = ToInt32 hardware
  ∧ t.(Worker._b) = ToInt32 software
  ∧ word r AUDIO_STATE.(HW_BUFFER_SIZE) w' = Some (ToInt32 hardware)
  ∧ word r AUDIO_STATE.(SW_BUFFER_SIZE) w' = Some (ToInt32 software).
Proof.
  intros Hnd Hhardware Hsoftware Hrun r.
  destruct (sabCreateRealtimeAudioThread_inv args w w' t Hnd Hrun)
    as (_ & _ & _ & _ & _ & _ & _ & _ & _ & _ & _ & HB & Hb & HB' & Hb').
  fold r in HB, Hb. rewrite HB, Hb, (HB' _ Hhardware), (Hb' _ Hsoftware). done.
Qed.

(** X20. The view of an output channel begins [MAX_HARDWARE_BUFFER_SIZE]
    bytes after the view of the channel before it, and has
    [MAX_HARDWARE_BUFFER_SIZE] samples of 8 bytes: the views of two
    consecutive channels share all but [MAX_HARDWARE_BUFFER_SIZE / 8] of
    their samples. Sample [i] of channel [k + 1] is the very element of
    [audioStreamOut] that is sample [i + MAX_HARDWARE_BUFFER_SIZE / 8] of
    channel [k]. *)
Theorem channelsOutput_overlap (args : Main.StartArguments) (w w' : World)
    (t : Worker.Thread) (k : nat) (channel next : Worker.Float64Array) (i : Z) :
  NoDup (audio_state_fields AUDIO_STATE) →
  Worker.sabCreateRealtimeAudioThread args w = Some (t, w') →
  t.(Worker.channelsOutput) !! k = Some channel →
  t.(Worker.channelsOutput) !! S k = Some next →
  0 ≤ i < MAX_HARDWARE_BUFFER_SIZE - MAX_HARDWARE_BUFFER_SIZE `div` 8 →
  next.(Worker.byteOffset) = channel.(Worker.byteOffset) + MAX_HARDWARE_BUFFER_SIZE
  ∧ channel.(Worker.size) = MAX_HARDWARE_BUFFER_SIZE
  ∧ is_Some (Worker.element next (Num i))
  ∧ Worker.element next (Num i)
    = Worker.element channel (Num (i + MAX_HARDWARE_BUFFER_SIZE `div` 8)).
Proof.
  intros Hnd Hrun Hchannel Hnext Hi.
  destruct (sabCreateRealtimeAudioThread_inv args w w' t Hnd Hrun)
    as (Ht & Haligned & _).
  rewrite Ht in Hchannel, Hnext. simpl in Hchannel, Hnext.
  apply list_lookup_fmap_Some in Hchannel as (c & -> & Hc).
  apply list_lookup_fmap_Some in Hnext as (c' & -> & Hc').
  apply lookup_seqZ in Hc as [-> Hk]. apply lookup_seqZ in Hc' as [-> Hk'].
  assert (Hone : (MAX_HARDWARE_BUFFER_SIZE * 1) `mod` 8 = 0).
  { apply (proj1 (Forall_forall _ _) Haligned). apply elem_of_seqZ. lia. }
  rewrite Z.mul_1_r in Hone.
  assert (Hdiv : MAX_HARDWARE_BUFFER_SIZE = 8 * (MAX_HARDWARE_BUFFER_SIZE `div` 8))
    by (apply Z.div_exact; lia).
  set (q := MAX_HARDWARE_BUFFER_SIZE `div` 8) in *.
  unfold Worker.element. simpl.
  split; [lia|]. split; [done|].
  destruct (Z.leb_spec 0 i); [|lia].
  destruct (Z.ltb_spec i MAX_HARDWARE_BUFFER_SIZE); [|lia].
  destruct (Z.leb_spec 0 (i + q)); [|lia].
  destruct (Z.ltb_spec (i + q) MAX_HARDWARE_BUFFER_SIZE); [|lia].
  simpl. split; [done|]. do 2 f_equal.
  assert (Hq : ∀ n, (MAX_HARDWARE_BUFFER_SIZE * n) `div` 8 = q * n).
  { intros n. clearbody q. rewrite Hdiv.
    replace (8 * q * n) with (q * n * 8) by lia. by rewrite Z.div_mul. }
  rewrite !Hq. lia.
Qed.

End SetupExtras.
Section Cursors.
Context `{Constants} `{LibraryCsound} `{!SabWorkerUtils}.

(** A frame leaves the constants of the thread as they are. *)
Lemma yields_frame_constants (t : Worker.Thread) hasInput iri owi i :
  yields (λ t', t'.(Worker.audioStatePointer) = t.(Worker.audioStatePointer)
                ∧ t'.(Worker._B) = t.(Worker._B))
    (Worker.frame hasInput iri owi i t).
Proof.
  unfold Worker.frame. cbv zeta.
  set (Q := λ t' : Worker.Thread,
              t'.(Worker.audioStatePointer) = t.(Worker.audioStatePointer)
              ∧ t'.(Worker._B) = t.(Worker._B)).
  apply (yields_bind_with Q Q).
  - destruct (_ && _); [|by apply yields_ret].
    destruct (_ =? 0); [|by apply yields_ret].
    apply yields_bind. intros ?. by apply yields_ret.
  - intros t' Ht'. repeat (apply yields_bind; intros ?). by apply yields_ret.
Qed.

(** A cursor of a ring goes one frame forward, and back to 0 at the end
    of the ring. *)
Lemma cursor_step {A} (r : Int32Array) (cursor : nat) (size c : Z)
    (k : M A) (w w' : World) (a : A) :
  word r cursor w = Some c →
  0 ≤ c < size → size < 2 ^ 31 →
  (_ ← Atomics_add r cursor 1;
   v ← Atomics_load r cursor;
   (if size <=? v then Atomics_store r cursor 0 else mret ());; k) w = Some (a, w') →
  ∃ w1, k w1 = Some (a, w')
    ∧ word r cursor w1 = Some ((c + 1) `mod` size)
    ∧ ∀ j, j ≠ cursor → word r j w1 = word r j w.
Proof.
  intros Hc Hrange Hsize Hrun.
  apply bind_Some in Hrun as (old & w1 & (l & Hl & Hold & ->)%Atomics_add_Some & Hrun).
  assert (old = c) as -> by (unfold word in Hc; rewrite Hl in Hc; simpl in Hc; congruence).
  rewrite ToInt32_id in Hrun by (unfold int32; lia).
  set (l1 := <[cursor := c + 1]> l) in *.
  assert (Hl1 : contents r (set_contents r l1 w) = Some l1)
    by (apply contents_set_contents; by rewrite Hl).
  assert (Hlt : (cursor < length l)%nat) by (by eapply lookup_lt_Some).
  apply bind_Some in Hrun as (v & ? & [-> Hv]%Atomics_load_Some & Hrun).
  unfold word in Hv. rewrite Hl1 in Hv. simpl in Hv. unfold l1 in Hv.
  rewrite list_lookup_insert_eq in Hv by done. injection Hv as <-.
  apply bind_Some in Hrun as ([] & w2 & Hstep & Hrun).
  exists w2. split; [done|].
  destruct (Z.leb_spec size (c + 1)).
  - apply Atomics_store_Some in Hstep as (? & Hl1' & _ & ->).
    rewrite Hl1 in Hl1'. injection Hl1' as <-.
    rewrite set_contents_twice. split.
    + rewrite word_set_contents by (by rewrite Hl).
      rewrite list_lookup_insert_eq by (unfold l1; by rewrite length_insert).
      replace (c + 1) with size by lia. by rewrite Z.mod_same by lia.
    + intros j Hj. rewrite word_set_contents by (by rewrite Hl).
      unfold l1, word. rewrite Hl. simpl. by rewrite !list_lookup_insert_ne.
  - apply ret_Some in Hstep as [_ ->]. split.
    + rewrite word_set_contents by (by rewrite Hl).
      unfold l1. rewrite list_lookup_insert_eq by done.
      by rewrite Z.mod_small by lia.
    + intros j Hj. rewrite word_set_contents by (by rewrite Hl).
      unfold l1, word. rewrite Hl. simpl. by rewrite list_lookup_insert_ne.
Qed.

(** What one frame does to the two cursors. *)
Lemma frame_cursors (t t' : Worker.Thread) (hasInput : bool) (iri owi i : Z)
    (w w' : World) (input output : Z) :
  AUDIO_STATE.(INPUT_READ_INDEX) ≠ AUDIO_STATE.(OUTPUT_WRITE_INDEX) →
  t.(Worker._B) < 2 ^ 31 →
  word t.(Worker.audioStatePointer) AUDIO_STATE.(INPUT_READ_INDEX) w = Some input →
  word t.(Worker.audioStatePointer) AUDIO_STATE.(OUTPUT_WRITE_INDEX) w = Some output →
  (hasInput = true → 0 ≤ input < t.(Worker._B)) →
  0 ≤ output < t.(Worker._B) →
  Worker.frame hasInput iri owi i t w = Some (t', w') →
  word t.(Worker.audioStatePointer) AUDIO_STATE.(INPUT_READ_INDEX) w'
  = Some (if hasInput then (input + 1) `mod` t.(Worker._B) else input)
  ∧ word t.(Worker.audioStatePointer) AUDIO_STATE.(OUTPUT_WRITE_INDEX) w'
    = Some ((output + 1) `mod` t.(Worker._B)).
Proof.
  intros Hne Hsize Hinput Houtput Hin Hout Hrun.
  set (r := t.(Worker.audioStatePointer)) in *.
  unfold Worker.frame, Worker.csoundOutputBuffer_get, Worker.channelsInput_get in Hrun.
  cbv zeta in Hrun. fold r in Hrun.
  apply bind_Some in Hrun as (t1 & w1 & Hstep & Hrun).
  assert (K1 : ∀ j, word r j w1 = word r j w).
  { intros j. revert Hstep.
    match goal with
    | |- ?m w = _ → _ =>
        intros Hstep; cut (frames r (λ _, True) m);
        [intros Hframes; exact (Hframes _ _ _ Hstep j I)|]
    end.
    repeat first [ apply frames_libraryCsound_call | frames_step ]. }
  assert (Ht1 : t1.(Worker._B) = t.(Worker._B)
                ∧ t1.(Worker.channelsOutput) = t.(Worker.channelsOutput)).
  { revert Hstep. destruct (_ && _); [|by intros [-> _]%ret_Some].
    destruct (_ =? 0); [|by intros [-> _]%ret_Some].
    by intros (? & ? & _ & [-> _]%ret_Some)%bind_Some. }
  destruct Ht1 as [HB1 _]. clear Hstep. rewrite HB1 in Hrun.
  apply bind_Some in Hrun as ([] & w2 & Hstep & Hrun).
  assert (K2 : ∀ j, word r j w2 = word r j w).
  { intros j. rewrite <- K1. revert Hstep.
    match goal with
    | |- ?m w1 = _ → _ =>
        intros Hstep; cut (frames r (λ _, True) m);
        [intros Hframes; exact (Hframes _ _ _ Hstep j I)|]
    end.
    repeat first [ apply frames_channelsOutput_set | frames_step ]. }
  clear Hstep K1 w1.
  rewrite <- K2 in Hinput, Houtput.
  assert (∃ w3,
            (_ ← Atomics_add r AUDIO_STATE.(OUTPUT_WRITE_INDEX) 1;
             v ← Atomics_load r AUDIO_STATE.(OUTPUT_WRITE_INDEX);
             (if t.(Worker._B) <=? v
              then Atomics_store r AUDIO_STATE.(OUTPUT_WRITE_INDEX) 0
              else mret ());; mret t1) w3 = Some (t', w')
            ∧ word r AUDIO_STATE.(INPUT_READ_INDEX) w3
              = Some (if hasInput then (input + 1) `mod` t.(Worker._B) else input)
            ∧ word r AUDIO_STATE.(OUTPUT_WRITE_INDEX) w3 = Some output)
    as (w3 & Hrun3 & Hinput3 & Houtput3).
  { destruct hasInput.
    - apply bind_Some in Hrun as ([] & w3 & Hstep & Hrun).
      apply bind_Some in Hstep as ([] & w2' & Hcopy & Hstep).
      assert (K3 : ∀ j, word r j w2' = word r j w2).
      { intros j. revert Hcopy.
        match goal with
        | |- ?m w2 = _ → _ =>
            intros Hcopy; cut (frames r (λ _, True) m);
            [intros Hframes; exact (Hframes _ _ _ Hcopy j I)|]
        end.
        repeat first [ apply frames_csoundInputBuffer_set | frames_step ]. }
      rewrite <- K3 in Hinput, Houtput.
      assert (Hstep' : (_ ← Atomics_add r AUDIO_STATE.(INPUT_READ_INDEX) 1;
                        v ← Atomics_load r AUDIO_STATE.(INPUT_READ_INDEX);
                        (if t.(Worker._B) <=? v
                         then Atomics_store r AUDIO_STATE.(INPUT_READ_INDEX) 0
                         else mret ());; mret ()) w2' = Some ((), w3)).
      { revert Hstep. unfold mbind, M_bind, mret, M_ret.
        destruct (Atomics_add _ _ _ _) as [[? ?]|]; [|done].
        destruct (Atomics_load _ _ _) as [[? ?]|]; [|done].
        destruct (_ <=? _); [|done].
        by destruct (Atomics_store _ _ _ _) as [[[] ?]|]. }
      destruct (cursor_step r _ _ _ _ _ _ _ Hinput (Hin eq_refl) Hsize Hstep')
        as (w3' & [_ ->]%ret_Some & Hinput3 & Hother).
      exists w3'. split; [done|]. split; [done|]. by rewrite Hother.
    - apply bind_Some in Hrun as ([] & w3 & [_ ->]%ret_Some & Hrun). by exists w2. }
  destruct (cursor_step r _ _ _ _ _ _ _ Houtput3 Hout Hsize Hrun3)
    as (w4 & [_ ->]%ret_Some & Houtput4 & Hother).
  split; [|done]. by rewrite Hother.
Qed.

End Cursors.
Section Cursors2.
Context `{Constants} `{LibraryCsound} `{!SabWorkerUtils}.

(** What the [for] loop over the frames does to the two cursors. *)
Lemma frame_loop_cursors (indices : list Z) :
  ∀ (t t' : Worker.Thread) (hasInput : bool) (iri owi : Z) (w w' : World)
    (input output : Z),
    AUDIO_STATE.(INPUT_READ_INDEX) ≠ AUDIO_STATE.(OUTPUT_WRITE_INDEX) →
    t.(Worker._B) < 2 ^ 31 →
    word t.(Worker.audioStatePointer) AUDIO_STATE.(INPUT_READ_INDEX) w = Some input →
    word t.(Worker.audioStatePointer) AUDIO_STATE.(OUTPUT_WRITE_INDEX) w = Some output →
    (hasInput = true → 0 ≤ input < t.(Worker._B)) →
    0 ≤ output < t.(Worker._B) →
    for_each indices (Worker.frame hasInput iri owi) t w = Some (t', w') →
    word t.(Worker.audioStatePointer) AUDIO_STATE.(INPUT_READ_INDEX) w'
    = Some (if hasInput then (input + Z.of_nat (length indices)) `mod` t.(Worker._B)
            else input)
    ∧ word t.(Worker.audioStatePointer) AUDIO_STATE.(OUTPUT_WRITE_INDEX) w'
      = Some ((output + Z.of_nat (length indices)) `mod` t.(Worker._B)).
Proof.
  induction indices as [|i indices IH];
    intros t t' hasInput iri owi w w' input output Hne Hsize Hinput Houtput Hin Hout Hrun;
    simpl in Hrun.
  - apply ret_Some in Hrun as [_ ->]. simpl. rewrite !Z.add_0_r.
    rewrite (Z.mod_small output) by lia.
    destruct hasInput; [|done]. by rewrite Z.mod_small by (by apply Hin).
  - apply bind_Some in Hrun as (t1 & w1 & Hstep & Hrun).
    destruct (yields_frame_constants _ _ _ _ _ _ _ _ Hstep) as [Hr1 HB1].
    destruct (frame_cursors _ _ _ _ _ _ _ _ _ _ Hne Hsize Hinput Houtput Hin Hout Hstep)
      as [Hinput1 Houtput1].
    rewrite <- Hr1, <- HB1 in Hinput1, Houtput1 |- *.
    assert (Hpos : 0 < t1.(Worker._B)) by lia.
    destruct (IH t1 t' hasInput iri owi w1 w' _ _ Hne ltac:(lia) Hinput1 Houtput1)
      as [Hinput' Houtput']; [| |done|].
    { intros ->. apply Z.mod_pos_bound. lia. }
    { apply Z.mod_pos_bound. lia. }
    rewrite Hinput', Houtput'. rewrite length_cons, Nat2Z.inj_succ.
    split.
    + destruct hasInput; [|done]. f_equal.
      rewrite Z.add_mod_idemp_l by lia. f_equal. lia.
    + f_equal. rewrite Z.add_mod_idemp_l by lia. f_equal. lia.
Qed.

(** The body of the loop from the MIDI events on: where it leaves the
    two cursors and the doorbell. *)
Lemma perform_cursors (t : Worker.Thread) (w w' : World) (res : Worker.Wake)
    (input output availableIn : Z) :
  NoDup (audio_state_fields AUDIO_STATE) →
  callbacks_keep [AUDIO_STATE.(INPUT_READ_INDEX); AUDIO_STATE.(OUTPUT_WRITE_INDEX);
                  AUDIO_STATE.(AVAIL_IN_BUFS)] →
  word t.(Worker.audioStatePointer) AUDIO_STATE.(INPUT_READ_INDEX) w = Some input →
  word t.(Worker.audioStatePointer) AUDIO_STATE.(OUTPUT_WRITE_INDEX) w = Some output →
  word t.(Worker.audioStatePointer) AUDIO_STATE.(AVAIL_IN_BUFS) w = Some availableIn →
  0 ≤ t.(Worker._b) → t.(Worker._B) < 2 ^ 31 →
  (t.(Worker._b) ≤ availableIn → 0 ≤ input < t.(Worker._B)) →
  0 ≤ output < t.(Worker._B) →
  Worker.perform t w = Some (res, w') →
  word t.(Worker.audioStatePointer) AUDIO_STATE.(INPUT_READ_INDEX) w'
  = Some (if t.(Worker._b) <=? availableIn
          then (input + t.(Worker._b)) `mod` t.(Worker._B) else input)
  ∧ word t.(Worker.audioStatePointer) AUDIO_STATE.(OUTPUT_WRITE_INDEX) w'
    = Some ((output + t.(Worker._b)) `mod` t.(Worker._B)).
Proof.
  intros Hnd Hkeep Hinput Houtput Havail Hb HB Hin Hout Hrun.
  set (r := t.(Worker.audioStatePointer)) in *.
  set (fields := [AUDIO_STATE.(INPUT_READ_INDEX); AUDIO_STATE.(OUTPUT_WRITE_INDEX);
                  AUDIO_STATE.(AVAIL_IN_BUFS)]) in *.
  assert (Hne : AUDIO_STATE.(INPUT_READ_INDEX) ≠ AUDIO_STATE.(OUTPUT_WRITE_INDEX))
    by field_ne.
  unfold Worker.perform in Hrun. cbv zeta in Hrun. fold r in Hrun.
  apply bind_Some in Hrun as ([] & w1 & Hstep & Hrun).
  assert (K1 : ∀ j, j ∈ fields → word r j w1 = word r j w).
  { intros j Hj. refine (frames_rtmidi (λ j, j ∈ fields) t _ _ _ _ Hstep j Hj).
    clear j Hj. intros j Hj. unfold fields in Hj. field_cases Hj; split; field_ne. }
  clear Hstep.
  apply bind_Some in Hrun as ([] & w2 & Hstep & Hrun).
  assert (K2 : ∀ j, j ∈ fields → word r j w2 = word r j w).
  { intros j Hj. rewrite <- K1 by done.
    exact (frames_serve_callbacks (λ j, j ∈ fields) fields t Hkeep (λ _ Hj, Hj)
             _ _ _ Hstep j Hj). }
  clear Hstep K1 w1.
  rewrite <- (K2 AUDIO_STATE.(INPUT_READ_INDEX)) in Hinput by repeat constructor.
  rewrite <- (K2 AUDIO_STATE.(OUTPUT_WRITE_INDEX)) in Houtput by repeat constructor.
  rewrite <- (K2 AUDIO_STATE.(AVAIL_IN_BUFS)) in Havail by repeat constructor.
  clear K2.
  apply bind_Some in Hrun as (availableInputFrames & ? & [-> Hload]%Atomics_load_Some & Hrun).
  rewrite Havail in Hload. injection Hload as <-.
  set (hasInput := t.(Worker._b) <=? availableIn) in *.
  apply bind_Some in Hrun as ([] & w3 & Hstep & Hrun).
  assert (w3 = w2) as ->.
  { revert Hstep. destruct (_ && _); [done | by intros [_ ->]%ret_Some]. }
  clear Hstep.
  apply bind_Some in Hrun as ([] & w3 & Hstep & Hrun).
  assert (w3 = w2) as ->.
  { revert Hstep. destruct (_ <? 0); [done | by intros [_ ->]%ret_Some]. }
  clear Hstep.
  apply bind_Some in Hrun as (inputReadIndex & w3 & Hstep & Hrun).
  assert (w3 = w2) as ->.
  { revert Hstep. destruct hasInput;
      [by intros [-> _]%Atomics_load_Some | by intros [_ ->]%ret_Some]. }
  clear Hstep.
  apply bind_Some in Hrun as (outputWriteIndex & ? & [-> _]%Atomics_load_Some & Hrun).
  apply bind_Some in Hrun as (t' & w3 & Hloop & Hrun).
  destruct (frame_loop_cursors _ _ _ _ _ _ _ _ _ _ Hne HB Hinput Houtput
              ltac:(intros Hhas; apply Hin; by apply Z.leb_le) Hout Hloop)
    as [Hinput3 Houtput3].
  rewrite length_seqZ, Z2Nat.id in Hinput3, Houtput3 by lia.
  fold r hasInput in Hinput3, Houtput3. rewrite <- Hinput3, <- Houtput3.
  clear Hloop Hinput3 Houtput3 Hinput Houtput Havail.
  assert (Hrest : frames r (λ j, j = AUDIO_STATE.(INPUT_READ_INDEX)
                                 ∨ j = AUDIO_STATE.(OUTPUT_WRITE_INDEX))
            ((if hasInput
              then _ ← Atomics_sub r AUDIO_STATE.(AVAIL_IN_BUFS) t.(Worker._b); mret ()
              else mret ());;
             _ ← Atomics_add r AUDIO_STATE.(AVAIL_OUT_BUFS) t.(Worker._b);
             Atomics_store r AUDIO_STATE.(ATOMIC_NOTIFY) 0;;
             mret (Worker.thread_loops t'))).
  { repeat first
      [ apply frames_store; intros j [-> | ->]; field_ne
      | apply frames_add; intros j [-> | ->]; field_ne
      | apply frames_sub; intros j [-> | ->]; field_ne
      | frames_step ]. }
  split; apply (Hrest _ _ _ Hrun); auto.
Qed.

(** The body of the loop from the MIDI events on ends with the store
    that re-arms the doorbell. *)
Lemma perform_doorbell (t : Worker.Thread) (w w' : World) (res : Worker.Wake) :
  Worker.perform t w = Some (res, w') →
  word t.(Worker.audioStatePointer) AUDIO_STATE.(ATOMIC_NOTIFY) w' = Some 0.
Proof.
  unfold Worker.perform. cbv zeta. intros Hrun.
  do 9 (apply bind_Some in Hrun as (? & ? & _ & Hrun)).
  apply bind_Some in Hrun as (? & w1 & _ & Hrun).
  apply bind_Some in Hrun as (? & w2 & Hstore & [_ ->]%ret_Some).
  apply Atomics_store_Some in Hstore as (l & Hl & Hlt & ->).
  rewrite word_set_contents by (by rewrite Hl).
  by apply list_lookup_insert_eq.
Qed.

(** X21. The two cursors of the rings stay inside the hardware buffer. Over
    a pass that returns to the head of the loop, [OUTPUT_WRITE_INDEX]
    goes [_b] frames forward around a ring of [_B] frames, and
    [INPUT_READ_INDEX] does the same when the pass consumed input ([_b]
    frames or more were available) and stays where it was when it did
    not. (The cursors are inside the ring when the pass begins, the
    sizes are those of a 32-bit word, and serving the callback requests
    leaves the cursors and [AVAIL_IN_BUFS] alone.) *)
Theorem wake_advances_cursors (t t' : Worker.Thread) (w w' : World)
    (input output availableIn : Z) :
  NoDup (audio_state_fields AUDIO_STATE) →
  callbacks_keep [AUDIO_STATE.(INPUT_READ_INDEX); AUDIO_STATE.(OUTPUT_WRITE_INDEX);
                  AUDIO_STATE.(AVAIL_IN_BUFS)] →
  word t.(Worker.audioStatePointer) AUDIO_STATE.(INPUT_READ_INDEX) w = Some input →
  word t.(Worker.audioStatePointer) AUDIO_STATE.(OUTPUT_WRITE_INDEX) w = Some output →
  word t.(Worker.audioStatePointer) AUDIO_STATE.(AVAIL_IN_BUFS) w = Some availableIn →
  0 ≤ t.(Worker._b) → t.(Worker._B) < 2 ^ 31 →
  0 ≤ input < t.(Worker._B) →
  0 ≤ output < t.(Worker._B) →
  Worker.wake t w = Some (Worker.thread_loops t', w') →
  ∃ input' output',
    word t.(Worker.audioStatePointer) AUDIO_STATE.(INPUT_READ_INDEX) w' = Some input'
    ∧ word t.(Worker.audioStatePointer) AUDIO_STATE.(OUTPUT_WRITE_INDEX) w' = Some output'
    ∧ input' = (if t.(Worker._b) <=? availableIn
                then (input + t.(Worker._b)) `mod` t.(Worker._B) else input)
    ∧ output' = (output + t.(Worker._b)) `mod` t.(Worker._B)
    ∧ 0 ≤ input' < t.(Worker._B)
    ∧ 0 ≤ output' < t.(Worker._B).
Proof.
  intros Hnd Hkeep Hinput Houtput Havail Hb HB Hin Hout Hrun%wake_loops.
  assert (Hconstants :
            (if t.(Worker.firstRound) then Worker.set_firstRound false t else t)
              .(Worker.audioStatePointer) = t.(Worker.audioStatePointer)
            ∧ (if t.(Worker.firstRound) then Worker.set_firstRound false t else t)
                .(Worker._b) = t.(Worker._b)
            ∧ (if t.(Worker.firstRound) then Worker.set_firstRound false t else t)
                .(Worker._B) = t.(Worker._B))
    by (by destruct (Worker.firstRound t)).
  destruct Hconstants as (Hr & Hb0 & HB0).
  rewrite <- Hr in Hinput, Houtput, Havail.
  destruct (perform_cursors _ _ _ _ input output availableIn Hnd Hkeep
              Hinput Houtput Havail ltac:(lia) ltac:(lia) ltac:(lia) ltac:(lia) Hrun)
    as [Hinput' Houtput'].
  rewrite Hr, Hb0, HB0 in Hinput', Houtput'.
  eexists _, _. split; [exact Hinput'|]. split; [exact Houtput'|].
  split; [done|]. split; [done|].
  split; [|apply Z.mod_pos_bound; lia].
  destruct (_ <=? _); [apply Z.mod_pos_bound; lia | done].
Qed.

(** X22. A pass that returns to the head of the loop has re-armed the
    doorbell: its last store puts 0 into [ATOMIC_NOTIFY], the value the
    [Atomics.wait] at the head of the loop sleeps on. *)
Theorem wake_rearms_doorbell (t t' : Worker.Thread) (w w' : World) :
  Worker.wake t w = Some (Worker.thread_loops t', w') →
  word t.(Worker.audioStatePointer) AUDIO_STATE.(ATOMIC_NOTIFY) w' = Some 0.
Proof.
  intros Hrun%wake_loops. apply perform_doorbell in Hrun.
  by destruct (Worker.firstRound t).
Qed.

End Cursors2.
(** ** The further statements on the concrete machine *)

Section MoreExamples.

#[local] Existing Instance Scenario.table.
#[local] Existing Instance Scenario.engine.
#[local] Existing Instance Scenario.no_requests.

(** The audio state during the first performance. *)
Lemma performing_audio_state :
  contents (host_view Run.performing.2) Run.performing.2
  = Some [1; 0; 0; 0; 1; 1; 44100; 512; 128; 0; 0; 0; 0; 1; 0; 0].
Proof. vm_compute. reflexivity. Qed.

Lemma csoundStop_stopable_witness :
  ∃ w' next w'',
    Main.csoundStop Run.paused.2 = Some (awaits 1%nat 0, w')
    ∧ word (audioStateView 0%nat) AUDIO_STATE.(STOP) w' = Some 1
    ∧ word (audioStateView 0%nat) AUDIO_STATE.(IS_PERFORMING) w' = Some 0
    ∧ word (audioStateView 0%nat) AUDIO_STATE.(IS_PAUSED) w' = Some 0
    ∧ word (audioStateView 0%nat) AUDIO_STATE.(ATOMIC_NOTIFY) w' = Some 1
    ∧ w'.(main).(stopPromiz) = Some 1%nat
    ∧ Main.csoundStop w' = Some (awaits 2%nat 0, next)
    ∧ Main.onPlayStateChange "realtimePerformanceEnded" next = Some ((), w'')
    ∧ 2%nat ∈ w''.(resolved)
    ∧ (1%nat ∉ w''.(resolved)).
Proof.
  destruct (csoundStop_stopable Run.paused.2
              [1; 1; 0; 0; 1; 1; 44100; 512; 128; 0; 0; 0; 0; 1; 0; 0])
    as (w' & Hrun & Hstop & Hperforming & Hpaused & Hnotify & _ & _ & Hslot & _
        & next & Hnext & _ & _ & Hended).
  - exact table_ok.
  - reflexivity.
  - vm_compute. reflexivity.
  - reflexivity.
  - vm_compute. repeat constructor.
  - intros p Hp. vm_compute in Hp. discriminate Hp.
  - vm_compute. reflexivity.
  - destruct (Hended "realtimePerformanceEnded" (or_introl eq_refl))
      as (w'' & Hrun'' & Hlater & Hfirst & _).
    exists w', next, w''.
    split; [exact Hrun|]. split; [exact Hstop|]. split; [exact Hperforming|].
    split; [exact Hpaused|]. split; [apply Hnotify; discriminate|].
    split; [exact Hslot|]. split; [exact Hnext|]. split; [exact Hrun''|].
    split; [exact Hlater | exact Hfirst].
Defined.



(** The audio state when a callback has been registered. *)
Lemma listening_audio_state :
  contents (host_view Run.listening) Run.listening
  = Some [1; 0; 0; 0; 1; 1; 44100; 512; 128; 0; 0; 0; 0; 1; 0; 0].
Proof. vm_compute. reflexivity. Qed.

Lemma csoundPause_then_csoundResume_witness :
  (∃ w1 w2,
     Main.csoundPause_called Run.listening
     = Some ([Main.onPlayStateChange_answered "realtimePerformancePaused"], w1)
     ∧ Main.csoundResume_called w1
       = Some ([Main.onPlayStateChange_answered "realtimePerformanceResumed"], w2)
     ∧ w2.(sab) = Run.listening.(sab)
     ∧ w2.(main).(currentPlayState) = Some "realtimePerformanceResumed")
  ∧ (∃ w', (Main.csoundPause_called;; Main.csoundResume_called;;
            Main.onPlayStateChange_answered "realtimePerformanceResumed";;
            Main.onPlayStateChange_answered "realtimePerformancePaused") Run.listening
           = Some ((), w')
       ∧ w'.(sab) = Run.listening.(sab)
       ∧ w'.(trace)
         = Run.listening.(trace)
           ++ [trigger "RealtimePerformancePaused";
               audioWorker_onPlayStateChange "realtimePerformancePaused";
               notify (audioStateView 0%nat) AUDIO_STATE.(IS_PAUSED);
               trigger "RealtimePerformanceResumed";
               audioWorker_onPlayStateChange "realtimePerformanceResumed";
               playStateChangeCallback 7%nat "realtimePerformanceResumed";
               playStateChangeCallback 7%nat "realtimePerformancePaused"]).
Proof.
  destruct (csoundPause_then_csoundResume Run.listening
              [1; 0; 0; 0; 1; 1; 44100; 512; 128; 0; 0; 0; 0; 1; 0; 0] 0)
    as ((w1 & w2 & Hpause & Hresume & Hsab & _ & _ & Hstate & _) & _ & _
        & (w' & Hrun & Hsab' & _ & _ & _ & Htrace)).
  - exact listening_audio_state.
  - reflexivity.
  - reflexivity.
  - reflexivity.
  - discriminate.
  - discriminate.
  - discriminate.
  - split.
    + exists w1, w2. split; [exact Hpause|]. split; [exact Hresume|].
      split; [exact Hsab | exact Hstate].
    + exists w'. split; [exact Hrun|]. split; [exact Hsab'|].
      rewrite Htrace. vm_compute. reflexivity.
Defined.

Lemma onPlayStateChange_forwards_witness :
  ∃ w' events,
    Main.onPlayStateChange "renderStarted" (Run.initialized 32) = Some ((), w')
    ∧ w'.(main).(currentPlayState) = Some "renderStarted"
    ∧ w'.(trace)
      = (Run.initialized 32).(trace) ++ events
        ++ [audioWorker_onPlayStateChange "renderStarted"]
        ++ ((λ callback, playStateChangeCallback callback "renderStarted")
              <$> (Run.initialized 32).(main).(csoundPlayStateChangeCallbacks))
    ∧ w'.(sab) = (Run.initialized 32).(sab).
Proof.
  destruct (onPlayStateChange_forwards "renderStarted" (Run.initialized 32))
    as (w' & events & Hrun & Hstate & Htrace & _ & Hsab & _).
  - discriminate.
  - discriminate.
  - exists w', events. split; [exact Hrun|]. split; [exact Hstate|].
    split; [exact Htrace | exact Hsab].
Defined.

Lemma csoundStart_awaits_startPromiz_witness :
  ∃ w1,
    Main.csoundStart (Run.initialized 32)
    = Some (inr ({| Main.args_audioStateBuffer := 0%nat; Main.args_csound := 1 |},
                 0%nat), w1)
    ∧ (∃ w2, Main.onPlayStateChange "realtimePerformanceStarted" w1 = Some ((), w2)
             ∧ w2.(main).(startPromiz) = Some 0%nat)
    ∧ (∃ w2, Main.onPlayStateChange "renderStarted" w1 = Some ((), w2)
             ∧ 0%nat ∈ w2.(resolved)).
Proof.
  destruct (csoundStart_awaits_startPromiz (Run.initialized 32) 1
              [0; 0; 0; 0; 0; 0; 0; 0; 0; 0; 0; 0; 0; 0; 0; 0])
    as (w1 & Hrun & _ & (w2 & Hstarted & _ & Hpending) & Hother).
  - reflexivity.
  - discriminate.
  - constructor.
  - exact table_ok.
  - vm_compute. reflexivity.
  - reflexivity.
  - exists w1. split; [exact Hrun|]. split.
    + exists w2. split; [exact Hstarted | exact Hpending].
    + destruct (Hother "renderStarted") as (w3 & Hrender & Hresolved & _);
        [discriminate|].
      exists w3. split; [exact Hrender | exact Hresolved].
Defined.

Lemma csoundPlayStateChangeCallbacks_in_order_witness :
  ∃ w' events,
    (Main.setCsoundPlayStateChangeCallback (Main.function 7%nat);;
     for_each [Main.function 8%nat; Main.not_a_function; Main.function 9%nat]
       (λ callback _, Main.addCsoundPlayStateChangeCallback callback) ();;
     Main.onPlayStateChange "renderStarted") (Run.initialized 32) = Some ((), w')
    ∧ w'.(trace)
      = (Run.initialized 32).(trace) ++ events
        ++ [audioWorker_onPlayStateChange "renderStarted";
            playStateChangeCallback 7%nat "renderStarted";
            playStateChangeCallback 8%nat "renderStarted";
            playStateChangeCallback 9%nat "renderStarted"].
Proof.
  destruct (csoundPlayStateChangeCallbacks_in_order (Run.initialized 32) 7%nat
              [Main.function 8%nat; Main.not_a_function; Main.function 9%nat]
              "renderStarted")
    as (w' & events & Hrun & Htrace & _).
  - discriminate.
  - discriminate.
  - exists w', events. split; [exact Hrun | exact Htrace].
Defined.

Lemma bufferWrappedCallback_route_witness :
  Main.bufferWrappedCallback Run.paused.2 = Some (Main.proxyCallback, Run.paused.2).
Proof.
  apply (bufferWrappedCallback_route "realtimePerformancePaused"
           (after (Atomics_store (audioStateView 0%nat) AUDIO_STATE.(IS_PAUSED) 1)
              Run.performing.2)
           Run.paused.2).
  vm_compute. reflexivity.
Defined.

Lemma handleMidiInput_only_queues_witness :
  (∀ j, j ≠ AUDIO_STATE.(AVAIL_RTMIDI_EVENTS) →
        word (host_view Run.performing.2) j
          (after (Main.handleMidiInput 144 60 100) Run.performing.2)
        = word (host_view Run.performing.2) j Run.performing.2)
  ∧ (after (Main.handleMidiInput 144 60 100) Run.performing.2).(trace)
    = Run.performing.2.(trace).
Proof.
  destruct (handleMidiInput_only_queues Run.performing.2
              (after (Main.handleMidiInput 144 60 100) Run.performing.2) 144 60 100)
    as (Hwords & Htrace & _).
  - vm_compute. reflexivity.
  - split; [exact Hwords | exact Htrace].
Defined.

Lemma csoundReset_then_csoundStart_witness :
  ∃ resetResult w1 startPromise w2,
    Main.csoundReset (Run.initialized 32) = Some (inr resetResult, w1)
    ∧ Main.csoundStart w1
      = Some (inr ({| Main.args_audioStateBuffer := 0%nat; Main.args_csound := 1 |},
                   startPromise), w2)
    ∧ w2.(main).(audioStatePointer) = 1%nat.
Proof.
  destruct (csoundReset_then_csoundStart (Run.initialized 32) 1)
    as (resetResult & w1 & startPromise & w2 & Hreset & Hstart & Hpointer & _).
  - reflexivity.
  - reflexivity.
  - discriminate.
  - vm_compute. lia.
  - exists resetResult, w1, startPromise, w2.
    split; [exact Hreset|]. split; [exact Hstart | exact Hpointer].
Defined.

Lemma csoundStop_ends_the_thread_witness :
  ∃ w1 w2 w3,
    Main.csoundStop Run.performing.2 = Some (awaits 1%nat 0, w1)
    ∧ Worker.wake Run.performing.1 w1 = Some (Worker.thread_returns, w2)
    ∧ Main.onPlayStateChange "realtimePerformanceEnded" w2 = Some ((), w3)
    ∧ 1%nat ∈ w3.(resolved)
    ∧ contents (host_view Run.performing.2) w3 = Some initialSharedState.
Proof.
  destruct (csoundStop_ends_the_thread Run.performing.1 Run.performing.2
              [1; 0; 0; 0; 1; 1; 44100; 512; 128; 0; 0; 0; 0; 1; 0; 0])
    as (w1 & w2 & w3 & Hstop & _ & Hwake & _ & Hended & Hresolved & Hcontents & _).
  - exact table_ok.
  - reflexivity.
  - reflexivity.
  - exact performing_audio_state.
  - reflexivity.
  - vm_compute. reflexivity.
  - discriminate.
  - exists w1, w2, w3. split; [exact Hstop|]. split; [exact Hwake|].
    split; [exact Hended|]. split; [exact Hresolved | exact Hcontents].
Defined.

Lemma render_after_csoundStop_witness :
  ∃ w1 w2 w3,
    Main.csoundStop Run.rendering = Some (awaits 0%nat 0, w1)
    ∧ w1.(trace) = Run.rendering.(trace)
    ∧ Main.onPlayStateChange "renderEnded" w1 = Some ((), w2)
    ∧ word (host_view Run.rendering) AUDIO_STATE.(STOP) w2 = Some 1
    ∧ Worker.renderFn 3
        {| Main.args_audioStateBuffer := 0%nat; Main.args_csound := 1 |} w2
      = Some (Worker.render_returns, w3)
    ∧ w3.(csound) = Run.rendering.(csound).
Proof.
  destruct (render_after_csoundStop
              {| Main.args_audioStateBuffer := 0%nat; Main.args_csound := 1 |}
              Run.rendering [0; 0; 0; 0; 0; 0; 0; 0; 0; 0; 0; 0; 0; 0; 0; 0] 2)
    as (w1 & w2 & w3 & Hstop & Htrace & Hended & _ & Hword & Hrender & Hengine).
  - exact table_ok.
  - reflexivity.
  - vm_compute. reflexivity.
  - reflexivity.
  - reflexivity.
  - vm_compute. set_solver.
  - exists w1, w2, w3. split; [exact Hstop|]. split; [exact Htrace|].
    split; [exact Hended|]. split; [exact Hword|].
    split; [exact Hrender | exact Hengine].
Defined.

Lemma realtimePerformanceStarted_stamps_audioWorker_witness :
  ∃ w2,
    Main.onPlayStateChange "realtimePerformanceStarted" Run.started.2 = Some ((), w2)
    ∧ w2.(main).(audioWorker)
      = {| isRequestingInput := true; isRequestingMidi := 1; sampleRate := 44100;
           inputCount := 1; outputsCount := 1;
           hardwareBufferSize := 512; softwareBufferSize := 128 |}.
Proof.
  destruct (realtimePerformanceStarted_stamps_audioWorker
              {| Main.args_audioStateBuffer := 0%nat; Main.args_csound := 1 |}
              (after Main.csoundStart (Run.initialized 32))
              Run.started.2 Run.started.1)
    as (w2 & Hrun & Hbackend & _).
  - exact (proj1 table_ok).
  - reflexivity.
  - vm_compute. reflexivity.
  - exists w2. split; [exact Hrun|]. rewrite Hbackend. vm_compute. reflexivity.
Defined.

Lemma handleMidiInput_reaches_the_engine_witness :
  ∃ w',
    (for_each [(144, 60, 100); (128, 60, 0); (176, 7, 64)]
       (λ '(status, data1, data2) _, Main.handleMidiInput status data1 data2) ();;
     Worker.rtmidi Run.performing.1) Run.performing.2 = Some ((), w')
    ∧ w'.(csound).(Scenario.midiMessages) = [(144, 60, 100); (128, 60, 0); (176, 7, 64)]
    ∧ word (host_view Run.performing.2) AUDIO_STATE.(AVAIL_RTMIDI_EVENTS) w' = Some 0.
Proof.
  destruct (handleMidiInput_reaches_the_engine Run.performing.1 Run.performing.2
              [1; 0; 0; 0; 1; 1; 44100; 512; 128; 0; 0; 0; 0; 1; 0; 0]
              [(144, 60, 100); (128, 60, 0); (176, 7, 64)] 0)
    as (w' & Hrun & Hengine & Hqueue).
  - reflexivity.
  - vm_compute. discriminate.
  - discriminate.
  - exact performing_audio_state.
  - reflexivity.
  - reflexivity.
  - lia.
  - vm_compute. discriminate.
  - vm_compute. discriminate.
  - vm_compute. lia.
  - reflexivity.
  - exists w'. split; [exact Hrun|]. split; [|exact Hqueue].
    rewrite Hengine. vm_compute. reflexivity.
Defined.

Lemma wake_ends_witness :
  ∃ w', Worker.wake Run.stopping.1 Run.stopping.2 = Some (Worker.thread_returns, w')
    ∧ w'.(trace)
      = Run.stopping.2.(trace) ++ [broadcastPlayState "realtimePerformanceEnded"]
    ∧ w'.(sab) = Run.stopping.2.(sab)
    ∧ w'.(csound).(Scenario.stops) = 1%nat
    ∧ w'.(csound).(Scenario.blocks) = 1%nat.
Proof.
  destruct (wake_ends Run.stopping.1 Run.stopping.2 1 0)
    as (w' & Hrun & Htrace & Hsab & _ & _ & _ & Hengine).
  - vm_compute. reflexivity.
  - vm_compute. reflexivity.
  - left. reflexivity.
  - exists w'. split; [exact Hrun|]. split; [exact Htrace|]. split; [exact Hsab|].
    rewrite Hengine. split; vm_compute; reflexivity.
Defined.

Lemma wake_leaves_control_words_witness :
  word Run.paused.1.(Worker.audioStatePointer) AUDIO_STATE.(IS_PAUSED)
    (Run.wake Run.paused).2
  = word Run.paused.1.(Worker.audioStatePointer) AUDIO_STATE.(IS_PAUSED) Run.paused.2.
Proof.
  apply (wake_leaves_control_words Run.paused.1 Run.paused.2 (Run.wake Run.paused).2
           (Worker.thread_loops (Run.wake Run.paused).1)).
  - exact (proj1 table_ok).
  - apply no_requests_keep.
  - vm_compute. reflexivity.
  - repeat constructor.
Defined.

Lemma renderFn_while_paused_witness :
  ∃ w', Worker.renderFn 3 {| Main.args_audioStateBuffer := 0%nat; Main.args_csound := 1 |}
          Run.paused.2
        = Some (Worker.render_loops, w')
    ∧ word (audioStateView 0%nat) AUDIO_STATE.(IS_PAUSED) w' = Some 1
    ∧ Run.paused.2.(csound).(Scenario.blocks) = 0%nat
    ∧ (after (Worker.renderFn 3
                {| Main.args_audioStateBuffer := 0%nat; Main.args_csound := 1 |})
         Run.paused.2).(csound).(Scenario.blocks) = 3%nat.
Proof.
  destruct (renderFn_while_paused 3
              {| Main.args_audioStateBuffer := 0%nat; Main.args_csound := 1 |}
              Run.paused.2
              [1; 1; 0; 0; 1; 1; 44100; 512; 128; 0; 0; 0; 0; 1; 0; 0] 0 1)
    as (res & w' & Hrun & Hpaused & _ & Hloops).
  - apply no_requests_keep.
  - discriminate.
  - discriminate.
  - vm_compute. reflexivity.
  - reflexivity.
  - discriminate.
  - reflexivity.
  - reflexivity.
  - rewrite (Hloops (λ _, eq_refl)) in Hrun.
    exists w'. split; [exact Hrun|]. split; [exact Hpaused|].
    split; vm_compute; reflexivity.
Defined.

Lemma sabCreateRealtimeAudioThread_input_on_demand_witness :
  (Run.started.1.(Worker.nchnlsInput) = 1
   ∧ length Run.started.1.(Worker.channelsInput) = 1%nat
   ∧ word (audioStateView 0%nat) AUDIO_STATE.(NCHNLS_I) Run.started.2 = Some 1)
  ∧ length Run.started.1.(Worker.channelsOutput) = 1%nat
  ∧ Run.started.2.(csound) = (after Main.csoundStart (Run.initialized 32)).(csound).
Proof.
  apply (sabCreateRealtimeAudioThread_input_on_demand
           {| Main.args_audioStateBuffer := 0%nat; Main.args_csound := 1 |}
           (after Main.csoundStart (Run.initialized 32)) Run.started.2 Run.started.1).
  - exact (proj1 table_ok).
  - vm_compute. reflexivity.
Defined.

Lemma sabCreateRealtimeAudioThread_buffer_sizes_witness :
  Run.started.1.(Worker._B) = ToInt32 512
  ∧ Run.started.1.(Worker._b) = ToInt32 128
  ∧ word (audioStateView 0%nat) AUDIO_STATE.(HW_BUFFER_SIZE) Run.started.2
    = Some (ToInt32 512)
  ∧ word (audioStateView 0%nat) AUDIO_STATE.(SW_BUFFER_SIZE) Run.started.2
    = Some (ToInt32 128).
Proof.
  apply (sabCreateRealtimeAudioThread_buffer_sizes
           {| Main.args_audioStateBuffer := 0%nat; Main.args_csound := 1 |}
           (after Main.csoundStart (Run.initialized 32)) Run.started.2 Run.started.1).
  - exact (proj1 table_ok).
  - reflexivity.
  - reflexivity.
  - vm_compute. reflexivity.
Defined.

Lemma wake_advances_cursors_witness :
  ∃ input' output',
    word (Run.supplied 128).1.(Worker.audioStatePointer) AUDIO_STATE.(INPUT_READ_INDEX)
      (Run.wake (Run.supplied 128)).2 = Some input'
    ∧ word (Run.supplied 128).1.(Worker.audioStatePointer)
        AUDIO_STATE.(OUTPUT_WRITE_INDEX) (Run.wake (Run.supplied 128)).2 = Some output'
    ∧ input' = 128 ∧ output' = 128.
Proof.
  destruct (wake_advances_cursors (Run.supplied 128).1 (Run.wake (Run.supplied 128)).1
              (Run.supplied 128).2 (Run.wake (Run.supplied 128)).2 0 0 128)
    as (input' & output' & Hinput & Houtput & -> & -> & _).
  - exact (proj1 table_ok).
  - apply no_requests_keep.
  - vm_compute. reflexivity.
  - vm_compute. reflexivity.
  - vm_compute. reflexivity.
  - vm_compute. discriminate.
  - vm_compute. reflexivity.
  - vm_compute. split; [discriminate | reflexivity].
  - vm_compute. split; [discriminate | reflexivity].
  - vm_compute. reflexivity.
  - eexists _, _. split; [exact Hinput|]. split; [exact Houtput|].
    split; vm_compute; reflexivity.
Defined.

Lemma wake_rearms_doorbell_witness :
  word Run.performing.1.(Worker.audioStatePointer) AUDIO_STATE.(ATOMIC_NOTIFY)
    (Run.wake Run.performing).2 = Some 0.
Proof.
  apply (wake_rearms_doorbell Run.performing.1 (Run.wake Run.performing).1
           Run.performing.2).
  vm_compute. reflexivity.
Defined.

End MoreExamples.

Section StereoExamples.

#[local] Existing Instance Scenario.table.
#[local] Existing Instance Scenario.stereo.
#[local] Existing Instance Scenario.no_requests_stereo.

Lemma channelsOutput_overlap_witness :
  ∃ t w' channel next,
    Stereo.started = Some (t, w')
    ∧ t.(Worker.channelsOutput) = [channel; next]
    ∧ next.(Worker.byteOffset) = channel.(Worker.byteOffset) + MAX_HARDWARE_BUFFER_SIZE
    ∧ Worker.element next (Num 0) = Some 128%nat
    ∧ Worker.element channel (Num 128) = Some 128%nat.
Proof.
  set (channel := {| Worker.byteOffset := 0; Worker.size := 1024 |}).
  set (next := {| Worker.byteOffset := 1024; Worker.size := 1024 |}).
  set (t := {| Worker.audioStatePointer := audioStateView 0%nat;
               Worker.isRequestingRtMidiInput := 0;
               Worker.nchnls := 2; Worker.nchnlsInput := 0; Worker.ksmps := 32;
               Worker.zeroDecibelFullScale := 1%float;
               Worker._B := 512; Worker._b := 128;
               Worker.channelsOutput := [channel; next];
               Worker.channelsInput := [];
               Worker.lastReturn := 0; Worker.performanceEnded := false;
               Worker.firstRound := true |}).
  set (w' := after (Worker.sabCreateRealtimeAudioThread
                      {| Main.args_audioStateBuffer := 0%nat; Main.args_csound := 1 |})
               (after Main.csoundStart Stereo.initialized)).
  assert (Hstarted : Stereo.started = Some (t, w')) by (vm_compute; reflexivity).
  assert (Hrun : Worker.sabCreateRealtimeAudioThread
                   {| Main.args_audioStateBuffer := 0%nat; Main.args_csound := 1 |}
                   (after Main.csoundStart Stereo.initialized) = Some (t, w'))
    by (vm_compute; reflexivity).
  destruct (channelsOutput_overlap
              {| Main.args_audioStateBuffer := 0%nat; Main.args_csound := 1 |}
              (after Main.csoundStart Stereo.initialized) w' t 0 channel next 0
              (proj1 table_ok) Hrun)
    as (Hoffset & _ & _ & Hsame).
  - reflexivity.
  - reflexivity.
  - vm_compute. split; [discriminate | reflexivity].
  - exists t, w', channel, next. split; [exact Hstarted|]. split; [reflexivity|].
    split; [exact Hoffset|]. split; [reflexivity|].
    vm_compute in Hsame. vm_compute. exact (eq_sym Hsame).
Defined.

End StereoExamples.
